(** * Summarix: the extractive summarizer and the chat responder

    A shallow embedding of [summarizer.py], [chatbot.py] and of the JSON
    routes and the helpers of [app.py].

    - A Python [str] is a [string]; every character is a code point below
      256 (ASCII and Latin-1) and the character classes are the ones of
      Python's [str.isspace], [str.isalnum], [str.lower] and of the regular
      expression classes [\s] and [\w] on that range.  The pictographs in
      the chat responder's message literals are kept as their UTF-8 bytes;
      they are only ever copied to the output.
    - A Python [float] is a primitive binary64 [float], so that products,
      quotients and sums round exactly as they do in CPython.
    - NLTK's [sent_tokenize], [word_tokenize] and stop-word list, and the
      [float(str)] parser, are library code: they are parameters of the
      sections below.  Module [Standin] gives small executable tokenizers
      used to run the model on concrete texts.
    - A call either returns or raises: [result]. *)

From Stdlib Require Import ZArith NArith Floats Uint63 Lia List String Ascii Bool DecimalString Sorted.
From stdpp Require Import list.

Local Open Scope string_scope.
Local Open Scope list_scope.

(** ** Outcomes of a Python call *)

Inductive exn := TypeError | ValueError | OverflowError.

Inductive result (A : Type) :=
| Returns (a : A)
| Raises (e : exn).
Arguments Returns {A} a.
Arguments Raises {A} e.

Definition bind {A B} (r : result A) (k : A -> result B) : result B :=
  match r with
  | Returns a => k a
  | Raises e => Raises e
  end.

Notation "'let!' x := r 'in' k" := (bind r (fun x => k))
  (at level 10, x name, r at level 100, k at level 200).

(** ** Characters and strings *)

Definition code (c : ascii) : N := N_of_ascii c.

Definition in_range (lo hi : N) (c : ascii) : bool :=
  ((lo <=? code c) && (code c <=? hi))%N.

(** [str.isspace] and the class [\s]: TAB..CR, FS..US, SPACE, NEL, NBSP. *)
Definition isspace (c : ascii) : bool :=
  in_range 9 13 c || in_range 28 32 c || (code c =? 133)%N || (code c =? 160)%N.

(** [str.isalnum] on one character. *)
Definition isalnum_char (c : ascii) : bool :=
  in_range 48 57 c || in_range 65 90 c || in_range 97 122 c
  || (code c =? 170)%N || in_range 178 179 c || (code c =? 181)%N
  || in_range 185 186 c || in_range 188 190 c
  || in_range 192 214 c || in_range 216 246 c || in_range 248 255 c.

(** The class [\w]: alphanumeric or underscore. *)
Definition isword_char (c : ascii) : bool :=
  isalnum_char c || (code c =? 95)%N.

Definition lower_char (c : ascii) : ascii :=
  if in_range 65 90 c || in_range 192 214 c || in_range 216 222 c
  then ascii_of_N (code c + 32)
  else c.

Definition space : ascii := " "%char.
Definition newline : ascii := ascii_of_N 10.

Fixpoint py_lower (s : string) : string :=
  match s with
  | EmptyString => EmptyString
  | String c s' => String (lower_char c) (py_lower s')
  end.

Fixpoint all_chars (p : ascii -> bool) (s : string) : bool :=
  match s with
  | EmptyString => true
  | String c s' => p c && all_chars p s'
  end.

(** [w.isalnum()]: at least one character, all of them alphanumeric. *)
Definition py_isalnum (w : string) : bool :=
  match w with
  | EmptyString => false
  | _ => all_chars isalnum_char w
  end.

Fixpoint lstrip (s : string) : string :=
  match s with
  | EmptyString => EmptyString
  | String c s' => if isspace c then lstrip s' else s
  end.

Fixpoint rstrip (s : string) : string :=
  match s with
  | EmptyString => EmptyString
  | String c s' =>
      match rstrip s' with
      | EmptyString => if isspace c then EmptyString else String c EmptyString
      | r => String c r
      end
  end.

(** [s.strip()] *)
Definition py_strip (s : string) : string := rstrip (lstrip s).

(** [re.sub(r"\s+", " ", s)]: [in_run] tells that the previous character
    was white space, so the current run has already produced its blank. *)
Fixpoint collapse_ws (in_run : bool) (s : string) : string :=
  match s with
  | EmptyString => EmptyString
  | String c s' =>
      if isspace c
      then if in_run then collapse_ws true s' else String space (collapse_ws true s')
      else String c (collapse_ws false s')
  end.

Fixpoint filter_chars (keep : ascii -> bool) (s : string) : string :=
  match s with
  | EmptyString => EmptyString
  | String c s' =>
      if keep c then String c (filter_chars keep s') else filter_chars keep s'
  end.

(** [sep.join(l)] *)
Definition py_join (sep : string) (l : list string) : string := String.concat sep l.

(** [s.split()]: the maximal runs of non-white-space characters.
    [split_ws_aux s] is the run that [s] starts with and the runs after it. *)
Definition cons_nonempty (w : string) (ws : list string) : list string :=
  match w with
  | EmptyString => ws
  | _ => w :: ws
  end.

Fixpoint split_ws_aux (s : string) : string * list string :=
  match s with
  | EmptyString => (EmptyString, [])
  | String c s' =>
      let '(w, ws) := split_ws_aux s' in
      if isspace c then (EmptyString, cons_nonempty w ws) else (String c w, ws)
  end.

Definition py_split (s : string) : list string :=
  let '(w, ws) := split_ws_aux s in cons_nonempty w ws.

(** [s.split(sep)] for a non-empty separator: [skip] counts the characters
    of a separator occurrence that are still to be passed over. *)
Fixpoint split_sep_aux (sep : string) (skip : nat) (s : string) : string * list string :=
  match s with
  | EmptyString => (EmptyString, [])
  | String c s' =>
      match skip with
      | S k => split_sep_aux sep k s'
      | O =>
          if String.prefix sep s
          then (EmptyString,
                let '(w, ws) := split_sep_aux sep (String.length sep - 1) s' in w :: ws)
          else let '(w, ws) := split_sep_aux sep 0 s' in (String c w, ws)
      end
  end.

Definition py_split_sep (sep s : string) : list string :=
  let '(w, ws) := split_sep_aux sep 0 s in w :: ws.

(** [sub in s] *)
Fixpoint py_contains (sub s : string) : bool :=
  String.prefix sub s ||
  match s with
  | EmptyString => false
  | String _ s' => py_contains sub s'
  end.

(** [s[:n]] *)
Fixpoint py_take (n : nat) (s : string) : string :=
  match n, s with
  | S k, String c s' => String c (py_take k s')
  | _, _ => EmptyString
  end.

(** [not s or not s.strip()] *)
Definition is_blank (s : string) : bool :=
  String.eqb s "" || String.eqb (py_strip s) "".

(** [w in l] for a list or a set of strings. *)
Definition str_in (w : string) (l : list string) : bool :=
  existsb (String.eqb w) l.

(** The distinct strings of [l], in the order of their first occurrence
    (the keys of a dict filled with the strings of [l]). *)
Fixpoint distinct (l : list string) : list string :=
  match l with
  | [] => []
  | x :: l' => x :: List.filter (fun y => negb (String.eqb y x)) (distinct l')
  end.

(** The number of times [w] occurs in [l]. *)
Definition occurrences (w : string) (l : list string) : nat :=
  length (List.filter (String.eqb w) l).

(** The subsequences of [l]. *)
Fixpoint sublists {A} (l : list A) : list (list A) :=
  match l with
  | [] => [[]]
  | x :: l' => map (cons x) (sublists l') ++ sublists l'
  end.

(** ** Insertion-ordered dictionaries with string keys *)

Section Dict.
Context {V : Type}.

Definition dict := list (string * V).

Fixpoint dict_get (d : dict) (k : string) : option V :=
  match d with
  | [] => None
  | (k', v) :: d' => if String.eqb k k' then Some v else dict_get d' k
  end.

(** [d[k] = v]: an existing key keeps its position. *)
Fixpoint dict_set (k : string) (v : V) (d : dict) : dict :=
  match d with
  | [] => [(k, v)]
  | (k', v') :: d' =>
      if String.eqb k k' then (k, v) :: d' else (k', v') :: dict_set k v d'
  end.

Definition dict_keys (d : dict) : list string := map fst d.
Definition dict_values (d : dict) : list V := map snd d.
End Dict.
Arguments dict V : clear implicits.

(** ** Sorting

    [sorted(items, key=lambda x: x[1], reverse=True)]: the keys descend and
    items of equal key stay in their original order.  [ltb] is the [<] of
    the keys. *)
Section Sort.
Context {A K : Type} (ltb : K -> K -> bool).

Fixpoint insert_desc (x : A * K) (l : list (A * K)) : list (A * K) :=
  match l with
  | [] => [x]
  | y :: l' => if ltb (snd x) (snd y) then y :: insert_desc x l' else x :: l
  end.

Definition sort_desc (items : list (A * K)) : list (A * K) :=
  fold_right insert_desc [] items.
End Sort.

(** ** Floats *)

(** The doubles nearest to 0.1, 0.3, 0.5 and 0.9. *)
Definition f0_1 : float := 0x1.999999999999ap-4.
Definition f0_3 : float := 0x1.3333333333333p-2.
Definition f0_5 : float := 0x1p-1.
Definition f0_9 : float := 0x1.ccccccccccccdp-1.

(** [min(a, b)] and [max(a, b)]: the first argument is kept unless the
    second one compares strictly smaller (greater). *)
Definition py_min (a b : float) : float := if PrimFloat.ltb b a then b else a.
Definition py_max (a b : float) : float := if PrimFloat.ltb a b then b else a.

(** The double that a length or a count [n] becomes in [n * x], [x / n] and
    [n / m]; lengths and counts are [Py_ssize_t] values, below [2^63]. *)
Definition float_of_nat (n : nat) : float :=
  PrimFloat.of_uint63 (Uint63.of_Z (Z.of_nat n)).

(** [int(x)]: truncation toward zero; raises on infinities and NaN. *)
Definition py_int (x : float) : result Z :=
  match Prim2SF x with
  | S754_zero _ => Returns 0%Z
  | S754_finite s m e =>
      let a := Z.shiftl (Zpos m) e in
      Returns (if s then Z.opp a else a)
  | S754_infinity _ => Raises OverflowError
  | S754_nan => Raises ValueError
  end.

(** [math.ceil(x)] on a finite float (used on the specification side only). *)
Definition py_ceil (x : float) : result Z :=
  match Prim2SF x with
  | S754_zero _ => Returns 0%Z
  | S754_finite s m e =>
      let a := Z.shiftl (Zpos m) e in
      let exact := Z.eqb (Z.shiftl a (- e)) (Zpos m) in
      Returns (if s then Z.opp a else if (e <? 0)%Z && negb exact then (a + 1)%Z else a)
  | S754_infinity _ => Raises OverflowError
  | S754_nan => Raises ValueError
  end.

(** ** summarizer.py *)

(** The values a caller may pass as [ratio]. *)
Inductive pyobj :=
| PyFloat (f : float)
| PyStr (s : string)
| PyNone.

Section Summarizer.
(** [nltk.tokenize.sent_tokenize], [nltk.tokenize.word_tokenize],
    [set(stopwords.words("english"))] and the parser behind [float(str)]
    ([None] when the string is no number). *)
Variable sent_tokenize : string -> list string.
Variable word_tokenize : string -> list string.
Variable STOP_WORDS : list string.
Variable float_of_str : string -> option float.

Definition _clean_text (text : string) : string :=
  py_strip (collapse_ws false text).

(** [float(ratio)] *)
Definition py_float (v : pyobj) : result float :=
  match v with
  | PyFloat f => Returns f
  | PyStr s =>
      match float_of_str s with
      | Some f => Returns f
      | None => Raises ValueError
      end
  | PyNone => Raises TypeError
  end.

(** [max(0.1, min(0.9, r))] *)
Definition clamp_ratio (r : float) : float := py_max f0_1 (py_min f0_9 r).

(** Lines 32-35: the body of the counting loop, and the loop. *)
Definition count_word (freq : dict nat) (w : string) : dict nat :=
  if py_isalnum w && negb (str_in w STOP_WORDS)
  then dict_set w (default 0 (dict_get freq w) + 1) freq
  else freq.

Definition word_counts (words : list string) : dict nat :=
  fold_left count_word words [].

(** Line 39: [max(freq.values())]. *)
Definition max_count (freq : dict nat) : nat :=
  fold_right Nat.max 0 (dict_values freq).

(** Lines 40-41: every count is divided by the largest one.  The true
    division of two [int]s is the correctly rounded quotient, which is the
    quotient of the two doubles for counts below [2^53]. *)
Definition normalize (freq : dict nat) : dict float :=
  let maxf := max_count freq in
  map (fun kv => (fst kv, (float_of_nat (snd kv) / float_of_nat maxf)%float)) freq.

(** Lines 45-51: the two accumulators of the inner loop. *)
Definition score_step (freq : dict float) (acc : float * nat) (w : string)
  : float * nat :=
  if py_isalnum w
  then (match dict_get freq w with
        | Some f => (fst acc + f)%float
        | None => fst acc
        end, S (snd acc))
  else acc.

Definition score_words (freq : dict float) (s_words : list string) : float * nat :=
  fold_left (score_step freq) s_words (0%float, 0).

(** Lines 43-53: one round of the outer loop, and the loop. *)
Definition score_sentence (freq : dict float) (sent_scores : dict float) (s : string)
  : dict float :=
  let acc := score_words freq (word_tokenize (py_lower s)) in
  if Nat.ltb 0 (snd acc)
  then dict_set s (fst acc / float_of_nat (snd acc))%float sent_scores
  else sent_scores.

Definition sentence_scores (freq : dict float) (sentences : list string) : dict float :=
  fold_left (score_sentence freq) sentences [].

(** [max(1, int(len(sentences) * ratio))] *)
Definition select_count (n : nat) (ratio : float) : result nat :=
  let! k := py_int (float_of_nat n * ratio)%float in
  Returns (Z.to_nat (Z.max 1 k)).

(** [sorted(sent_scores.items(), key=lambda x: x[1], reverse=True)] *)
Definition sorted_desc (items : list (string * float)) : list (string * float) :=
  sort_desc PrimFloat.ltb items.

(** Lines 55-56: the candidates, [set([s for s, _ in ranked[:select_n]])]. *)
Definition top_sentences (sent_scores : dict float) (select_n : nat) : list string :=
  let ranked := sorted_desc sent_scores in
  map fst (firstn select_n ranked).

(** Lines 57-59. *)
Definition pick_top (sentences : list string) (sent_scores : dict float) (select_n : nat)
  : list string :=
  let summary_sentences :=
    List.filter (fun s => str_in s (top_sentences sent_scores select_n)) sentences in
  match summary_sentences with
  | [] => firstn select_n sentences
  | _ => summary_sentences
  end.

(** Lines 31-59: the sentences that make up the summary of a text with two
    sentences or more. *)
Definition summary_sentences (text : string) (sentences : list string) (ratio : float)
  : result (list string) :=
  let words := word_tokenize (py_lower text) in
  let freq := word_counts words in
  match freq with
  | [] =>
      let! n := select_count (length sentences) ratio in
      Returns (firstn n sentences)
  | _ =>
      let sent_scores := sentence_scores (normalize freq) sentences in
      let! select_n := select_count (length sentences) ratio in
      Returns (pick_top sentences sent_scores select_n)
  end.

Definition summarize_text (text : string) (ratio : pyobj) : result string :=
  if is_blank text then Returns ""
  else
    let! r := py_float ratio in
    let ratio := clamp_ratio r in
    let text := _clean_text text in
    let sentences := sent_tokenize text in
    if Nat.leb (length sentences) 1 then Returns text
    else
      let! sel := summary_sentences text sentences ratio in
      Returns (py_join " " sel).

(** *** Notions of the specification *)

(** The alphanumeric tokens of a sentence, as the scoring loop reads them,
    and the sentences that have one. *)
Definition alnum_tokens (s : string) : list string :=
  List.filter py_isalnum (word_tokenize (py_lower s)).

Definition scorable (s : string) : bool := Nat.ltb 0 (length (alnum_tokens s)).

(** The count of a word divided by the largest count. *)
Definition normalized_frequency (freq : dict nat) (w : string) : option float :=
  option_map (fun c => (float_of_nat c / float_of_nat (max_count freq))%float)
    (dict_get freq w).

Definition float_sum (l : list float) : float := fold_left PrimFloat.add l 0%float.

(** The sum of the frequencies of the alphanumeric tokens that are in the
    table, divided by the number of alphanumeric tokens. *)
Definition mean_frequency (freq : dict float) (s : string) : float :=
  (float_sum (omap (dict_get freq) (alnum_tokens s))
   / float_of_nat (length (alnum_tokens s)))%float.

(** The sentences of a text: a text that is not split in two or more is
    its own and only sentence, a blank text has none. *)
Definition document_sentences (text : string) : list string :=
  if is_blank text then []
  else
    let sentences := sent_tokenize (_clean_text text) in
    if Nat.leb (length sentences) 1 then [_clean_text text] else sentences.

(** What lines 31-59 select for the count [n]. *)
Definition selection (text : string) (sentences : list string) (n : nat) : list string :=
  let freq := word_counts (word_tokenize (py_lower text)) in
  match freq with
  | [] => firstn n sentences
  | _ :: _ => pick_top sentences (sentence_scores (normalize freq) sentences) n
  end.

(** "Exactly N sentences, each drawn from the original sentences." *)
Definition selects_exactly_n (text : string) (ratio : float) : Prop :=
  let sentences := sent_tokenize (_clean_text text) in
  exists sel,
    summarize_text text (PyFloat ratio) = Returns (py_join " " sel)
    /\ select_count (length sentences) (clamp_ratio ratio) = Returns (length sel)
    /\ forall s, In s sel -> In s sentences.

(** "The first ceil(sentenceCount * ratio) sentences, with a minimum of 1." *)
Definition ceil_count (n : nat) (ratio : float) : result nat :=
  let! k := py_ceil (float_of_nat n * ratio)%float in
  Returns (Z.to_nat (Z.max 1 k)).
End Summarizer.

(** ** Executable stand-ins for the library parameters

    They agree with NLTK's Punkt sentence tokenizer, its Treebank word
    tokenizer and CPython's [float] on the texts and literals used in the
    examples of this file: sentences end at [.], [!] or [?] followed by
    white space, words are runs of alphanumeric characters and every other
    visible character is a token of its own, numbers are unsigned decimal
    literals. *)
Module Standin.

Definition is_terminator (c : ascii) : bool :=
  Ascii.eqb c "."%char || Ascii.eqb c "!"%char || Ascii.eqb c "?"%char.

Definition at_boundary (rest : string) : bool :=
  match rest with
  | EmptyString => true
  | String c _ => isspace c
  end.

(** The piece that [s] starts with and the pieces after it; the pieces
    concatenate to [s]. *)
Fixpoint sent_split (s : string) : string * list string :=
  match s with
  | EmptyString => (EmptyString, [])
  | String c s' =>
      let '(w, ws) := sent_split s' in
      if is_terminator c && at_boundary s'
      then (String c EmptyString, w :: ws)
      else (String c w, ws)
  end.

Definition nonempty (s : string) : bool :=
  match s with
  | EmptyString => false
  | _ => true
  end.

Definition sent_tokenize (text : string) : list string :=
  let '(w, ws) := sent_split text in
  List.filter nonempty (map py_strip (w :: ws)).

Fixpoint word_split (s : string) : string * list string :=
  match s with
  | EmptyString => (EmptyString, [])
  | String c s' =>
      let '(w, ws) := word_split s' in
      if isspace c then (EmptyString, cons_nonempty w ws)
      else if isalnum_char c then (String c w, ws)
      else (EmptyString, String c EmptyString :: cons_nonempty w ws)
  end.

Definition word_tokenize (text : string) : list string :=
  let '(w, ws) := word_split text in cons_nonempty w ws.

(** The English stop words of the NLTK corpus. *)
Definition STOP_WORDS : list string :=
  [ "i"; "me"; "my"; "myself"; "we"; "our"; "ours"; "ourselves"; "you";
    "you're"; "you've"; "you'll"; "you'd"; "your"; "yours"; "yourself";
    "yourselves"; "he"; "him"; "his"; "himself"; "she"; "she's"; "her";
    "hers"; "herself"; "it"; "it's"; "its"; "itself"; "they"; "them";
    "their"; "theirs"; "themselves"; "what"; "which"; "who"; "whom";
    "this"; "that"; "that'll"; "these"; "those"; "am"; "is"; "are"; "was";
    "were"; "be"; "been"; "being"; "have"; "has"; "had"; "having"; "do";
    "does"; "did"; "doing"; "a"; "an"; "the"; "and"; "but"; "if"; "or";
    "because"; "as"; "until"; "while"; "of"; "at"; "by"; "for"; "with";
    "about"; "against"; "between"; "into"; "through"; "during"; "before";
    "after"; "above"; "below"; "to"; "from"; "up"; "down"; "in"; "out";
    "on"; "off"; "over"; "under"; "again"; "further"; "then"; "once";
    "here"; "there"; "when"; "where"; "why"; "how"; "all"; "any"; "both";
    "each"; "few"; "more"; "most"; "other"; "some"; "such"; "no"; "nor";
    "not"; "only"; "own"; "same"; "so"; "than"; "too"; "very"; "s"; "t";
    "can"; "will"; "just"; "don"; "don't"; "should"; "should've"; "now";
    "d"; "ll"; "m"; "o"; "re"; "ve"; "y"; "ain"; "aren"; "aren't";
    "couldn"; "couldn't"; "didn"; "didn't"; "doesn"; "doesn't"; "hadn";
    "hadn't"; "hasn"; "hasn't"; "haven"; "haven't"; "isn"; "isn't"; "ma";
    "mightn"; "mightn't"; "mustn"; "mustn't"; "needn"; "needn't"; "shan";
    "shan't"; "shouldn"; "shouldn't"; "wasn"; "wasn't"; "weren";
    "weren't"; "won"; "won't"; "wouldn"; "wouldn't" ].

(** Unsigned decimal literals: [digits], [digits.digits]. *)
Definition digit_value (c : ascii) : option nat :=
  if in_range 48 57 c then Some (N.to_nat (code c) - 48) else None.

(** The value of the digits read so far, the number of them read after
    the point ([None] before the point), and whether a digit was read. *)
Fixpoint decimal_aux (s : string) (acc : nat) (frac : option nat) (seen : bool)
  : option (nat * nat) :=
  match s with
  | EmptyString => if seen then Some (acc, default 0 frac) else None
  | String c s' =>
      match digit_value c with
      | Some d => decimal_aux s' (10 * acc + d) (option_map S frac) true
      | None =>
          match frac with
          | None => if Ascii.eqb c "."%char then decimal_aux s' acc (Some 0) seen else None
          | Some _ => None
          end
      end
  end.

Definition float_of_str (s : string) : option float :=
  match decimal_aux (py_strip s) 0 None false with
  | Some (m, k) => Some (float_of_nat m / float_of_nat (10 ^ k))%float
  | None => None
  end.

Definition summarize (text : string) (ratio : pyobj) : result string :=
  summarize_text sent_tokenize word_tokenize STOP_WORDS float_of_str text ratio.

(** The texts of the examples. *)
Definition cats_text : string :=
  "Cats are mammals. Dogs are mammals too. Cats and dogs are popular pets. Both need regular exercise.".
Definition repeated_text : string :=
  "Cats are mammals. Cats are mammals. Dogs bark. Birds sing.".
Definition punctuated_text : string := "Cats purr. !!! ??? Dogs bark.".
Definition stopword_text : string :=
  "This is it. That was then. They were there. We did this.".
Definition padded_text : string := "  Hello   world  ".

End Standin.

(** ** chatbot.py *)

Local Open Scope string_scope.

(** [str(n)] and [f"{n:,}"] for a count [n]. *)
Definition str_of_nat (n : nat) : string := NilZero.string_of_uint (Nat.to_uint n).

Fixpoint group_thousands (s : string) : string :=
  match s with
  | EmptyString => EmptyString
  | String c s' =>
      let rest := String.length s' in
      if Nat.ltb 0 rest && Nat.eqb (rest mod 3) 0
      then String c (String ","%char (group_thousands s'))
      else String c (group_thousands s')
  end.

Definition str_of_nat_grouped (n : nat) : string := group_thousands (str_of_nat n).

Definition nl : string := String newline EmptyString.

(** Line 96: [len([p for p in summary.split("\n\n") if p.strip()])] *)
Definition paragraph_count (summary : string) : nat :=
  length (List.filter (fun p => negb (String.eqb (py_strip p) ""))
            (py_split_sep (nl ++ nl) summary)).

Section Chatbot.
Variable sent_tokenize : string -> list string.
Variable word_tokenize : string -> list string.
Variable STOP_WORDS : list string.
Variable float_of_str : string -> option float.

Definition normalize_text (text : string) : string :=
  let text := py_strip (py_lower text) in
  filter_chars (fun c => isword_char c || isspace c) text.

(** Lines 27-30. *)
Definition count_keyword (freq : dict nat) (w : string) : dict nat :=
  if py_isalnum w && negb (str_in w STOP_WORDS) && Nat.ltb 2 (String.length w)
  then dict_set w (default 0 (dict_get freq w) + 1) freq
  else freq.

Definition extract_keywords (text : string) (top_n : nat) : list string :=
  let words := word_tokenize (py_lower text) in
  let freq := fold_left count_keyword words [] in
  let items := sort_desc Nat.ltb freq in
  map fst (firstn top_n items).

(** The pattern table of [detect_intent], in the order it is written. *)
Definition patterns : list (string * list (list string)) :=
  [ ("what_about", [["what"; "about"]; ["what"; "is"; "about"]; ["tell"; "me"; "about"]]);
    ("key_points", [["key"; "point"]; ["main"; "point"]; ["important"; "point"];
                    ["key"; "idea"]; ["what"; "are"; "key"]]);
    ("make_shorter", [["shorter"]; ["shorten"]; ["condense"]; ["brief"]]);
    ("explain", [["explain"]; ["elaborate"]; ["describe"]; ["clarify"]]);
    ("summary_length", [["how"; "long"]; ["length"]; ["word"; "count"];
                        ["character"; "count"]; ["stats"]]) ].

(** [all(p in tokens for p in pat)] *)
Definition pattern_matches (tokens pat : list string) : bool :=
  forallb (fun p => str_in p tokens) pat.

(** Lines 45-49: the first intent one of whose patterns matches. *)
Fixpoint first_intent (tokens : list string) (table : list (string * list (list string)))
  : string :=
  match table with
  | [] => "general"
  | (intent, pats) :: table' =>
      if existsb (pattern_matches tokens) pats then intent
      else first_intent tokens table'
  end.

Definition detect_intent (question : string) : string :=
  let q := normalize_text question in
  let tokens := py_split q in
  first_intent tokens patterns.

Definition get_key_points (summary : string) (max_points : nat) : list string :=
  let sents := sent_tokenize summary in
  match sents with
  | [] => []
  | _ =>
      let keywords := extract_keywords summary 10 in
      let scored :=
        map (fun s =>
               let ls := py_lower s in
               (py_strip s, length (List.filter (fun k => py_contains k ls) keywords)))
            sents in
      let scored := sort_desc Nat.ltb scored in
      let key_points :=
        map fst (List.filter (fun x => Nat.ltb 0 (snd x)) (firstn max_points scored)) in
      match key_points with
      | [] => map py_strip (firstn max_points sents)
      | _ => key_points
      end
  end.

Definition make_shorter (summary : string) (ratio : float) : result string :=
  match summarize_text sent_tokenize word_tokenize STOP_WORDS float_of_str
          summary (PyFloat ratio) with
  | Returns new =>
      Returns (match new with EmptyString => summary | _ => new end)
  | Raises _ =>
      let sents := sent_tokenize summary in
      let! n := select_count (length sents) ratio in
      Returns (py_join " " (firstn n sents))
  end.

Definition explain_summary (summary : string) : string :=
  let sents := sent_tokenize summary in
  let word_count := length (py_split summary) in
  let char_count := String.length summary in
  let keywords := extract_keywords summary 5 in
  let explanation :=
    "This summary contains " ++ str_of_nat (length sents)
    ++ " sentence(s), approximately " ++ str_of_nat word_count
    ++ " words (" ++ str_of_nat char_count ++ " characters). " in
  match keywords with
  | [] => explanation
  | _ => explanation ++ "Key topics: " ++ py_join ", " keywords ++ "."
  end.

Definition get_summary_stats (summary : string) : string :=
  let word_count := length (py_split summary) in
  let char_count := String.length summary in
  let char_count_no_spaces :=
    String.length (filter_chars (fun c => negb (Ascii.eqb c space)) summary) in
  let sentence_count := length (sent_tokenize summary) in
  let paragraph_count := paragraph_count summary in
  "📊 Summary Statistics:" ++ nl ++ nl
  ++ "• Words: " ++ str_of_nat_grouped word_count ++ nl
  ++ "• Characters: " ++ str_of_nat_grouped char_count ++ nl
  ++ "• Characters (no spaces): " ++ str_of_nat_grouped char_count_no_spaces ++ nl
  ++ "• Sentences: " ++ str_of_nat sentence_count ++ nl
  ++ "• Paragraphs: " ++ str_of_nat paragraph_count.

(** [for i, p in enumerate(points, 1): out += f"{i}. {p}\n"] *)
Fixpoint numbered (i : nat) (points : list string) : string :=
  match points with
  | [] => ""
  | p :: points' => str_of_nat i ++ ". " ++ p ++ nl ++ numbered (S i) points'
  end.

Definition no_summary_message : string :=
  "I don't have a summary to discuss yet. Please generate a summary first!".
Definition no_question_message : string :=
  "Please ask a question about the summary!".
Definition no_answer_message : string :=
  "I didn't find a direct answer in the summary. Try: 'What is this about?', 'Give key points', 'Make it shorter', or 'How long is this summary?'".
Definition error_message : string :=
  "I encountered an error processing your question. Please try rephrasing it.".
Definition shorter_header : string := "📝 Shorter version:" ++ nl ++ nl.

(** Lines 108-138: the body of the [try]. *)
Definition respond (intent question summary : string) : result string :=
  if String.eqb intent "what_about" then
    let keywords := extract_keywords summary 5 in
    let first :=
      match sent_tokenize summary with
      | s :: _ => s
      | [] => py_take 200 summary
      end in
    Returns ("This summary is about: " ++ py_join ", " keywords
             ++ ". For example: " ++ first)
  else if String.eqb intent "key_points" then
    let points := get_key_points summary 5 in
    match points with
    | [] => Returns "I couldn't extract clear key points."
    | _ => Returns (py_strip ("🔑 Key Points:" ++ nl ++ numbered 1 points))
    end
  else if String.eqb intent "make_shorter" then
    let! short := make_shorter summary f0_5 in
    Returns (shorter_header ++ short)
  else if String.eqb intent "explain" then
    Returns ("💡 Explanation:" ++ nl ++ nl ++ explain_summary summary)
  else if String.eqb intent "summary_length" then
    Returns (get_summary_stats summary)
  else
    let qwords :=
      List.filter (fun w => py_isalnum w && negb (str_in w STOP_WORDS))
        (word_tokenize (py_lower question)) in
    let sents := sent_tokenize summary in
    let relevant :=
      List.filter (fun s => let ls := py_lower s in
                            existsb (fun q => py_contains q ls) qwords) sents in
    match relevant with
    | [] => Returns no_answer_message
    | _ => Returns ("Based on your question, here are relevant sentences:" ++ nl ++ nl
                    ++ py_join " " (firstn 3 relevant))
    end.

Definition chat_with_summary (question summary : string) : string :=
  if is_blank summary then no_summary_message
  else if is_blank question then no_question_message
  else
    let intent := detect_intent question in
    match respond intent question summary with
    | Returns answer => answer
    | Raises _ => error_message
    end.

(** *** Notions of the specification *)

(** The declared priority order of the intents. *)
Definition intents : list string :=
  ["what_about"; "key_points"; "make_shorter"; "explain"; "summary_length"].

Definition question_tokens (question : string) : list string :=
  py_split (normalize_text question).

(** An intent matches when every token of one of its patterns is among
    the tokens of the question. *)
Definition intent_matches (tokens : list string) (intent : string) : Prop :=
  exists pats pat,
    In (intent, pats) patterns /\ In pat pats /\ forall p, In p pat -> In p tokens.
End Chatbot.

Local Open Scope list_scope.


(** ** Predicates of the statements *)

Definition starts_ws (s : string) : bool :=
  match s with
  | EmptyString => false
  | String c _ => isspace c
  end.

Fixpoint ends_ws (s : string) : bool :=
  match s with
  | EmptyString => false
  | String c EmptyString => isspace c
  | String _ s' => ends_ws s'
  end.

(** Every white-space character is a blank, and no two of them are adjacent. *)
Fixpoint single_spaced (s : string) : bool :=
  match s with
  | EmptyString => true
  | String c s' =>
      (if isspace c then Ascii.eqb c space && negb (starts_ws s') else true)
      && single_spaced s'
  end.

(** What [_clean_text] produces: single blanks between the words, none
    around them. *)
Definition tidy (s : string) : bool :=
  single_spaced s && negb (starts_ws s) && negb (ends_ws s).

Definition no_newline (s : string) : bool :=
  all_chars (fun c => negb (Ascii.eqb c newline)) s.

(** No two adjacent white-space characters. *)
Fixpoint no_ws_run (s : string) : bool :=
  match s with
  | EmptyString => true
  | String c s' => negb (isspace c && starts_ws s') && no_ws_run s'
  end.

Definition str_infix (s t : string) : Prop :=
  exists a b, t = (a ++ s ++ b)%string.

(** ** app.py

    The routes are functions of what they read of the request, and their
    value is the dictionary given to [jsonify] and the status code.  The
    HTML parsers, the HTTP client and [urlparse] are library code:
    parameters of the sections below. *)

Definition MAX_TEXT_LENGTH : nat := 200 * 1000.
Definition MIN_TEXT_LENGTH : nat := 50.

(** [bool(s)] for a [str]. *)
Definition truthy (s : string) : bool := negb (String.eqb s "").

(** [s.replace(" ", "")] *)
Definition remove_spaces (s : string) : string :=
  filter_chars (fun c => negb (Ascii.eqb c space)) s.

(** The quotient of [n] by [d] rounded to the nearest integer, ties to the
    even one. *)
Definition div_half_even (n d : Z) : Z :=
  let q := (n / d)%Z in
  match Z.compare (2 * (n mod d)) d with
  | Lt => q
  | Gt => (q + 1)%Z
  | Eq => if Z.even q then q else (q + 1)%Z
  end.

(** [round(x, 1)]: the exact value of [x] is rounded, ties to even, to [q]
    tenths, and the result is the double nearest to [q / 10]; a double
    with no fractional bits, an infinity and a NaN are returned as they
    are. *)
Definition py_round1 (x : float) : float :=
  match Prim2SF x with
  | S754_finite s m e =>
      if (0 <=? e)%Z then x
      else
        match div_half_even (10 * Zpos m) (2 ^ (- e)) with
        | Zpos q =>
            let n := Z.shiftl (Zpos q) 64 in
            SF2Prim (binary_round_aux prec emax s (n / 10) (-64)
                       (new_location 10 (n mod 10)))
        | _ => if s then (-0)%float else 0%float
        end
  | _ => x
  end.

(** The dictionary that [calculate_stats] returns. *)
Record stats := {
  original_words : nat;
  original_chars : nat;
  original_chars_no_spaces : nat;
  summary_words : nat;
  summary_chars : nat;
  compression_ratio : float
}.

Definition calculate_stats (text summary : string) : stats :=
  {| original_words := if truthy text then length (py_split text) else 0;
     original_chars := if truthy text then String.length text else 0;
     original_chars_no_spaces :=
       if truthy text then String.length (remove_spaces text) else 0;
     summary_words := if truthy summary then length (py_split summary) else 0;
     summary_chars := if truthy summary then String.length summary else 0;
     compression_ratio :=
       if truthy text && truthy summary && Nat.ltb 0 (String.length text)
       then py_round1
              ((1 - float_of_nat (String.length summary)
                    / float_of_nat (String.length text)) * 100)%float
       else 0%float |}.

(** The parts of [urlparse(url)] that are read. *)
Record url_parts := { scheme : string; netloc : string }.

Section Urls.
Variable urlparse : string -> url_parts.

Definition _is_valid_url (candidate : string) : option string :=
  if negb (truthy candidate) then None
  else
    let candidate := py_strip candidate in
    let parsed := urlparse candidate in
    let '(candidate, parsed) :=
      if negb (truthy (scheme parsed))
      then (("http://" ++ candidate)%string, urlparse ("http://" ++ candidate))
      else (candidate, parsed) in
    if negb (str_in (scheme parsed) ["http"; "https"]) then None
    else if negb (truthy (netloc parsed)) then None
    else Some candidate.
End Urls.

(** [re.sub] of every maximal run of [k] or more characters of the class
    [p] by [rep]; [run] is the run read so far. *)
Definition flush_run (k : nat) (rep run : string) : string :=
  if Nat.leb k (String.length run) then rep else run.

Fixpoint sub_runs (p : ascii -> bool) (k : nat) (rep run s : string) : string :=
  match s with
  | EmptyString => flush_run k rep run
  | String c s' =>
      if p c then sub_runs p k rep (run ++ String c EmptyString) s'
      else (flush_run k rep run ++ String c (sub_runs p k rep EmptyString s'))%string
  end.

Definition tab : ascii := ascii_of_N 9.
Definition is_newline (c : ascii) : bool := Ascii.eqb c newline.
Definition is_blank_char (c : ascii) : bool := Ascii.eqb c space || Ascii.eqb c tab.

(** [re.sub(r"\n{3,}", "\n\n", s)] and [re.sub(r"[ \t]{2,}", " ", s)] *)
Definition sub_newlines (s : string) : string :=
  sub_runs is_newline 3 (nl ++ nl) EmptyString s.
Definition sub_blanks (s : string) : string :=
  sub_runs is_blank_char 2 " " EmptyString s.

(** What is read of the response of [requests.get]: the status code, the
    [Content-Type] header and the decoded body. *)
Record response := {
  status_code : nat;
  content_type : option string;
  resp_text : string
}.

(** [extract_readable_text] returns a text or raises [ValueError] with a
    message. *)
Inductive extraction :=
| Extracted (text : string)
| Failed (message : string).

Section Extraction.
(** [urlparse]; [requests.get], which raises a [RequestException] with a
    text or returns a response; whether [readability] was imported, and
    [_extract_with_readability] ([None] when it raises);
    [_extract_wikipedia], and the text that the heuristics of lines 154-222
    find, both on the page as BeautifulSoup parses it. *)
Variable urlparse : string -> url_parts.
Variable requests_get : string -> string + response.
Variable HAS_READABILITY : bool.
Variable _extract_with_readability : string -> option string.
Variable _extract_wikipedia : response -> string.
Variable heuristic_text : response -> string.

(** Lines 136-138 and 149-151. *)
Definition accept_extracted (text : string) : option string :=
  if truthy text && Nat.leb MIN_TEXT_LENGTH (String.length text)
  then Some (py_strip (sub_newlines (sub_blanks text)))
  else None.

Definition extract_readable_text (url : string) : extraction :=
  match _is_valid_url urlparse url with
  | None => Failed "Invalid URL. Please include a valid http(s) URL."
  | Some normalized =>
      if negb (truthy normalized)
      then Failed "Invalid URL. Please include a valid http(s) URL."
      else
        match requests_get normalized with
        | inl e => Failed ("Network error while fetching the URL: " ++ e)
        | inr resp =>
            if negb (Nat.eqb (status_code resp) 200)
            then Failed ("Failed to fetch page: HTTP " ++ str_of_nat (status_code resp))
            else
              let content_type := default "" (content_type resp) in
              let body := resp_text resp in
              if negb (py_contains "html" (py_lower content_type))
                 && negb (py_contains "<html" (py_lower body))
              then Failed "URL did not return HTML content."
              else
                let readable :=
                  if HAS_READABILITY
                  then match _extract_with_readability (resp_text resp) with
                       | Some text => accept_extracted text
                       | None => None
                       end
                  else None in
                match readable with
                | Some text => Extracted text
                | None =>
                    let domain := py_lower (netloc (urlparse normalized)) in
                    let wikipedia :=
                      if py_contains "wikipedia.org" domain
                      then accept_extracted (_extract_wikipedia resp)
                      else None in
                    match wikipedia with
                    | Some text => Extracted text
                    | None =>
                        let text := heuristic_text resp in
                        let text := sub_newlines text in
                        let text := py_strip (sub_blanks text) in
                        if negb (truthy text)
                           || Nat.ltb (String.length text) MIN_TEXT_LENGTH
                        then Failed "No readable article text found on the provided URL. The page might be JavaScript-driven or behind a paywall."
                        else Extracted text
                    end
                end
        end
  end.
End Extraction.

(** The values of a decoded JSON document. *)
Local Unset Elimination Schemes.
Inductive json :=
| JNull
| JBool (b : bool)
| JInt (z : Z)
| JFloat (f : float)
| JStr (s : string)
| JArray (items : list json)
| JObject (fields : list (string * json)).
Local Set Elimination Schemes.

(** [bool(v)] *)
Definition json_truthy (v : json) : bool :=
  match v with
  | JNull => false
  | JBool b => b
  | JInt z => negb (Z.eqb z 0)
  | JFloat f => negb (PrimFloat.eqb f 0)
  | JStr s => truthy s
  | JArray items => match items with [] => false | _ => true end
  | JObject fields => match fields with [] => false | _ => true end
  end.

(** [float(z)] for an [int]: the nearest double, or [OverflowError]. *)
Definition float_of_Z (z : Z) : result float :=
  match binary_normalize prec emax z 0 false with
  | S754_infinity _ => Raises OverflowError
  | x => Returns (SF2Prim x)
  end.

(** What the routes read of a request: [request.is_json], and what
    [request.get_json()] returns ([None] when it raises). *)
Record request := { is_json : bool; get_json : option json }.

(** The dictionaries given to [jsonify]. *)
Inductive body :=
| ErrorBody (error : string)
| SummaryBody (summary : string) (st : stats)
| AnswerBody (answer question : string)
| NoSummaryBody (answer error : string).

(** [(data.get(key) or "").strip()]; [None] when it raises. *)
Definition stripped_field (data : dict json) (key : string) : option string :=
  match dict_get data key with
  | None => Some (py_strip "")
  | Some v =>
      if json_truthy v
      then match v with
           | JStr s => Some (py_strip s)
           | _ => None
           end
      else Some (py_strip "")
  end.

Section Routes.
Variable sent_tokenize : string -> list string.
Variable word_tokenize : string -> list string.
Variable STOP_WORDS : list string.
Variable float_of_str : string -> option float.

(** [float(v)] *)
Definition json_float (v : json) : result float :=
  match v with
  | JNull => Raises TypeError
  | JBool b => Returns (if b then 1 else 0)%float
  | JInt z => float_of_Z z
  | JFloat f => Returns f
  | JStr s => py_float float_of_str (PyStr s)
  | JArray _ => Raises TypeError
  | JObject _ => Raises TypeError
  end.

(** Lines 325-329: [ratio] is what the request holds under ["ratio"],
    [None] for a missing key. *)
Definition request_ratio (ratio : option json) : float :=
  match
    (let! ratio := match ratio with
                   | None => Returns f0_3
                   | Some v => json_float v
                   end in
     Returns (clamp_ratio ratio))
  with
  | Returns ratio => ratio
  | Raises _ => f0_3
  end.

(** Lines 330-333. *)
Definition summarize_with (text : string) (ratio : float) : result string :=
  match summarize_text sent_tokenize word_tokenize STOP_WORDS float_of_str
          text (PyFloat ratio) with
  | Raises TypeError =>
      summarize_text sent_tokenize word_tokenize STOP_WORDS float_of_str
        text (PyFloat f0_3)
  | r => r
  end.

Definition api_summarize (request : request) : body * nat :=
  let failed := (ErrorBody "An error occurred processing your request", 500) in
  if negb (is_json request)
  then (ErrorBody "Content-Type must be application/json", 400)
  else
    match get_json request with
    | Some (JObject data) =>
        match stripped_field data "text" with
        | None => failed
        | Some text =>
            if negb (truthy text) then (ErrorBody "No text provided", 400)
            else if Nat.ltb (String.length text) MIN_TEXT_LENGTH
            then (ErrorBody ("Text too short. Minimum " ++ str_of_nat MIN_TEXT_LENGTH
                             ++ " chars required."), 400)
            else if Nat.ltb MAX_TEXT_LENGTH (String.length text)
            then (ErrorBody ("Text too long. Maximum "
                             ++ str_of_nat_grouped MAX_TEXT_LENGTH
                             ++ " chars allowed."), 400)
            else
              let ratio := request_ratio (dict_get data "ratio") in
              match summarize_with text ratio with
              | Returns summary =>
                  (SummaryBody summary (calculate_stats text summary), 200)
              | Raises _ => failed
              end
        end
    | _ => failed
    end.

Definition api_chatbot (request : request) : body * nat :=
  let failed := (ErrorBody "An error occurred processing your question.", 500) in
  if negb (is_json request)
  then (ErrorBody "Content-Type must be application/json", 400)
  else
    match get_json request with
    | Some (JObject data) =>
        match stripped_field data "question" with
        | None => failed
        | Some question =>
            match stripped_field data "summary" with
            | None => failed
            | Some summary =>
                if negb (truthy question) then (ErrorBody "No question provided", 400)
                else if negb (truthy summary)
                then (NoSummaryBody
                        "I don't have a summary to discuss yet. Please generate a summary first!"
                        "No summary available", 200)
                else
                  let answer :=
                    chat_with_summary sent_tokenize word_tokenize STOP_WORDS float_of_str
                      question summary in
                  (AnswerBody answer question, 200)
            end
        end
    | _ => failed
    end.
End Routes.

(** ** Executable stand-ins for the collaborators of app.py

    [urlparse] splits off the scheme and the network location as
    [urllib.parse.urlsplit] does on a URL without brackets; the page that
    is fetched is a fixed one, whose text is its body. *)
Module StandinWeb.

(** [s] up to the first character of the class [stop], and what follows
    that character ([None] when there is none). *)
Fixpoint cut_at (stop : ascii -> bool) (s : string) : string * option string :=
  match s with
  | EmptyString => (EmptyString, None)
  | String c s' =>
      if stop c then (EmptyString, Some s')
      else let '(a, b) := cut_at stop s' in (String c a, b)
  end.

Definition is_ascii_alpha (c : ascii) : bool := in_range 65 90 c || in_range 97 122 c.

Definition scheme_char (c : ascii) : bool :=
  is_ascii_alpha c || in_range 48 57 c
  || Ascii.eqb c "+"%char || Ascii.eqb c "-"%char || Ascii.eqb c "."%char.

Definition netloc_end (c : ascii) : bool :=
  Ascii.eqb c "/"%char || Ascii.eqb c "?"%char || Ascii.eqb c "#"%char.

Definition urlparse (url : string) : url_parts :=
  let '(head, rest) := cut_at (Ascii.eqb ":"%char) url in
  let '(scheme, url) :=
    match rest, head with
    | Some after, String c _ =>
        if is_ascii_alpha c && all_chars scheme_char head
        then (py_lower head, after)
        else (EmptyString, url)
    | _, _ => (EmptyString, url)
    end in
  let netloc :=
    match url with
    | String "/" (String "/" after) => fst (cut_at netloc_end after)
    | _ => EmptyString
    end in
  {| scheme := scheme; netloc := netloc |}.

Definition page_text : string :=
  "Cats are mammals.   Dogs are mammals too.  Cats and dogs are popular pets.".

Definition page : response :=
  {| status_code := 200; content_type := Some "text/html; charset=utf-8";
     resp_text := page_text |}.

Definition requests_get (url : string) : string + response := inr page.

Definition extract (url : string) : extraction :=
  extract_readable_text urlparse requests_get false (fun _ => None) (fun _ => "")
    resp_text url.

(** A request for a summary whose ratio is no number, and a question. *)
Definition summarize_request : request :=
  {| is_json := true;
     get_json := Some (JObject [("text", JStr ("  " ++ Standin.cats_text ++ "  "));
                                ("ratio", JStr "abc")]) |}.

Definition chatbot_data : dict json :=
  [("question", JStr " Make it shorter! "); ("summary", JStr Standin.cats_text)].

Definition chatbot_request : request :=
  {| is_json := true; get_json := Some (JObject chatbot_data) |}.

End StandinWeb.

(** ** Predicates of the further statements *)

(** A word of [s.split()]: not empty and free of white space. *)
Definition is_token (t : string) : Prop :=
  t <> "" /\ all_chars (fun c => negb (isspace c)) t = true.

(** The words that [extract_keywords] counts. *)
Definition keyword_ok (STOP_WORDS : list string) (w : string) : bool :=
  py_isalnum w && negb (str_in w STOP_WORDS) && Nat.ltb 2 (String.length w).

(** A character that [str.lower] leaves as it is. *)
Definition is_lower_char (c : ascii) : bool := Ascii.eqb (lower_char c) c.

(** [x] may stand before [y] in a list sorted by descending key. *)
Definition not_below {A K : Type} (ltb : K -> K -> bool) (x y : A * K) : Prop :=
  ltb (snd x) (snd y) = false.

(** A double that is no NaN and not negative: a zero, a positive number
    or the positive infinity. *)
Definition nonneg (x : spec_float) : Prop :=
  match x with
  | S754_zero _ => True
  | S754_infinity s => s = false
  | S754_finite s _ _ => s = false
  | S754_nan => False
  end.

Definition nonneg_float (f : float) : Prop := nonneg (Prim2SF f).

(** No [k] characters of the class [p] in a row; [n] of them were just read. *)
Fixpoint runs_below (p : ascii -> bool) (k n : nat) (s : string) : bool :=
  match s with
  | EmptyString => true
  | String c s' =>
      if p c then Nat.ltb (S n) k && runs_below p k (S n) s'
      else runs_below p k 0 s'
  end.

(** The string is empty or starts outside the class [p]. *)
Definition starts_outside (p : ascii -> bool) (s : string) : bool :=
  match s with
  | EmptyString => true
  | String c _ => negb (p c)
  end.

(** A tidied text: no three line feeds and no two blanks or tabs in a row,
    no white space at the ends. *)
Definition squeezed (text : string) : Prop :=
  runs_below is_newline 3 0 text = true
  /\ runs_below is_blank_char 2 0 text = true
  /\ starts_ws text = false /\ ends_ws text = false.

(** The requests that [api_summarize] accepts: a JSON object whose [text]
    is a string of 50 to 200000 characters once stripped. *)
Definition accepted (request : request) (text : string) : Prop :=
  is_json request = true
  /\ exists data s,
       get_json request = Some (JObject data)
       /\ dict_get data "text" = Some (JStr s)
       /\ text = py_strip s
       /\ MIN_TEXT_LENGTH <= String.length text <= MAX_TEXT_LENGTH.

(** * Properties *)

(** ** Strings *)

Lemma isspace_space : isspace space = true.
Proof. reflexivity. Qed.

Lemma isspace_newline : isspace newline = true.
Proof. reflexivity. Qed.

Lemma lstrip_empty_iff s : lstrip s = "" <-> all_chars isspace s = true.
Proof.
  induction s as [|c s IH]; simpl; [tauto|].
  destruct (isspace c); simpl; [exact IH|].
  split; discriminate.
Qed.

Lemma rstrip_empty_iff s : rstrip s = "" <-> all_chars isspace s = true.
Proof.
  induction s as [|c s IH]; simpl; [tauto|].
  destruct (rstrip s) eqn:E.
  - destruct (isspace c); simpl.
    + split; intros _; [apply IH|]; reflexivity.
    + split; discriminate.
  - split; [discriminate|].
    intros H. apply andb_true_iff in H as [_ H]. apply IH in H. discriminate.
Qed.

Lemma all_ws_lstrip s : all_chars isspace (lstrip s) = all_chars isspace s.
Proof.
  induction s as [|c s IH]; simpl; [reflexivity|].
  destruct (isspace c) eqn:E; simpl; [exact IH|].
  rewrite E. reflexivity.
Qed.

Lemma py_strip_empty_iff s : py_strip s = "" <-> all_chars isspace s = true.
Proof.
  unfold py_strip. rewrite rstrip_empty_iff, all_ws_lstrip. tauto.
Qed.

Lemma all_ws_collapse b s :
  all_chars isspace (collapse_ws b s) = all_chars isspace s.
Proof.
  revert b. induction s as [|c s IH]; intros b; simpl; [reflexivity|].
  destruct (isspace c) eqn:E.
  - destruct b; simpl; rewrite IH; reflexivity.
  - simpl. rewrite E. reflexivity.
Qed.

Lemma clean_text_empty_iff s : _clean_text s = "" <-> all_chars isspace s = true.
Proof.
  unfold _clean_text. rewrite py_strip_empty_iff, all_ws_collapse. tauto.
Qed.

Lemma collapse_single_spaced b s :
  single_spaced (collapse_ws b s) = true
  /\ (b = true -> starts_ws (collapse_ws b s) = false).
Proof.
  revert b. induction s as [|c s IH]; intros b; simpl; [auto|].
  destruct (isspace c) eqn:E.
  - destruct b.
    + apply IH.
    + split; [|discriminate]. simpl.
      destruct (IH true) as [H1 H2]. rewrite H1, H2 by reflexivity. reflexivity.
  - split.
    + simpl. rewrite E. apply IH.
    + intros _. simpl. exact E.
Qed.

Lemma single_spaced_tail c s : single_spaced (String c s) = true -> single_spaced s = true.
Proof. simpl. intros H. apply andb_true_iff in H. tauto. Qed.

Lemma single_spaced_lstrip s : single_spaced s = true -> single_spaced (lstrip s) = true.
Proof.
  induction s as [|c s IH]; [auto|].
  intros H. simpl. destruct (isspace c); [|exact H].
  apply IH. eapply single_spaced_tail, H.
Qed.

Lemma starts_ws_lstrip s : starts_ws (lstrip s) = false.
Proof.
  induction s as [|c s IH]; [reflexivity|].
  simpl. destruct (isspace c) eqn:E; [exact IH|]. simpl. exact E.
Qed.

Lemma starts_ws_rstrip s : starts_ws s = false -> starts_ws (rstrip s) = false.
Proof.
  destruct s as [|c s]; [auto|]. simpl. intros E.
  destruct (rstrip s); [rewrite E|]; simpl; auto.
Qed.

Lemma ends_ws_rstrip s : ends_ws (rstrip s) = false.
Proof.
  induction s as [|c s IH]; [reflexivity|].
  simpl. destruct (rstrip s) eqn:R.
  - destruct (isspace c) eqn:E; simpl; auto.
  - simpl. simpl in IH. exact IH.
Qed.

Lemma single_spaced_rstrip s : single_spaced s = true -> single_spaced (rstrip s) = true.
Proof.
  induction s as [|c s IH]; [auto|].
  intros H. simpl in H. apply andb_true_iff in H as [H1 H2].
  specialize (IH H2). simpl.
  destruct (rstrip s) as [|d r] eqn:R.
  - destruct (isspace c) eqn:E; simpl; [reflexivity|]. rewrite E. reflexivity.
  - simpl. simpl in IH. rewrite IH, andb_true_r.
    destruct (isspace c) eqn:E; [|reflexivity].
    apply andb_true_iff in H1 as [H1 H3]. rewrite H1. simpl.
    apply negb_true_iff in H3. apply starts_ws_rstrip in H3.
    rewrite R in H3. simpl in H3. rewrite H3. reflexivity.
Qed.

Lemma clean_text_tidy s : tidy (_clean_text s) = true.
Proof.
  unfold tidy, _clean_text, py_strip.
  rewrite single_spaced_rstrip, starts_ws_rstrip, ends_ws_rstrip; auto.
  - apply starts_ws_lstrip.
  - apply single_spaced_lstrip, collapse_single_spaced.
Qed.

Lemma collapse_fixed s : single_spaced s = true -> collapse_ws false s = s.
Proof.
  induction s as [|c s IH]; [auto|].
  intros H. simpl in H. apply andb_true_iff in H as [H1 H2]. simpl.
  destruct (isspace c) eqn:E.
  - apply andb_true_iff in H1 as [H1 H3].
    apply Ascii.eqb_eq in H1. subst c. f_equal.
    destruct s as [|d s']; [reflexivity|].
    simpl in H3. apply negb_true_iff in H3.
    specialize (IH H2). simpl in IH |- *. rewrite H3 in IH |- *. exact IH.
  - f_equal. auto.
Qed.

Lemma lstrip_fixed s : starts_ws s = false -> lstrip s = s.
Proof. destruct s as [|c s]; simpl; [auto|]. intros ->. reflexivity. Qed.

Lemma rstrip_fixed s : ends_ws s = false -> rstrip s = s.
Proof.
  induction s as [|c s IH]; [auto|].
  simpl. destruct s as [|d s'].
  - simpl. intros ->. reflexivity.
  - intros H. rewrite (IH H). reflexivity.
Qed.

Lemma clean_text_fixed s : tidy s = true -> _clean_text s = s.
Proof.
  unfold tidy, _clean_text, py_strip. intros H.
  apply andb_true_iff in H as [H H3]. apply andb_true_iff in H as [H1 H2].
  apply negb_true_iff in H2, H3.
  rewrite (collapse_fixed _ H1), (lstrip_fixed _ H2). apply rstrip_fixed, H3.
Qed.

(** ** Floats: rounding *)

Section Rounding.
Local Open Scope Z_scope.

Lemma iter_pos_nat {A} (f : A -> A) p x :
SpecFloat.iter_pos f p x = Nat.iter (Pos.to_nat p) f x.
Proof.
revert x. induction p as [p IH|p IH|]; intros x.
- change (SpecFloat.iter_pos f p~1 x)
    with (SpecFloat.iter_pos f p (SpecFloat.iter_pos f p (f x))).
  rewrite !IH, Pos2Nat.inj_xI.
  replace (S (2 * Pos.to_nat p))%nat with (Pos.to_nat p + (Pos.to_nat p + 1))%nat by lia.
  rewrite !Nat.iter_add. reflexivity.
- change (SpecFloat.iter_pos f p~0 x)
    with (SpecFloat.iter_pos f p (SpecFloat.iter_pos f p x)).
  rewrite !IH, Pos2Nat.inj_xO.
  replace (2 * Pos.to_nat p)%nat with (Pos.to_nat p + Pos.to_nat p)%nat by lia.
  rewrite Nat.iter_add. reflexivity.
- reflexivity.
Qed.

Lemma shr_1_m mrs : 0 <= shr_m mrs -> shr_m (shr_1 mrs) = shr_m mrs / 2.
Proof.
destruct mrs as [m r s]. simpl. intros H.
rewrite <- Z.div2_div.
destruct m as [|[p|p|]|]; try reflexivity. lia.
Qed.

Lemma shr_1_exact mrs :
shr_r mrs = false -> shr_s mrs = false -> Z.even (shr_m mrs) = true ->
shr_r (shr_1 mrs) = false /\ shr_s (shr_1 mrs) = false.
Proof.
destruct mrs as [m r s]. simpl. intros -> -> H.
destruct m as [|[p|p|]|[p|p|]]; simpl in *; auto; discriminate.
Qed.

Lemma iter_shr_1 n mrs :
0 <= shr_m mrs ->
shr_m (Nat.iter n shr_1 mrs) = shr_m mrs / 2 ^ Z.of_nat n
/\ (shr_r mrs = false -> shr_s mrs = false -> shr_m mrs mod 2 ^ Z.of_nat n = 0 ->
    shr_r (Nat.iter n shr_1 mrs) = false /\ shr_s (Nat.iter n shr_1 mrs) = false).
Proof.
revert mrs. induction n as [|n IH]; intros mrs H.
- simpl. rewrite Z.div_1_r. auto.
- rewrite Nat.iter_succ_r.
  assert (H1 : 0 <= shr_m (shr_1 mrs)) by (rewrite shr_1_m by assumption; apply Z.div_pos; lia).
  destruct (IH _ H1) as [IHm IHe].
  rewrite Nat2Z.inj_succ, Z.pow_succ_r by lia.
  split.
  + rewrite IHm, shr_1_m, Z.div_div by lia. reflexivity.
  + intros Hr Hs Hm.
    assert (Hd : shr_m mrs mod 2 = 0).
    { apply Z.mod_divide; [lia|]. apply Z.mod_divide in Hm; [|lia].
      destruct Hm as [k Hk]. exists (k * 2 ^ Z.of_nat n). lia. }
    destruct (shr_1_exact mrs Hr Hs) as [Hr' Hs'].
    { rewrite Zeven_mod, Hd. reflexivity. }
    apply IHe; auto.
    rewrite shr_1_m by assumption.
    apply Z.mod_divide in Hm; [|lia]. destruct Hm as [k Hk].
    rewrite Hk. replace (k * (2 * 2 ^ Z.of_nat n)) with (k * 2 ^ Z.of_nat n * 2) by lia.
    rewrite Z.div_mul by lia. apply Z.mod_mul. lia.
Qed.

Lemma fexp64 z : fexp prec emax z = Z.max (z - 53) (-1074).
Proof. reflexivity. Qed.

Lemma shr_fexp_spec m e l :
0 <= m ->
let e1 := Z.max e (fexp prec emax (Zdigits2 m + e)) in
exists mrs,
  shr_fexp prec emax m e l = (mrs, e1)
  /\ shr_m mrs = m / 2 ^ (e1 - e)
  /\ (l = loc_Exact -> m mod 2 ^ (e1 - e) = 0 -> loc_of_shr_record mrs = loc_Exact).
Proof.
intros Hm e1. unfold shr_fexp, shr.
destruct (fexp prec emax (Zdigits2 m + e) - e) as [|p|p] eqn:E.
- exists (shr_record_of_loc m l).
  replace e1 with e by (unfold e1; lia).
  rewrite Z.sub_diag, Z.div_1_r.
  split; [reflexivity|]. split.
  + destruct l as [|[]]; reflexivity.
  + intros ->. reflexivity.
- exists (SpecFloat.iter_pos shr_1 p (shr_record_of_loc m l)).
  replace e1 with (e + Z.pos p) by (unfold e1; lia).
  split; [reflexivity|].
  rewrite iter_pos_nat.
  assert (Hs : shr_m (shr_record_of_loc m l) = m) by (destruct l as [|[]]; reflexivity).
  destruct (iter_shr_1 (Pos.to_nat p) (shr_record_of_loc m l)) as [H1 H2]; [lia|].
  rewrite positive_nat_Z in H1, H2.
  replace (e + Z.pos p - e) with (Z.pos p) by lia.
  split; [rewrite H1, Hs; reflexivity|].
  intros -> Hd. simpl in H2. destruct (H2 eq_refl eq_refl Hd) as [Hr Hs'].
  destruct (Nat.iter (Pos.to_nat p) shr_1 _) as [m' r' s'].
  simpl in Hr, Hs'. subst. reflexivity.
- exists (shr_record_of_loc m l).
  replace e1 with e by (unfold e1; lia).
  rewrite Z.sub_diag, Z.div_1_r.
  split; [reflexivity|]. split.
  + destruct l as [|[]]; reflexivity.
  + intros ->. reflexivity.
Qed.

Lemma round_nearest_even_bounds m l :
m <= round_nearest_even m l <= m + 1
/\ (l = loc_Exact -> round_nearest_even m l = m).
Proof.
unfold round_nearest_even.
destruct l as [|[]]; try destruct (Z.even m); split; auto; try lia; discriminate.
Qed.

(** The three integers that [binary_round_aux] goes through. *)
Lemma binary_round_aux_spec s m e l :
0 <= m ->
exists m1 m2 m3 e1 e3,
  e1 = Z.max e (fexp prec emax (Zdigits2 m + e))
  /\ m1 = m / 2 ^ (e1 - e)
  /\ m1 <= m2 <= m1 + 1
  /\ (l = loc_Exact -> m mod 2 ^ (e1 - e) = 0 -> m2 = m1)
  /\ e3 = Z.max e1 (fexp prec emax (Zdigits2 m2 + e1))
  /\ m3 = m2 / 2 ^ (e3 - e1)
  /\ binary_round_aux prec emax s m e l =
     match m3 with
     | Z0 => S754_zero s
     | Zpos p => if e3 <=? 971 then S754_finite s p e3 else S754_infinity s
     | Zneg _ => S754_nan
     end.
Proof.
intros Hm.
destruct (shr_fexp_spec m e l Hm) as (mrs1 & E1 & M1 & X1).
set (e1 := Z.max e (fexp prec emax (Zdigits2 m + e))) in *.
set (m2 := round_nearest_even (shr_m mrs1) (loc_of_shr_record mrs1)).
destruct (round_nearest_even_bounds (shr_m mrs1) (loc_of_shr_record mrs1)) as [B2 X2].
fold m2 in B2, X2.
assert (Hm1 : 0 <= shr_m mrs1) by (rewrite M1; apply Z.div_pos; [lia|apply Z.pow_pos_nonneg]; unfold e1; lia).
assert (Hm2 : 0 <= m2) by lia.
destruct (shr_fexp_spec m2 e1 loc_Exact Hm2) as (mrs3 & E3 & M3 & _).
exists (shr_m mrs1), m2, (shr_m mrs3), e1, (Z.max e1 (fexp prec emax (Zdigits2 m2 + e1))).
repeat split; auto; try lia.
unfold binary_round_aux. rewrite E1. fold m2. rewrite E3. reflexivity.
Qed.


Lemma Zdigits2_log2 m : 0 < m -> Zdigits2 m = Z.log2 m + 1.
Proof.
destruct m as [|p|p]; try lia. intros _. simpl.
induction p as [p IH|p IH|]; try reflexivity.
- change (Z.log2 (Z.pos p~1)) with (Z.pos (Pos.size p)).
  simpl digits2_pos. rewrite Pos2Z.inj_succ, IH.
  destruct p; simpl; lia.
- change (Z.log2 (Z.pos p~0)) with (Z.pos (Pos.size p)).
  simpl digits2_pos. rewrite Pos2Z.inj_succ, IH.
  destruct p; simpl; lia.
Qed.

Lemma Zdigits2_bounds m : 0 < m -> 2 ^ (Zdigits2 m - 1) <= m < 2 ^ Zdigits2 m.
Proof.
intros H. rewrite Zdigits2_log2 by assumption.
replace (Z.log2 m + 1 - 1) with (Z.log2 m) by lia.
replace (Z.log2 m + 1) with (Z.succ (Z.log2 m)) by lia.
apply Z.log2_spec, H.
Qed.

Lemma Zdigits2_nonneg m : 0 <= Zdigits2 m.
Proof. destruct m; simpl; lia. Qed.

Lemma Zdigits2_le_pow2 m k : 0 <= k -> 0 <= m <= 2 ^ k -> Zdigits2 m <= k + 1.
Proof.
intros Hk [H0 H1]. destruct (Z.eq_dec m 0) as [->|Hne]; [simpl; lia|].
rewrite Zdigits2_log2 by lia.
assert (Z.log2 m <= Z.log2 (2 ^ k)) by (apply Z.log2_le_mono; lia).
rewrite Z.log2_pow2 in H by lia. lia.
Qed.

Lemma Zdigits2_lt_pow2 m k : 0 <= k -> 0 < m < 2 ^ k -> Zdigits2 m <= k.
Proof.
intros Hk [H0 H1]. rewrite Zdigits2_log2 by lia.
apply Z.log2_lt_pow2 in H1; lia.
Qed.

Lemma Zdigits2_ge_pow2 m k : 0 <= k -> 2 ^ k <= m -> k + 1 <= Zdigits2 m.
Proof.
intros Hk H. assert (0 < 2 ^ k) by (apply Z.pow_pos_nonneg; lia).
rewrite Zdigits2_log2 by lia.
apply Z.log2_le_pow2 in H; lia.
Qed.

Lemma div_pow2_bound m d n :
0 <= n -> 0 <= m < 2 ^ d -> 0 <= m / 2 ^ n < 2 ^ Z.max (d - n) 0.
Proof.
intros Hn [H0 H1].
assert (Hp : 0 < 2 ^ n) by (apply Z.pow_pos_nonneg; lia).
split; [apply Z.div_pos; lia|].
destruct (Z.le_gt_cases n d) as [Hle|Hgt].
- rewrite Z.max_l by lia. apply Z.div_lt_upper_bound; [lia|].
  rewrite <- Z.pow_add_r by lia. replace (n + (d - n)) with d by lia. exact H1.
- rewrite Z.max_r by lia. rewrite Z.div_small; [simpl; lia|].
  split; [lia|]. eapply Z.lt_le_trans; [exact H1|].
  destruct (Z.le_gt_cases 0 d); [apply Z.pow_le_mono_r; lia|].
  rewrite Z.pow_neg_r by lia. lia.
Qed.

(** A mantissa and an exponent that stay below [2^B] round to a finite
  number or to zero. *)
Lemma binary_round_aux_finite s m e l B :
0 < m -> Zdigits2 m + e <= B -> e <= B -> -1074 <= B <= 971 ->
binary_round_aux prec emax s m e l = S754_zero s
\/ exists p e3, binary_round_aux prec emax s m e l = S754_finite s p e3 /\ e3 <= B.
Proof.
intros Hm Hd He HB.
destruct (binary_round_aux_spec s m e l) as (m1 & m2 & m3 & e1 & e3 & E1 & M1 & M2 & _ & E3 & M3 & R);
  [lia|].
rewrite fexp64 in E1, E3.
destruct (Zdigits2_bounds m Hm) as [_ Hlt].
assert (Hn : 0 <= e1 - e) by lia.
destruct (div_pow2_bound m (Zdigits2 m) (e1 - e) Hn) as [Hm1 Hm1']; [lia|].
rewrite <- M1 in Hm1, Hm1'.
assert (Hd2 : Zdigits2 m2 <= Z.max (Zdigits2 m - (e1 - e)) 0 + 1).
{ apply Zdigits2_le_pow2; lia. }
assert (He3 : e3 <= B) by lia.
assert (Hm3 : 0 <= m3).
{ rewrite M3. apply Z.div_pos; [lia|]. apply Z.pow_pos_nonneg; lia. }
rewrite R. destruct m3 as [|p|p]; [left; reflexivity| |lia].
right. exists p, e3. split; [|exact He3].
replace (e3 <=? 971) with true; [reflexivity|]. symmetry. apply Z.leb_le. lia.
Qed.

Lemma Zdigits2_mul_pow2 m k : 0 < m -> 0 <= k -> Zdigits2 (m * 2 ^ k) = Zdigits2 m + k.
Proof.
intros Hm Hk. assert (0 < 2 ^ k) by (apply Z.pow_pos_nonneg; lia).
rewrite !Zdigits2_log2 by lia. rewrite Z.log2_mul_pow2 by lia. lia.
Qed.

Lemma pos_iter_xO p d : Z.pos (Pos.iter xO p d) = Z.pos p * 2 ^ Z.pos d.
Proof.
rewrite <- Z.shiftl_mul_pow2 by lia. simpl.
apply (Pos.iter_swap_gen _ _ Z.pos xO (Z.mul 2)). reflexivity.
Qed.

Lemma shl_align_spec p e e' :
snd (shl_align p e e') = Z.min e e'
/\ Z.pos (fst (shl_align p e e')) = Z.pos p * 2 ^ (e - Z.min e e').
Proof.
unfold shl_align. destruct (e' - e) as [|d|d] eqn:E; simpl.
- rewrite Z.min_l by lia. rewrite Z.sub_diag. split; lia.
- rewrite Z.min_l by lia. rewrite Z.sub_diag. split; lia.
- rewrite Z.min_r by lia. split; [reflexivity|].
  rewrite pos_iter_xO. f_equal. f_equal. lia.
Qed.

Lemma binary_round_shl s p e :
binary_round prec emax s p e =
binary_round_aux prec emax s
  (Z.pos (fst (shl_align p e (fexp prec emax (Z.pos (digits2_pos p) + e)))))
  (snd (shl_align p e (fexp prec emax (Z.pos (digits2_pos p) + e)))) loc_Exact.
Proof.
unfold binary_round. destruct (shl_align _ _ _). reflexivity.
Qed.

End Rounding.

(** ** Floats: the clamped ratio and the scaled count *)

Section FloatFacts.
Local Open Scope Z_scope.

Lemma f0_1_spec : Prim2SF f0_1 = S754_finite false 7205759403792794 (-56).
Proof. vm_compute. reflexivity. Qed.

Lemma f0_9_spec : Prim2SF f0_9 = S754_finite false 8106479329266893 (-53).
Proof. vm_compute. reflexivity. Qed.

Lemma ltb_leb x y : PrimFloat.ltb x y = true -> PrimFloat.leb x y = true.
Proof.
rewrite FloatAxioms.ltb_spec, FloatAxioms.leb_spec. unfold SFltb, SFleb.
destruct (SFcompare (Prim2SF x) (Prim2SF y)) as [[]|]; auto.
Qed.

Lemma clamp_ratio_range r :
PrimFloat.leb f0_1 (clamp_ratio r) = true /\ PrimFloat.leb (clamp_ratio r) f0_9 = true.
Proof.
unfold clamp_ratio, py_max, py_min.
destruct (PrimFloat.ltb r f0_9) eqn:E1.
- destruct (PrimFloat.ltb f0_1 r) eqn:E2.
  + split; apply ltb_leb; assumption.
  + split; reflexivity.
- change (PrimFloat.ltb f0_1 f0_9) with true. cbv iota. split; reflexivity.
Qed.

Lemma between_bounds_finite y :
SFleb (Prim2SF f0_1) y = true -> SFleb y (Prim2SF f0_9) = true ->
exists p e, y = S754_finite false p e /\ -56 <= e <= -53.
Proof.
rewrite f0_1_spec, f0_9_spec. unfold SFleb, SFcompare.
destruct y as [s|s| |s p e]; try discriminate.
- destruct s; discriminate.
- destruct s; [discriminate|].
  intros H1 H2. exists p, e. split; [reflexivity|].
  destruct (Z.compare_spec (-56) e); destruct (Z.compare_spec e (-53));
    try discriminate; lia.
Qed.

Lemma clamp_ratio_finite r :
exists p e, Prim2SF (clamp_ratio r) = S754_finite false p e /\ -56 <= e <= -53.
Proof.
destruct (clamp_ratio_range r) as [H1 H2].
rewrite FloatAxioms.leb_spec in H1, H2. apply between_bounds_finite; assumption.
Qed.

Lemma valid_digits s p e :
valid_binary (S754_finite s p e) = true -> Zdigits2 (Z.pos p) <= 53 /\ e <= 971.
Proof.
simpl. unfold bounded, canonical_mantissa. rewrite fexp64.
intros H. apply andb_true_iff in H as [H1 H2].
apply Z.eqb_eq in H1. apply Z.leb_le in H2. unfold emax, prec in H2. lia.
Qed.

Lemma float_of_nat_finite n :
Prim2SF (float_of_nat n) = S754_zero false
\/ exists p e, Prim2SF (float_of_nat n) = S754_finite false p e /\ e <= 63.
Proof.
unfold float_of_nat. rewrite FloatAxioms.of_uint63_spec.
pose proof (Uint63.to_Z_bounded (Uint63.of_Z (Z.of_nat n))) as Hb.
destruct (Uint63.to_Z (Uint63.of_Z (Z.of_nat n))) as [|p|p]; [left; reflexivity| |lia].
unfold binary_normalize. rewrite binary_round_shl.
destruct (shl_align_spec p 0 (fexp prec emax (Z.pos (digits2_pos p) + 0))) as [He Hm].
rewrite fexp64 in *.
assert (Hd : Zdigits2 (Z.pos p) <= 63).
{ apply Zdigits2_lt_pow2; [lia|]. change Uint63.wB with (2 ^ 63) in Hb. lia. }
apply binary_round_aux_finite; try lia.
rewrite Hm, Zdigits2_mul_pow2 by lia. lia.
Qed.

Lemma Zdigits2_mul p q :
Zdigits2 (Z.pos (p * q)) <= Zdigits2 (Z.pos p) + Zdigits2 (Z.pos q).
Proof.
pose proof (Zdigits2_bounds (Z.pos p) eq_refl) as [_ Hp].
pose proof (Zdigits2_bounds (Z.pos q) eq_refl) as [_ Hq].
pose proof (Zdigits2_nonneg (Z.pos p)). pose proof (Zdigits2_nonneg (Z.pos q)).
apply Zdigits2_lt_pow2; [lia|].
rewrite Pos2Z.inj_mul, Z.pow_add_r by lia. nia.
Qed.

(** The product [len(sentences) * ratio] is a finite, non-negative float. *)
Lemma scaled_count_finite n r :
Prim2SF (float_of_nat n * clamp_ratio r) = S754_zero false
\/ exists p e, Prim2SF (float_of_nat n * clamp_ratio r) = S754_finite false p e.
Proof.
rewrite FloatAxioms.mul_spec. unfold SF64mul.
destruct (clamp_ratio_finite r) as (q & ey & Ey & Hey).
pose proof (Prim2SF_valid (clamp_ratio r)) as Vy. rewrite Ey in *.
apply valid_digits in Vy as [Dy _].
pose proof (Prim2SF_valid (float_of_nat n)) as Vx.
destruct (float_of_nat_finite n) as [Ex|(p & ex & Ex & Hex)]; rewrite Ex in *.
- left. reflexivity.
- apply valid_digits in Vx as [Dx _]. simpl SFmul.
  pose proof (Zdigits2_mul p q).
  destruct (binary_round_aux_finite false (Z.pos (p * q)) (ex + ey) loc_Exact 116)
    as [E|(p' & e' & E & _)]; try lia.
  + left. exact E.
  + right. exists p', e'. exact E.
Qed.

Lemma scaled_count_int n r :
exists k, py_int (float_of_nat n * clamp_ratio r) = Returns k /\ 0 <= k.
Proof.
unfold py_int.
destruct (scaled_count_finite n r) as [E|(p & e & E)]; rewrite E.
- exists 0. split; [reflexivity|lia].
- eexists. split; [reflexivity|]. apply Z.shiftl_nonneg. lia.
Qed.

(** [max(1, int(len(sentences) * ratio))] is computed without an exception
  and is at least 1. *)
Lemma select_count_total n r :
exists k, select_count n (clamp_ratio r) = Returns k /\ (1 <= k)%nat.
Proof.
unfold select_count.
destruct (scaled_count_int n r) as (k & E & Hk). rewrite E. simpl.
eexists. split; [reflexivity|]. lia.
Qed.

End FloatFacts.

(** ** Floats: normalised frequencies *)

Section FloatDivision.
Local Open Scope Z_scope.

(** Counts below [2^53] are converted exactly. *)
Lemma float_of_nat_exact n :
(1 <= n)%nat -> Z.of_nat n < 2 ^ 53 ->
exists p e,
  Prim2SF (float_of_nat n) = S754_finite false p e
  /\ Zdigits2 (Z.pos p) = 53 /\ -52 <= e <= 0
  /\ Z.pos p = Z.of_nat n * 2 ^ (- e).
Proof.
intros H1 H2. unfold float_of_nat. rewrite FloatAxioms.of_uint63_spec.
rewrite Uint63.of_Z_spec, Z.mod_small by (change Uint63.wB with (2 ^ 63); lia).
destruct (Z.of_nat n) as [|p0|p0] eqn:En; try lia.
unfold binary_normalize. rewrite binary_round_shl.
set (d0 := Z.pos (digits2_pos p0)).
assert (Hd0 : 1 <= d0 <= 53).
{ change d0 with (Zdigits2 (Z.pos p0)). split.
  - apply (Zdigits2_ge_pow2 _ 0); simpl; lia.
  - apply Zdigits2_lt_pow2; lia. }
destruct (shl_align_spec p0 0 (fexp prec emax (d0 + 0))) as [He Hm].
set (mz := fst (shl_align p0 0 (fexp prec emax (d0 + 0)))) in *.
set (ez := snd (shl_align p0 0 (fexp prec emax (d0 + 0)))) in *.
rewrite fexp64 in He, Hm.
assert (Hez : ez = d0 - 53) by lia.
assert (Hmz : Z.pos mz = Z.pos p0 * 2 ^ (53 - d0)) by (rewrite Hm; f_equal; f_equal; lia).
assert (Hdz : Zdigits2 (Z.pos mz) = 53).
{ rewrite Hmz, Zdigits2_mul_pow2 by lia. change (Zdigits2 (Z.pos p0)) with d0. lia. }
destruct (binary_round_aux_spec false (Z.pos mz) ez loc_Exact)
  as (m1 & m2 & m3 & e1 & e3 & E1 & M1 & M2 & X2 & E3 & M3 & R); [lia|].
rewrite fexp64 in E1, E3. rewrite Hdz in E1.
assert (He1 : e1 = ez) by lia. clear E1. subst e1.
rewrite Z.sub_diag, Z.pow_0_r, Z.div_1_r in M1.
rewrite Z.sub_diag, Z.pow_0_r in X2.
assert (Hm2 : m2 = m1) by (apply X2; [reflexivity|apply Z.mod_1_r]).
clear X2 M2. subst m2 m1. rewrite Hdz in E3.
assert (He3 : e3 = ez) by lia. clear E3. subst e3.
rewrite Z.sub_diag, Z.pow_0_r, Z.div_1_r in M3. subst m3.
rewrite R. replace (ez <=? 971) with true by (symmetry; apply Z.leb_le; lia).
exists mz, ez. repeat split; try lia.
rewrite Hmz. f_equal. f_equal. lia.
Qed.

Lemma new_location_exact n : new_location n 0 = loc_Exact.
Proof.
unfold new_location, new_location_even, new_location_odd.
destruct (Z.even n); reflexivity.
Qed.

Lemma div_core_spec px ex py ey :
Zdigits2 (Z.pos px) = 53 -> Zdigits2 (Z.pos py) = 53 ->
-52 <= ex <= 0 -> -52 <= ey <= 0 ->
SFdiv_core_binary prec emax (Z.pos px) ex (Z.pos py) ey =
(Z.pos px * 2 ^ 53 / Z.pos py, ex - ey - 53,
 new_location (Z.pos py) ((Z.pos px * 2 ^ 53) mod Z.pos py)).
Proof.
intros Dx Dy Hx Hy. unfold SFdiv_core_binary.
rewrite Dx, Dy, fexp64.
replace (Z.min (Z.max (53 + ex - (53 + ey) - 53) (-1074)) (ex - ey)) with (ex - ey - 53) by lia.
replace (ex - ey - (ex - ey - 53)) with 53 by lia.
cbv zeta iota. rewrite Z.shiftl_mul_pow2 by lia.
unfold Z.div, Z.modulo. destruct (Z.div_eucl _ _). reflexivity.
Qed.

Lemma pow2_split a b : 0 <= a -> 0 <= b -> 2 ^ (a + b) = 2 ^ a * 2 ^ b.
Proof. intros. apply Z.pow_add_r; assumption. Qed.

(** A quotient of two 53-bit mantissas whose value is at most one rounds
  to a positive float that is at most one. *)
Lemma round_quotient s q e l :
e <= -1 -> -200 <= e ->
2 ^ 52 <= q <= 2 ^ (- e) ->
(q = 2 ^ (- e) -> l = loc_Exact) ->
exists p e3,
  binary_round_aux prec emax s q e l = S754_finite s p e3
  /\ 2 ^ 52 <= Z.pos p <= 2 ^ (- e3) /\ e3 <= -52.
Proof.
intros He He' [Hq1 Hq2] Hl.
destruct (binary_round_aux_spec s q e l)
  as (m1 & m2 & m3 & e1 & e3 & E1 & M1 & M2 & X2 & E3 & M3 & R); [lia|].
rewrite fexp64 in E1, E3.
set (d := Zdigits2 q) in *.
assert (Hd1 : 53 <= d) by (apply (Zdigits2_ge_pow2 q 52); lia).
assert (Hd2 : d <= - e + 1) by (apply Zdigits2_le_pow2; lia).
destruct (Zdigits2_bounds q) as [Hb1 Hb2]; [lia|]. fold d in Hb1, Hb2.
assert (He1 : e1 = d + e - 53) by lia. clear E1.
set (n1 := d - 53) in *.
replace (e1 - e) with n1 in * by lia.
assert (Hn1 : 0 <= n1) by lia.
assert (P1 : 0 < 2 ^ n1) by (apply Z.pow_pos_nonneg; lia).
assert (Hm1a : 2 ^ 52 <= m1).
{ rewrite M1. apply Z.div_le_lower_bound; [lia|].
  rewrite <- pow2_split by lia. replace (n1 + 52) with (d - 1) by lia. exact Hb1. }
assert (Hqe : 2 ^ (- e) = 2 ^ n1 * 2 ^ (- e1)).
{ rewrite <- pow2_split by lia. f_equal. lia. }
assert (Hm1b : m1 <= 2 ^ (- e1)).
{ rewrite M1. apply Z.div_le_upper_bound; [lia|]. rewrite <- Hqe. exact Hq2. }
assert (Hm1c : m1 < 2 ^ 53).
{ rewrite M1. apply Z.div_lt_upper_bound; [lia|].
  rewrite <- pow2_split by lia. replace (n1 + 53) with d by lia. exact Hb2. }
assert (Hm2 : m2 <= 2 ^ (- e1)).
{ destruct (Z.eq_dec m1 (2 ^ (- e1))) as [Heq|Hne]; [|lia].
  assert (Hq : q = 2 ^ (- e)).
  { apply Z.le_antisymm; [exact Hq2|].
    rewrite Hqe, <- Heq, M1. apply Z.mul_div_le. lia. }
  rewrite X2; [lia|apply Hl, Hq|].
  rewrite Hq, Hqe, Z.mul_comm. apply Z.mod_mul. lia. }
set (d2 := Zdigits2 m2) in *.
assert (Hd2a : 53 <= d2) by (apply (Zdigits2_ge_pow2 m2 52); lia).
assert (Hd2b : d2 <= 54) by (apply (Zdigits2_le_pow2 m2 53); lia).
assert (He3 : e3 = e1 + (d2 - 53)) by lia. clear E3.
replace (e3 - e1) with (d2 - 53) in M3 by lia.
assert (Hm3 : 2 ^ 52 <= m3 <= 2 ^ (- e3)).
{ destruct (Z.eq_dec d2 53) as [E|E].
  - rewrite E, Z.sub_diag, Z.pow_0_r, Z.div_1_r in M3.
    replace e3 with e1 by lia. lia.
  - assert (E' : d2 = 54) by lia.
    assert (Hm2' : 2 ^ 53 <= m2).
    { destruct (Z.lt_ge_cases m2 (2 ^ 53)) as [Hlt|]; [|assumption].
      assert (d2 <= 53) by (apply Zdigits2_lt_pow2; lia). lia. }
    assert (m2 = 2 ^ 53) by lia.
    rewrite E' in M3. replace (54 - 53) with 1 in M3 by lia.
    assert (m3 = 2 ^ 52) by (subst m2 m3; reflexivity).
    split; [lia|].
    assert (53 <= - e1).
    { destruct (Z.lt_ge_cases (- e1) 53) as [Hlt|]; [|assumption].
      assert (2 ^ (- e1) < 2 ^ 53); [|lia].
      destruct (Z.lt_ge_cases (- e1) 0); [rewrite Z.pow_neg_r by lia; lia|].
      apply Z.pow_lt_mono_r; lia. }
    rewrite H0. apply Z.pow_le_mono_r; lia. }
assert (He3' : e3 <= -52).
{ destruct (Z.lt_ge_cases (- e3) 52) as [Hlt|]; [|lia].
  assert (2 ^ (- e3) < 2 ^ 52); [|lia].
  destruct (Z.lt_ge_cases (- e3) 0); [rewrite Z.pow_neg_r by lia; lia|].
  apply Z.pow_lt_mono_r; lia. }
rewrite R. destruct m3 as [|p|p]; try lia.
replace (e3 <=? 971) with true by (symmetry; apply Z.leb_le; lia).
exists p, e3. auto.
Qed.

Lemma one_spec : Prim2SF 1 = S754_finite false 4503599627370496 (-52).
Proof. vm_compute. reflexivity. Qed.

(** [c / m] for counts [1 <= c <= m] below [2^53] lies in (0, 1]. *)
Lemma count_ratio_unit_interval c m :
(1 <= c <= m)%nat -> Z.of_nat m < 2 ^ 53 ->
PrimFloat.ltb 0 (float_of_nat c / float_of_nat m) = true
/\ PrimFloat.leb (float_of_nat c / float_of_nat m) 1 = true.
Proof.
intros [Hc Hm] Hb.
destruct (float_of_nat_exact c) as (px & ex & Ex & Dx & Hex & Vx); [lia|lia|].
destruct (float_of_nat_exact m) as (py & ey & Ey & Dy & Hey & Vy); [lia|lia|].
rewrite FloatAxioms.ltb_spec, FloatAxioms.leb_spec, FloatAxioms.div_spec, Ex, Ey, one_spec.
unfold SF64div, SFdiv. rewrite div_core_spec by assumption.
set (a := Z.pos px * 2 ^ 53). set (b := Z.pos py).
assert (Hb0 : 0 < b) by (unfold b; lia).
pose proof (Zdigits2_bounds (Z.pos px) eq_refl) as [Bx1 Bx2].
pose proof (Zdigits2_bounds (Z.pos py) eq_refl) as [By1 By2].
rewrite Dx in Bx1, Bx2. rewrite Dy in By1, By2. fold b in By1, By2.
assert (Hab : a <= b * 2 ^ (- (ex - ey - 53))).
{ unfold a, b. rewrite Vx, Vy.
  rewrite <- !Z.mul_assoc, <- !pow2_split by lia.
  replace (- ex + 53) with (53 - ex) by lia.
  replace (- ey + - (ex - ey - 53)) with (53 - ex) by lia.
  assert (0 < 2 ^ (53 - ex)) by (apply Z.pow_pos_nonneg; lia).
  assert (Z.of_nat c <= Z.of_nat m) by lia. nia. }
destruct (round_quotient false (a / b) (ex - ey - 53) (new_location b (a mod b)))
  as (p & e3 & R & [Hp1 Hp2] & He3); try lia.
- split.
  + apply Z.div_le_lower_bound; [lia|]. unfold a. nia.
  + apply Z.div_le_upper_bound; lia.
- intros Hq.
  assert (a mod b = 0); [|rewrite H; apply new_location_exact].
  pose proof (Z.div_mod a b ltac:(lia)) as Ha.
  pose proof (Z.mod_pos_bound a b Hb0). rewrite Hq in Ha. lia.
- change (xorb false false) with false. rewrite R. split; [reflexivity|].
  unfold SFleb, SFcompare.
  destruct (Z.compare_spec e3 (-52)) as [E|E|E]; try reflexivity; [|lia].
  subst e3. change (2 ^ (- -52)) with (2 ^ 52) in Hp2.
  assert (Hp : p = 4503599627370496%positive) by lia.
  rewrite Hp. reflexivity.
Qed.

End FloatDivision.

(** ** Lists, dictionaries and sorting *)

Lemma str_in_In w l : str_in w l = true <-> In w l.
Proof.
  unfold str_in. rewrite existsb_exists. split.
  - intros (x & Hx & E). apply String.eqb_eq in E. subst. exact Hx.
  - intros H. exists w. split; [exact H|apply String.eqb_refl].
Qed.

Lemma filter_sublist {A} (f : A -> bool) (l : list A) : sublist (List.filter f l) l.
Proof.
  induction l as [|x l IH]; simpl; [constructor|].
  destruct (f x); [apply sublist_skip|apply sublist_cons]; exact IH.
Qed.

Lemma sublist_In {A} (l k : list A) x : sublist l k -> In x l -> In x k.
Proof.
  intros H Hx. apply list_elem_of_In. apply (sublist_subseteq _ _ H).
  apply list_elem_of_In, Hx.
Qed.

Lemma firstn_nonempty {A} n (l : list A) : 1 <= n -> l <> [] -> firstn n l <> [].
Proof. destruct n; [lia|]. destruct l; [congruence|]. discriminate. Qed.

Lemma occurrences_In w l : 0 < occurrences w l <-> In w l.
Proof.
  unfold occurrences. induction l as [|x l IH]; simpl; [split; [lia|tauto]|].
  destruct (String.eqb_spec w x) as [->|Hne]; simpl.
  - split; [auto|lia].
  - rewrite IH. split; [auto|]. intros [E|H]; [congruence|exact H].
Qed.

Lemma occurrences_filter (f : string -> bool) l x :
  occurrences x (List.filter f l) = if f x then occurrences x l else 0.
Proof.
  unfold occurrences. induction l as [|y l IH]; [destruct (f x); reflexivity|].
  cbn [List.filter]. destruct (f y) eqn:Fy; cbn [List.filter].
  - destruct (String.eqb_spec x y) as [->|Hne]; cbn [length].
    + rewrite IH, Fy. reflexivity.
    + exact IH.
  - destruct (String.eqb_spec x y) as [->|Hne]; [|exact IH].
    rewrite IH, Fy. reflexivity.
Qed.

(** A list whose members all occur once has no duplicate. *)
Lemma once_NoDup l : (forall x, In x l -> occurrences x l = 1) -> NoDup l.
Proof.
  induction l as [|a l IH]; intros H; [constructor|].
  assert (Ha : ~ In a l).
  { intros Hin. apply occurrences_In in Hin.
    specialize (H a (or_introl eq_refl)). unfold occurrences in *. cbn [List.filter] in H.
    rewrite String.eqb_refl in H. cbn [length] in H. lia. }
  constructor; [rewrite list_elem_of_In; exact Ha|].
  apply IH. intros x Hx. specialize (H x (or_intror Hx)).
  unfold occurrences in *. cbn [List.filter] in H.
  destruct (String.eqb_spec x a) as [E|_]; [subst x; contradiction|exact H].
Qed.

Lemma distinct_In l x : In x (distinct l) <-> In x l.
Proof.
  induction l as [|y l IH]; [reflexivity|]. cbn [distinct In].
  rewrite filter_In, IH, negb_true_iff, String.eqb_neq.
  destruct (string_dec y x) as [->|Hne]; [tauto|]. split; [tauto|].
  intros [H|H]; [tauto|]. right. split; [exact H|congruence].
Qed.

Lemma distinct_NoDup l : NoDup (distinct l).
Proof.
  induction l as [|y l IH]; [constructor|]. cbn [distinct]. constructor.
  - rewrite list_elem_of_In, filter_In, String.eqb_refl. intros [_ H]. discriminate H.
  - eapply sublist_NoDup; [exact IH|apply filter_sublist].
Qed.

Lemma filter_no_member (l : list string) : List.filter (fun s => str_in s []) l = [].
Proof. induction l as [|x l IH]; [reflexivity|exact IH]. Qed.

Lemma sublist_sublists {A} (sel l : list A) : sublist sel l -> In sel (sublists l).
Proof.
  induction 1 as [|x sel l _ IH|x sel l _ IH]; cbn [sublists].
  - left. reflexivity.
  - apply in_or_app. left. apply in_map, IH.
  - apply in_or_app. right. exact IH.
Qed.

(** A property checked on every subsequence of [l]. *)
Lemma sublists_check {A} (P : list A -> bool) (l : list A) :
  forallb P (sublists l) = true -> forall sel, sublist sel l -> P sel = true.
Proof.
  intros H sel Hs. rewrite forallb_forall in H. apply H, sublist_sublists, Hs.
Qed.

Section DictFacts.
Context {V : Type}.
Implicit Types (d : dict V) (k : string) (v : V).

Lemma dict_get_set d k v k' :
  dict_get (dict_set k v d) k' = if String.eqb k' k then Some v else dict_get d k'.
Proof.
  induction d as [|[k0 v0] d IH]; simpl.
  - destruct (String.eqb k' k); reflexivity.
  - destruct (String.eqb k k0) eqn:E; simpl.
    + apply String.eqb_eq in E. subst k0. destruct (String.eqb k' k); reflexivity.
    + rewrite IH. destruct (String.eqb k' k0) eqn:E0; [|reflexivity].
      apply String.eqb_eq in E0. subst k0.
      rewrite String.eqb_sym, E. reflexivity.
Qed.

Lemma dict_get_In d k : In k (dict_keys d) <-> dict_get d k <> None.
Proof.
  induction d as [|[k0 v0] d IH]; simpl; [tauto|].
  destruct (String.eqb k k0) eqn:E.
  - apply String.eqb_eq in E. subst. split; [discriminate|auto].
  - apply String.eqb_neq in E. rewrite <- IH. split; [intros [H|H]|]; auto; congruence.
Qed.

Lemma dict_keys_set d k v :
  dict_keys (dict_set k v d) = if str_in k (dict_keys d) then dict_keys d else dict_keys d ++ [k].
Proof.
  induction d as [|[k0 v0] d IH]; simpl; [reflexivity|].
  destruct (String.eqb k k0) eqn:E; simpl.
  - apply String.eqb_eq in E. subst. reflexivity.
  - rewrite IH. unfold dict_keys, str_in. destruct (existsb _ _); reflexivity.
Qed.

Lemma dict_keys_set_NoDup d k v : NoDup (dict_keys d) -> NoDup (dict_keys (dict_set k v d)).
Proof.
  intros H. rewrite dict_keys_set. destruct (str_in k (dict_keys d)) eqn:E; [exact H|].
  apply NoDup_app. split; [exact H|]. split; [|apply NoDup_singleton].
  intros x Hx Hk. apply list_elem_of_In in Hx. apply list_elem_of_In in Hk.
  destruct Hk as [<-|[]]. apply str_in_In in Hx. congruence.
Qed.

Lemma dict_set_nonempty d k v : dict_set k v d <> [].
Proof. destruct d as [|[k0 v0] d]; simpl; [discriminate|]. destruct (String.eqb k k0); discriminate. Qed.
End DictFacts.

Section SortFacts.
Context {A K : Type} (ltb : K -> K -> bool).

Lemma insert_desc_perm (x : A * K) l : Permutation (insert_desc ltb x l) (x :: l).
Proof.
  induction l as [|y l IH]; simpl; [reflexivity|].
  destruct (ltb (snd x) (snd y)); [|reflexivity].
  rewrite IH. apply perm_swap.
Qed.

Lemma sort_desc_perm (l : list (A * K)) : Permutation (sort_desc ltb l) l.
Proof.
  induction l as [|x l IH]; simpl; [reflexivity|].
  rewrite insert_desc_perm, IH. reflexivity.
Qed.
End SortFacts.

Lemma is_blank_iff s : is_blank s = true <-> all_chars isspace s = true.
Proof.
  unfold is_blank. rewrite orb_true_iff, !String.eqb_eq, py_strip_empty_iff.
  split; [intros [->|H]; auto|auto].
Qed.

Lemma py_join_single sep s : py_join sep [s] = s.
Proof. reflexivity. Qed.

Lemma append_nonempty (a b : string) : a <> "" -> (a ++ b)%string <> "".
Proof. destruct a; [congruence|discriminate]. Qed.

Lemma py_join_nonempty sep (l : list string) :
  l <> [] -> (forall s, In s l -> s <> "") -> py_join sep l <> "".
Proof.
  destruct l as [|x l]; [congruence|]. intros _ H.
  assert (Hx : x <> "") by (apply H; left; reflexivity).
  unfold py_join. simpl. destruct l; [exact Hx|apply append_nonempty, Hx].
Qed.

(** ** The clamped ratio is a fixed point of the clamp *)

Lemma float_eq_of_compare x y :
  SFcompare (Prim2SF x) (Prim2SF y) = Some Eq ->
  (exists p e, Prim2SF x = S754_finite false p e) -> x = y.
Proof.
  intros H (p & e & E). apply Prim2SF_inj. rewrite E in *.
  destruct (Prim2SF y) as [s|s| |s q e']; simpl in H; try discriminate.
  - destruct s; discriminate.
  - destruct s; [discriminate|].
    destruct (Z.compare_spec e e'); try discriminate. subst e'.
    injection H as H. apply Pos.compare_eq in H.
    subst. reflexivity.
Qed.

Lemma clamp_ratio_idempotent r : clamp_ratio (clamp_ratio r) = clamp_ratio r.
Proof.
  destruct (clamp_ratio_range r) as [H1 H2].
  destruct (clamp_ratio_finite r) as (p & e & E & _).
  set (c := clamp_ratio r) in *.
  assert (Hmin : py_min f0_9 c = c).
  { unfold py_min. destruct (PrimFloat.ltb c f0_9) eqn:L; [reflexivity|].
    symmetry. apply float_eq_of_compare; [|eauto].
    rewrite FloatAxioms.ltb_spec in L. rewrite FloatAxioms.leb_spec in H2.
    unfold SFltb in L. unfold SFleb in H2.
    destruct (SFcompare (Prim2SF c) (Prim2SF f0_9)) as [[]|]; congruence. }
  unfold clamp_ratio at 1. rewrite Hmin. unfold py_max.
  destruct (PrimFloat.ltb f0_1 c) eqn:L; [reflexivity|].
  assert (Hc : SFcompare (Prim2SF f0_1) (Prim2SF c) = Some Eq).
  { rewrite FloatAxioms.ltb_spec in L. rewrite FloatAxioms.leb_spec in H1.
    unfold SFltb in L. unfold SFleb in H1.
    destruct (SFcompare (Prim2SF f0_1) (Prim2SF c)) as [[]|]; congruence. }
  apply float_eq_of_compare; [exact Hc|].
  rewrite f0_1_spec. eauto.
Qed.

(** ** The summarizer *)

Section SummarizerFacts.
Variable sent_tokenize : string -> list string.
Variable word_tokenize : string -> list string.
Variable STOP_WORDS : list string.
Variable float_of_str : string -> option float.

Local Abbreviation summarize :=
  (summarize_text sent_tokenize word_tokenize STOP_WORDS float_of_str).
Local Abbreviation counts text := (word_counts STOP_WORDS (word_tokenize (py_lower text))).
Local Abbreviation scores text sents :=
  (sentence_scores word_tokenize (normalize (counts text)) sents).

Lemma pick_top_sublist sents (sc : dict float) n : sublist (pick_top sents sc n) sents.
Proof.
  unfold pick_top. destruct (List.filter _ sents) eqn:E.
  - apply sublist_take.
  - rewrite <- E. apply filter_sublist.
Qed.

Lemma pick_top_nonempty sents (sc : dict float) n :
  1 <= n -> sents <> [] -> pick_top sents sc n <> [].
Proof.
  intros Hn Hs. unfold pick_top. destruct (List.filter _ sents) eqn:E; [|discriminate].
  apply firstn_nonempty; assumption.
Qed.

Lemma summary_sentences_spec text sents r :
  exists n,
    select_count (length sents) (clamp_ratio r) = Returns n /\ 1 <= n
    /\ summary_sentences word_tokenize STOP_WORDS text sents (clamp_ratio r)
       = Returns (selection word_tokenize STOP_WORDS text sents n).
Proof.
  destruct (select_count_total (length sents) r) as (n & E & Hn).
  exists n. split; [exact E|]. split; [exact Hn|].
  unfold summary_sentences, selection.
  destruct (counts text); rewrite E; reflexivity.
Qed.

Lemma selection_sublist text sents n : sublist (selection word_tokenize STOP_WORDS text sents n) sents.
Proof.
  unfold selection. destruct (counts text); [apply sublist_take|apply pick_top_sublist].
Qed.

Lemma selection_nonempty text sents n :
  1 <= n -> sents <> [] -> selection word_tokenize STOP_WORDS text sents n <> [].
Proof.
  intros Hn Hs. unfold selection.
  destruct (counts text); [apply firstn_nonempty|apply pick_top_nonempty]; assumption.
Qed.

(** What [summarize_text] returns for a float ratio. *)
Lemma summarize_text_float text r :
  exists n,
    select_count (length (sent_tokenize (_clean_text text))) (clamp_ratio r) = Returns n
    /\ 1 <= n
    /\ summarize text (PyFloat r) =
       Returns (if is_blank text then ""
                else if Nat.leb (length (sent_tokenize (_clean_text text))) 1
                     then _clean_text text
                     else py_join " " (selection word_tokenize STOP_WORDS (_clean_text text)
                                         (sent_tokenize (_clean_text text)) n)).
Proof.
  destruct (summary_sentences_spec (_clean_text text) (sent_tokenize (_clean_text text)) r)
    as (n & E & Hn & S).
  exists n. split; [exact E|]. split; [exact Hn|].
  unfold summarize_text. destruct (is_blank text); [reflexivity|]. simpl.
  destruct (Nat.leb _ 1); [reflexivity|]. rewrite S. reflexivity.
Qed.

(** C3. For every text and ratio the summary is the single-space join of
    a subsequence of the text's sentences: the selected sentences keep the
    order they have in the document, whatever their scores. *)
Theorem summary_keeps_document_order text r :
  exists sel,
    sublist sel (document_sentences sent_tokenize text)
    /\ summarize text (PyFloat r) = Returns (py_join " " sel).
Proof.
  destruct (summarize_text_float text r) as (n & _ & Hn & E).
  unfold document_sentences. rewrite E.
  destruct (is_blank text); [exists []; split; [constructor|reflexivity]|].
  destruct (Nat.leb _ 1).
  - exists [_clean_text text]. split; [reflexivity|]. reflexivity.
  - eexists. split; [apply selection_sublist|reflexivity].
Qed.

(** C4, amended. A non-blank text that is not split in two sentences or
    more is returned with its white space normalised by [_clean_text],
    for every float ratio; it is returned unchanged when its words are
    already separated by single blanks with none around them. *)
Theorem single_sentence_returns_clean_text text r :
  is_blank text = false ->
  length (sent_tokenize (_clean_text text)) <= 1 ->
  summarize text (PyFloat r) = Returns (_clean_text text)
  /\ (tidy text = true -> summarize text (PyFloat r) = Returns text).
Proof.
  intros Hb Hl.
  destruct (summarize_text_float text r) as (n & _ & _ & E).
  rewrite Hb in E. apply Nat.leb_le in Hl. rewrite Hl in E.
  split; [exact E|]. intros Ht. rewrite E, (clean_text_fixed _ Ht). reflexivity.
Qed.

(** C6, amended. When no word of the text is counted and the text has two
    sentences or more, the summary is made of the first
    [max(1, int(sentenceCount * ratio))] sentences: the count is rounded
    down, not up. *)
Theorem empty_table_takes_first_sentences text r :
  is_blank text = false ->
  2 <= length (sent_tokenize (_clean_text text)) ->
  counts (_clean_text text) = [] ->
  exists n,
    select_count (length (sent_tokenize (_clean_text text))) (clamp_ratio r) = Returns n
    /\ 1 <= n
    /\ summarize text (PyFloat r)
       = Returns (py_join " " (firstn n (sent_tokenize (_clean_text text)))).
Proof.
  intros Hb Hl Hc.
  destruct (summarize_text_float text r) as (n & En & Hn & E).
  exists n. split; [exact En|]. split; [exact Hn|].
  rewrite E, Hb. unfold selection. rewrite Hc.
  destruct (Nat.leb_spec (length (sent_tokenize (_clean_text text))) 1); [lia|reflexivity].
Qed.

Section NonEmptySentences.
(** Punkt never yields an empty sentence. *)
Hypothesis sent_tokenize_nonempty :
  forall text s, In s (sent_tokenize text) -> s <> "".

Lemma summarize_text_empty_iff text r out :
  summarize text (PyFloat r) = Returns out ->
  (out = "" <-> is_blank text = true).
Proof.
  destruct (summarize_text_float text r) as (n & _ & Hn & E).
  rewrite E. intros [= <-].
  destruct (is_blank text) eqn:Hb; [tauto|].
  split; [|discriminate]. intros H. exfalso. revert H.
  destruct (Nat.leb_spec (length (sent_tokenize (_clean_text text))) 1) as [Hl|Hl].
  - rewrite clean_text_empty_iff, <- is_blank_iff. congruence.
  - apply py_join_nonempty.
    + apply selection_nonempty; [exact Hn|].
      destruct (sent_tokenize (_clean_text text)); [simpl in Hl; lia|discriminate].
    + intros s Hs. eapply sent_tokenize_nonempty, sublist_In; [|exact Hs].
      apply selection_sublist.
Qed.

(** C2, amended. For a ratio that [float] accepts, the call returns a
    string, the ratio that is used lies in [0.1, 0.9] and the clamp is
    the only thing that the summary keeps of the ratio, and the string
    is empty exactly when the text is blank.  For a ratio that [float]
    rejects, the call returns the empty string when the text is blank
    and raises the exception of [float] otherwise: the default of 0.3
    is supplied by the callers, not by [summarize_text]. *)
Theorem summarize_text_outcomes text ratio :
  match py_float float_of_str ratio with
  | Returns r =>
      PrimFloat.leb f0_1 (clamp_ratio r) = true
      /\ PrimFloat.leb (clamp_ratio r) f0_9 = true
      /\ summarize text ratio = summarize text (PyFloat (clamp_ratio r))
      /\ exists out,
           summarize text ratio = Returns out
           /\ (out = "" <-> is_blank text = true)
  | Raises e =>
      summarize text ratio = if is_blank text then Returns "" else Raises e
  end.
Proof.
  destruct (py_float float_of_str ratio) as [r|e] eqn:F.
  - assert (S : summarize text ratio = summarize text (PyFloat r)).
    { unfold summarize_text. rewrite F. reflexivity. }
    destruct (clamp_ratio_range r) as [H1 H2].
    split; [exact H1|]. split; [exact H2|]. split.
    + rewrite S. unfold summarize_text. simpl.
      rewrite clamp_ratio_idempotent. reflexivity.
    + rewrite S. destruct (summarize_text_float text r) as (n & _ & _ & E).
      eexists. split; [exact E|].
      apply (summarize_text_empty_iff text r). exact E.
  - unfold summarize_text. rewrite F. destruct (is_blank text); reflexivity.
Qed.
End NonEmptySentences.
End SummarizerFacts.

(** ** Counting and scoring *)

Section DictValues.
Context {V : Type}.

Lemma dict_get_value (d : dict V) k v : dict_get d k = Some v -> In v (dict_values d).
Proof.
  induction d as [|[k0 v0] d IH]; simpl; [discriminate|].
  destruct (String.eqb k k0); [intros [= ->]; auto|auto].
Qed.

Lemma dict_set_values (P : V -> Prop) (d : dict V) k v :
  Forall P (dict_values d) -> P v -> Forall P (dict_values (dict_set k v d)).
Proof.
  intros Hd Hv. induction d as [|[k0 v0] d IH]; simpl.
  - constructor; [exact Hv|constructor].
  - apply Forall_cons in Hd as [H0 Hd].
    destruct (String.eqb k k0); simpl; constructor; auto.
Qed.
End DictValues.

Lemma max_count_upper (freq : dict nat) c : In c (dict_values freq) -> c <= max_count freq.
Proof.
  unfold max_count. induction (dict_values freq) as [|x l IH]; simpl; [tauto|].
  intros [->|H]; [lia|]. specialize (IH H). lia.
Qed.

Lemma max_count_bound (freq : dict nat) k :
  Forall (fun c => c <= k) (dict_values freq) -> max_count freq <= k.
Proof.
  unfold max_count. induction 1 as [|x l Hx _ IH]; simpl; lia.
Qed.

Section ScoringFacts.
Variable word_tokenize : string -> list string.
Variable STOP_WORDS : list string.

Local Abbreviation counts_of words := (word_counts STOP_WORDS words).

Lemma count_words_values words (d : dict nat) k :
  Forall (fun c => 1 <= c <= k) (dict_values d) ->
  Forall (fun c => 1 <= c <= k + length words) (dict_values (fold_left (count_word STOP_WORDS) words d)).
Proof.
  revert d k. induction words as [|w words IH]; intros d k H; simpl.
  - rewrite Nat.add_0_r. exact H.
  - replace (k + S (length words)) with (S k + length words) by lia.
    apply IH. unfold count_word.
    destruct (py_isalnum w && negb (str_in w STOP_WORDS)).
    + apply dict_set_values.
      * eapply Forall_impl; [exact H|]. simpl. intros; lia.
      * destruct (dict_get d w) as [c|] eqn:E; simpl; [|lia].
        apply dict_get_value in E. rewrite Forall_forall in H.
        apply list_elem_of_In in E. specialize (H _ E). lia.
    + eapply Forall_impl; [exact H|]. simpl. intros; lia.
Qed.

(** Every count of the table is between 1 and the largest count, which is
    at most the number of words. *)
Lemma word_counts_bounds words w c :
  dict_get (counts_of words) w = Some c ->
  1 <= c <= max_count (counts_of words)
  /\ max_count (counts_of words) <= length words.
Proof.
  intros E. pose proof (count_words_values words [] 0 (List.Forall_nil _)) as H.
  simpl in H. apply dict_get_value in E.
  split; [split|].
  - rewrite Forall_forall in H. apply list_elem_of_In in E. apply H in E. lia.
  - apply max_count_upper, E.
  - apply max_count_bound. eapply Forall_impl; [exact H|]. simpl. intros; lia.
Qed.

Lemma normalize_get (freq : dict nat) w :
  dict_get (normalize freq) w = normalized_frequency freq w.
Proof.
  unfold normalize, normalized_frequency.
  generalize (max_count freq). intros m.
  induction freq as [|[k c] freq IH]; simpl; [reflexivity|].
  destruct (String.eqb w k); [reflexivity|exact IH].
Qed.

(** The inner loop computes the sum and the count of the specification. *)
Lemma score_words_fold (freq : dict float) toks a n :
  fold_left (score_step freq) toks (a, n)
  = (fold_left PrimFloat.add (omap (dict_get freq) (List.filter py_isalnum toks)) a,
     n + length (List.filter py_isalnum toks)).
Proof.
  revert a n. induction toks as [|w toks IH]; intros a n; simpl.
  - rewrite Nat.add_0_r. reflexivity.
  - unfold score_step at 2. destruct (py_isalnum w); simpl.
    + rewrite IH. destruct (dict_get freq w); simpl; f_equal; lia.
    + apply IH.
Qed.

Lemma score_sentence_spec (freq sc : dict float) s :
  score_sentence word_tokenize freq sc s
  = if scorable word_tokenize s
    then dict_set s (mean_frequency word_tokenize freq s) sc
    else sc.
Proof.
  unfold score_sentence, score_words, scorable, mean_frequency, alnum_tokens, float_sum.
  rewrite score_words_fold. reflexivity.
Qed.

Lemma sentence_scores_get (freq : dict float) sents (d : dict float) s :
  dict_get (fold_left (score_sentence word_tokenize freq) sents d) s
  = if str_in s sents && scorable word_tokenize s
    then Some (mean_frequency word_tokenize freq s)
    else dict_get d s.
Proof.
  revert d. induction sents as [|x sents IH]; intros d; [reflexivity|].
  simpl fold_left. rewrite IH, score_sentence_spec.
  unfold str_in. simpl existsb. fold (str_in s sents).
  destruct (String.eqb s x) eqn:E.
  - apply String.eqb_eq in E. subst x. simpl.
    destruct (scorable word_tokenize s) eqn:Sc.
    + rewrite andb_true_r, dict_get_set, String.eqb_refl.
      destruct (str_in s sents); reflexivity.
    + rewrite andb_false_r. reflexivity.
  - simpl. destruct (str_in s sents && scorable word_tokenize s); [reflexivity|].
    destruct (scorable word_tokenize x); [|reflexivity].
    rewrite dict_get_set, E. reflexivity.
Qed.

Lemma sentence_scores_NoDup (freq : dict float) sents (d : dict float) :
  NoDup (dict_keys d) ->
  NoDup (dict_keys (fold_left (score_sentence word_tokenize freq) sents d)).
Proof.
  revert d. induction sents as [|x sents IH]; intros d H; [exact H|].
  simpl. apply IH. rewrite score_sentence_spec.
  destruct (scorable word_tokenize x); [apply dict_keys_set_NoDup|]; exact H.
Qed.

(** The scored sentences are the sentences with an alphanumeric token. *)
Lemma sentence_scores_keys (freq : dict float) sents s :
  In s (dict_keys (sentence_scores word_tokenize freq sents))
  <-> In s sents /\ scorable word_tokenize s = true.
Proof.
  rewrite dict_get_In. unfold sentence_scores. rewrite sentence_scores_get.
  rewrite <- str_in_In. simpl.
  destruct (str_in s sents); destruct (scorable word_tokenize s); simpl;
    split; try tauto; try congruence; intros []; congruence.
Qed.

(** The candidates: the [n] best-scored sentences. *)
Lemma top_keys (sc : dict float) n :
  (forall s, In s (top_sentences sc n) -> In s (dict_keys sc))
  /\ (NoDup (dict_keys sc) -> NoDup (top_sentences sc n))
  /\ length (top_sentences sc n) = Nat.min n (length sc).
Proof.
  unfold top_sentences, sorted_desc.
  pose proof (sort_desc_perm PrimFloat.ltb sc) as P.
  split; [|split].
  - intros s Hs. apply in_map_iff in Hs as (x & <- & Hx).
    apply in_map. apply (Permutation_in _ P).
    eapply sublist_In; [apply sublist_take|exact Hx].
  - intros H. rewrite <- firstn_map.
    eapply sublist_NoDup; [|apply sublist_take].
    unfold dict_keys in H. rewrite <- P in H. exact H.
  - rewrite length_map, length_firstn, (Permutation_length P). reflexivity.
Qed.

(** As many sentences are scored as there are distinct sentence texts with
    an alphanumeric token. *)
Lemma scored_distinct_count (freq : dict float) sents :
  length (sentence_scores word_tokenize freq sents)
  = length (distinct (List.filter (scorable word_tokenize) sents)).
Proof.
  rewrite <- (length_map fst (sentence_scores word_tokenize freq sents)).
  apply Permutation_length, NoDup_Permutation.
  - apply (sentence_scores_NoDup freq sents []). constructor.
  - apply distinct_NoDup.
  - intros x. rewrite !list_elem_of_In, distinct_In, filter_In.
    apply sentence_scores_keys.
Qed.
End ScoringFacts.

(** The sentences kept are the candidates, each once, when no candidate is
    repeated among the sentences. *)
Lemma kept_candidates sents (sc : dict float) n :
  NoDup (dict_keys sc) ->
  (forall s, In s (dict_keys sc) -> In s sents) ->
  (forall s, In s (top_sentences sc n) -> occurrences s sents = 1) ->
  Permutation (List.filter (fun s => str_in s (top_sentences sc n)) sents)
    (top_sentences sc n).
Proof.
  intros N Hk Ho. destruct (top_keys sc n) as (Hin & Hnd & _).
  apply NoDup_Permutation.
  - apply once_NoDup. intros x Hx. rewrite occurrences_filter.
    apply filter_In in Hx as [_ Hx]. rewrite Hx. apply Ho, str_in_In, Hx.
  - apply Hnd, N.
  - intros x. rewrite !list_elem_of_In, filter_In, str_in_In. split; [tauto|].
    intros Hx. split; [apply Hk, Hin, Hx|exact Hx].
Qed.

(** When no more than [n] sentences are scored, all of them are candidates. *)
Lemma top_all (sc : dict float) n :
  length sc <= n -> forall s, In s (top_sentences sc n) <-> In s (dict_keys sc).
Proof.
  intros L s. unfold top_sentences, sorted_desc.
  rewrite firstn_all2 by (rewrite (Permutation_length (sort_desc_perm PrimFloat.ltb sc)); exact L).
  unfold dict_keys. split; intros H; apply in_map_iff in H as (x & <- & Hx); apply in_map.
  - apply (Permutation_in _ (sort_desc_perm PrimFloat.ltb sc)), Hx.
  - apply (Permutation_in _ (Permutation_sym (sort_desc_perm PrimFloat.ltb sc))), Hx.
Qed.

Section ScoringClaims.
Variable sent_tokenize : string -> list string.
Variable word_tokenize : string -> list string.
Variable STOP_WORDS : list string.
Variable float_of_str : string -> option float.

Local Abbreviation summarize :=
  (summarize_text sent_tokenize word_tokenize STOP_WORDS float_of_str).

Local Abbreviation sentences_of text := (sent_tokenize (_clean_text text)).
Local Abbreviation table_of text :=
  (word_counts STOP_WORDS (word_tokenize (py_lower (_clean_text text)))).
Local Abbreviation candidates_of text n :=
  (top_sentences
     (sentence_scores word_tokenize (normalize (table_of text)) (sentences_of text)) n).
Local Abbreviation scorable_of text :=
  (distinct (List.filter (scorable word_tokenize) (sentences_of text))).

(** C1, amended. For a text of two or more sentences and
    N = max(1, int(sentenceCount * ratio)), the summary is the single-space
    join of a subsequence [sel] of the sentences.  When the frequency table
    is empty or no sentence contains an alphanumeric token, [sel] is the
    first N sentences.  Otherwise, when no candidate (the first N sentence
    texts in the ranking by descending score) occurs more than once among
    the sentences, [sel] is made of exactly the candidates, in document
    order: it has N sentences when at least N distinct sentence texts
    contain an alphanumeric token, and it is made of all the sentences that
    contain one when these are fewer than N.  Nothing is said of a text in
    which a candidate is repeated. *)
Theorem summary_is_the_candidates text r n :
  is_blank text = false ->
  2 <= length (sentences_of text) ->
  select_count (length (sentences_of text)) (clamp_ratio r) = Returns n ->
  exists sel,
    summarize text (PyFloat r) = Returns (py_join " " sel)
    /\ sublist sel (sentences_of text)
    /\ (table_of text = [] \/ scorable_of text = [] -> sel = firstn n (sentences_of text))
    /\ (table_of text <> [] -> scorable_of text <> [] ->
        (forall s, In s (candidates_of text n) -> occurrences s (sentences_of text) = 1) ->
        Permutation sel (candidates_of text n)
        /\ length sel = Nat.min n (length (scorable_of text))
        /\ (length (scorable_of text) <= n ->
            forall s, In s sel <->
                      In s (sentences_of text) /\ scorable word_tokenize s = true)).
Proof.
  intros Hb Hl En.
  destruct (summarize_text_float sent_tokenize word_tokenize STOP_WORDS float_of_str text r)
    as (n' & En' & Hn & E).
  rewrite En in En'. injection En' as <-. rewrite Hb in E.
  destruct (Nat.leb_spec (length (sentences_of text)) 1) as [|_]; [lia|].
  eexists. split; [exact E|]. split; [apply selection_sublist|].
  unfold selection. destruct (table_of text) as [|entry table] eqn:Et.
  { split; [reflexivity|]. intros Hne. contradiction. }
  set (sc := sentence_scores word_tokenize (normalize (entry :: table)) (sentences_of text)).
  assert (N : NoDup (dict_keys sc))
    by (apply (sentence_scores_NoDup word_tokenize _ _ []); constructor).
  pose proof (sentence_scores_keys word_tokenize (normalize (entry :: table))
                (sentences_of text)) as K. fold sc in K.
  pose proof (scored_distinct_count word_tokenize (normalize (entry :: table))
                (sentences_of text)) as C. fold sc in C.
  destruct (top_keys sc n) as (Tin & Tnd & Tlen). unfold pick_top.
  destruct (scorable_of text) as [|s0 rest] eqn:Es.
  - split; [|intros _ Hne; contradiction]. intros _.
    cbn [length] in C. rewrite C in Tlen. rewrite Nat.min_0_r in Tlen.
    destruct (top_sentences sc n); [|discriminate Tlen].
    rewrite filter_no_member. reflexivity.
  - split; [intros [H|H]; discriminate H|]. intros _ _ Ho.
    assert (P : Permutation
                  (List.filter (fun s => str_in s (top_sentences sc n)) (sentences_of text))
                  (top_sentences sc n)).
    { apply kept_candidates; [exact N| |exact Ho]. intros s Hs. apply K in Hs. tauto. }
    assert (L : length (top_sentences sc n) = Nat.min n (S (length rest)))
      by (rewrite Tlen, C; reflexivity).
    destruct (List.filter (fun s => str_in s (top_sentences sc n)) (sentences_of text))
      as [|x l] eqn:Ef.
    { apply Permutation_length in P. cbn [length] in P. lia. }
    split; [exact P|]. split; [rewrite (Permutation_length P); exact L|].
    intros Hk s. rewrite <- K, <- (top_all sc n) by (rewrite C; exact Hk).
    split; apply Permutation_in; [exact P|symmetry; exact P].
Qed.

(** C5. The table maps every counted word to its count divided by the
    largest count, a float in (0, 1]; the score of a sentence is the sum
    of the table's values over its alphanumeric tokens divided by the
    number of its alphanumeric tokens; a sentence without alphanumeric
    token has no score, is never among the ranked candidates, and is not in
    a summary that is made of ranked candidates.  (The text has fewer than
    [2^53] words, the range on which a count is converted to a float
    without rounding.) *)
Theorem scores_are_mean_normalized_frequencies text sents :
  (Z.of_nat (length (word_tokenize (py_lower text))) < 2 ^ 53)%Z ->
  (forall w,
      dict_get (normalize (word_counts STOP_WORDS (word_tokenize (py_lower text)))) w
      = normalized_frequency (word_counts STOP_WORDS (word_tokenize (py_lower text))) w)
  /\ (forall w f,
         normalized_frequency (word_counts STOP_WORDS (word_tokenize (py_lower text))) w
         = Some f ->
         PrimFloat.ltb 0 f = true /\ PrimFloat.leb f 1 = true)
  /\ (forall freq s,
         dict_get (sentence_scores word_tokenize freq sents) s
         = if str_in s sents && scorable word_tokenize s
           then Some (mean_frequency word_tokenize freq s)
           else None)
  /\ (forall freq n s,
         In s (top_sentences (sentence_scores word_tokenize freq sents) n) ->
         In s sents /\ scorable word_tokenize s = true)
  /\ (forall freq n s,
         List.filter
           (fun s => str_in s (top_sentences (sentence_scores word_tokenize freq sents) n))
           sents <> [] ->
         In s (pick_top sents (sentence_scores word_tokenize freq sents) n) ->
         scorable word_tokenize s = true).
Proof.
  intros Hw. split; [|split; [|split; [|split]]].
  - intros w. apply normalize_get.
  - intros w f. unfold normalized_frequency.
    destruct (dict_get _ w) as [c|] eqn:E; [|discriminate].
    intros [= <-]. apply word_counts_bounds in E as [Hc Hm].
    apply count_ratio_unit_interval; lia.
  - intros freq s. unfold sentence_scores. rewrite sentence_scores_get. reflexivity.
  - intros freq n s Hs.
    apply (top_keys (sentence_scores word_tokenize freq sents) n) in Hs.
    apply sentence_scores_keys in Hs. exact Hs.
  - intros freq n s Hne. unfold pick_top.
    destruct (List.filter _ sents) eqn:E; [exfalso; apply Hne; reflexivity|].
    rewrite <- E, filter_In, str_in_In. intros [_ Hs].
    apply (top_keys (sentence_scores word_tokenize freq sents) n) in Hs.
    apply sentence_scores_keys in Hs. destruct Hs as [_ Hs]. exact Hs.
Qed.
End ScoringClaims.

(** ** The shape of a summary *)

Lemma append_assoc (a b c : string) : ((a ++ b) ++ c = a ++ (b ++ c))%string.
Proof. induction a as [|x a IH]; simpl; [reflexivity|]. rewrite IH. reflexivity. Qed.

Lemma append_nil_r (a : string) : (a ++ "")%string = a.
Proof. induction a as [|x a IH]; simpl; [reflexivity|]. rewrite IH. reflexivity. Qed.

Lemma starts_ws_append a b : a <> "" -> starts_ws (a ++ b) = starts_ws a.
Proof. destruct a; [congruence|reflexivity]. Qed.

Lemma ends_ws_append a b : b <> "" -> ends_ws (a ++ b) = ends_ws b.
Proof.
  intros Hb. induction a as [|x a IH]; [reflexivity|].
  simpl. destruct (a ++ b)%string eqn:E; [|exact IH].
  destruct a; [simpl in E; congruence|discriminate].
Qed.

Lemma single_spaced_suffix a s : single_spaced (a ++ s) = true -> single_spaced s = true.
Proof.
  induction a as [|x a IH]; [auto|]. simpl. intros H.
  apply andb_true_iff in H as [_ H]. auto.
Qed.

Lemma single_spaced_prefix s b : single_spaced (s ++ b) = true -> single_spaced s = true.
Proof.
  induction s as [|x s IH]; [auto|]. simpl. intros H.
  apply andb_true_iff in H as [H1 H2]. rewrite (IH H2), andb_true_r.
  destruct (isspace x); [|reflexivity].
  apply andb_true_iff in H1 as [H1 H3]. rewrite H1. simpl.
  destruct s; [reflexivity|exact H3].
Qed.

Lemma single_spaced_infix s t : str_infix s t -> single_spaced t = true -> single_spaced s = true.
Proof.
  intros (a & b & ->) H. eapply single_spaced_prefix, single_spaced_suffix, H.
Qed.

Lemma single_spaced_append a b :
  single_spaced a = true -> single_spaced b = true ->
  ends_ws a = false -> starts_ws b = false ->
  single_spaced (a ++ String space b) = true.
Proof.
  intros Ha Hb Ea Sb. induction a as [|x a IH].
  - simpl. rewrite Sb, Hb. reflexivity.
  - simpl in Ha |- *. apply andb_true_iff in Ha as [H1 H2].
    assert (Ea' : ends_ws a = false).
    { destruct a; [reflexivity|exact Ea]. }
    rewrite (IH H2 Ea'), andb_true_r.
    destruct (isspace x) eqn:X; [|reflexivity].
    apply andb_true_iff in H1 as [H1 H3]. rewrite H1. simpl.
    destruct a as [|y a]; [simpl in Ea; congruence|exact H3].
Qed.

Lemma py_join_tidy (l : list string) :
  (forall s, In s l -> tidy s = true /\ s <> "") -> tidy (py_join " " l) = true.
Proof.
  unfold py_join. induction l as [|x l IH]; intros H; [reflexivity|].
  destruct (H x (or_introl eq_refl)) as [Tx Nx].
  destruct l as [|y l]; [exact Tx|].
  assert (IH' : tidy (String.concat " " (y :: l)) = true) by (apply IH; intros; apply H; right; assumption).
  assert (Ny : String.concat " " (y :: l) <> "").
  { apply (py_join_nonempty " "); [discriminate|]. intros s Hs. apply H. right. exact Hs. }
  change (String.concat " " (x :: y :: l))
    with (x ++ String space (String.concat " " (y :: l)))%string.
  clear IH H. revert IH' Ny. generalize (String.concat " " (y :: l)). intros rest Ty Ny.
  unfold tidy in *.
  apply andb_true_iff in Tx as [Tx Tx3]. apply andb_true_iff in Tx as [Tx1 Tx2].
  apply andb_true_iff in Ty as [Ty Ty3]. apply andb_true_iff in Ty as [Ty1 Ty2].
  apply negb_true_iff in Tx2, Tx3, Ty2, Ty3.
  rewrite single_spaced_append, starts_ws_append, Tx2 by assumption.
  rewrite ends_ws_append by discriminate.
  destruct rest; [congruence|].
  cbn [ends_ws] in Ty3 |- *. rewrite Ty3. reflexivity.
Qed.

Lemma single_spaced_no_newline s : single_spaced s = true -> no_newline s = true.
Proof.
  unfold no_newline. induction s as [|c s IH]; [auto|]. simpl. intros H.
  apply andb_true_iff in H as [H1 H2]. rewrite (IH H2), andb_true_r.
  destruct (Ascii.eqb c newline) eqn:E; [|reflexivity].
  apply Ascii.eqb_eq in E. subst c. simpl in H1. discriminate.
Qed.

Lemma single_spaced_no_ws_run s : single_spaced s = true -> no_ws_run s = true.
Proof.
  induction s as [|c s IH]; [auto|]. simpl. intros H.
  apply andb_true_iff in H as [H1 H2]. rewrite (IH H2), andb_true_r.
  destruct (isspace c); [|reflexivity].
  apply andb_true_iff in H1 as [_ H1]. apply negb_true_iff in H1. rewrite H1. reflexivity.
Qed.

Lemma split_paragraphs_single s :
  no_newline s = true -> py_split_sep (nl ++ nl) s = [s].
Proof.
  unfold py_split_sep, no_newline. intros H.
  assert (E : split_sep_aux (nl ++ nl) 0 s = (s, [])); [|rewrite E; reflexivity].
  induction s as [|c s IH]; [reflexivity|].
  simpl in H. apply andb_true_iff in H as [H1 H2].
  cbn [split_sep_aux]. rewrite (IH H2).
  replace (String.prefix (nl ++ nl) (String c s)) with false; [reflexivity|].
  change (nl ++ nl)%string with (String newline (String newline "")).
  change (String.prefix (String newline (String newline "")) (String c s))
    with (if Ascii.ascii_dec newline c
          then String.prefix (String newline "") s else false).
  destruct (Ascii.ascii_dec newline c) as [<-|]; [discriminate|reflexivity].
Qed.

Lemma tidy_one_paragraph s : tidy s = true -> s <> "" -> paragraph_count s = 1.
Proof.
  unfold tidy, paragraph_count. intros H Hs.
  apply andb_true_iff in H as [H H3]. apply andb_true_iff in H as [H1 H2].
  rewrite split_paragraphs_single by (apply single_spaced_no_newline, H1).
  simpl. destruct (String.eqb (py_strip s) "") eqn:E; [|reflexivity].
  apply String.eqb_eq, py_strip_empty_iff in E.
  destruct s as [|c s]; [congruence|].
  simpl in H2, E. apply negb_true_iff in H2. rewrite H2 in E. discriminate.
Qed.

Section SummaryShape.
Variable sent_tokenize : string -> list string.
Variable word_tokenize : string -> list string.
Variable STOP_WORDS : list string.
Variable float_of_str : string -> option float.

(** Punkt returns the sentences of the cleaned text as non-empty slices of
    it, without the white space between them; the summary is then free of
    newlines and of white-space runs. *)
Lemma summarize_text_tidy text ratio out :
  (forall s, In s (sent_tokenize (_clean_text text)) ->
             s <> "" /\ str_infix s (_clean_text text)
             /\ starts_ws s = false /\ ends_ws s = false) ->
  summarize_text sent_tokenize word_tokenize STOP_WORDS float_of_str text ratio = Returns out ->
  tidy out = true.
Proof.
  intros Hp. unfold summarize_text at 1.
  destruct (is_blank text); [intros [= <-]; reflexivity|].
  destruct (py_float float_of_str ratio) as [r|]; [|discriminate]. simpl.
  destruct (Nat.leb _ 1); [intros [= <-]; apply clean_text_tidy|].
  destruct (summary_sentences_spec word_tokenize STOP_WORDS (_clean_text text)
              (sent_tokenize (_clean_text text)) r) as (n & _ & _ & E).
  rewrite E. simpl. intros [= <-].
  apply py_join_tidy. intros s Hs.
  eapply sublist_In in Hs; [|apply selection_sublist].
  destruct (Hp s Hs) as (Hne & Hi & Hs1 & Hs2).
  split; [|exact Hne].
  pose proof (clean_text_tidy text) as T. unfold tidy in T |- *.
  apply andb_true_iff in T as [T _]. apply andb_true_iff in T as [T _].
  rewrite Hs1, Hs2, (single_spaced_infix s (_clean_text text)); auto.
Qed.

(** C10. The text that is segmented has no newline and no two adjacent
    white-space characters; neither has a string returned by
    [summarize_text], and when it is not empty it counts as one paragraph
    for [get_summary_stats].  The sentence tokenizer is only asked to cut
    the cleaned text of this call into non-empty slices without white space
    at their ends. *)
Theorem summary_is_one_paragraph text ratio out :
  (forall s, In s (sent_tokenize (_clean_text text)) ->
             s <> "" /\ str_infix s (_clean_text text)
             /\ starts_ws s = false /\ ends_ws s = false) ->
  summarize_text sent_tokenize word_tokenize STOP_WORDS float_of_str text ratio = Returns out ->
  (no_newline (_clean_text text) = true /\ no_ws_run (_clean_text text) = true)
  /\ no_newline out = true /\ no_ws_run out = true
  /\ (out <> "" -> paragraph_count out = 1).
Proof.
  intros Hp H. apply (summarize_text_tidy _ _ _ Hp) in H.
  pose proof H as T. unfold tidy in T.
  apply andb_true_iff in T as [T _]. apply andb_true_iff in T as [T _].
  pose proof (clean_text_tidy text) as C. unfold tidy in C.
  apply andb_true_iff in C as [C _]. apply andb_true_iff in C as [C _].
  split; [split; [apply single_spaced_no_newline, C|apply single_spaced_no_ws_run, C]|].
  split; [apply single_spaced_no_newline, T|].
  split; [apply single_spaced_no_ws_run, T|].
  apply tidy_one_paragraph, H.
Qed.
End SummaryShape.

(** ** The chat responder *)

Lemma pattern_matches_iff tokens pat :
  pattern_matches tokens pat = true <-> forall p, In p pat -> In p tokens.
Proof.
  unfold pattern_matches. rewrite forallb_forall.
  split; intros H p Hp; apply str_in_In, H, Hp.
Qed.

Lemma any_pattern_iff tokens pats :
  existsb (pattern_matches tokens) pats = true
  <-> exists pat, In pat pats /\ forall p, In p pat -> In p tokens.
Proof.
  rewrite existsb_exists. split; intros (pat & H1 & H2); exists pat;
    (split; [exact H1|]); apply pattern_matches_iff, H2.
Qed.

(** An intent of the table matches exactly when one of the patterns listed
    under it does. *)
Lemma intent_matches_iff tokens intent pats :
  In (intent, pats) patterns ->
  intent_matches tokens intent <-> existsb (pattern_matches tokens) pats = true.
Proof.
  intros Hin. rewrite any_pattern_iff. unfold intent_matches. split.
  - intros (pats' & pat & H1 & H2 & H3).
    assert (pats' = pats); [|subst; eauto].
    unfold patterns in Hin, H1. simpl in Hin, H1.
    repeat (destruct Hin as [Hin|Hin]; [injection Hin as <- <-|]); try contradiction;
      repeat (destruct H1 as [H1|H1]; [try discriminate; injection H1 as <-|]);
      try contradiction; reflexivity.
  - intros (pat & H1 & H2). exists pats, pat. auto.
Qed.

Ltac split_priority H :=
  repeat (match type of H with
          | (?before ++ _ :: _)%list = _ =>
              destruct before as [|? before]; simpl in H;
              [injection H as -> ->|injection H as -> H]
          | _ = (?before ++ _ :: _)%list =>
              symmetry in H
          end);
  try (match type of H with
       | (?before ++ _ :: _)%list = [] => destruct before; discriminate H
       end).

(** C7. [detect_intent] always answers with one of the six intents; it
    answers with an intent of the priority list exactly when that intent
    matches and no intent before it in the list does, and with [general]
    exactly when none matches; and it classifies the three questions of the
    specification as stated. *)
Theorem detect_intent_follows_priority :
  (forall q,
      In (detect_intent q) (intents ++ ["general"])
      /\ (forall before i after,
             intents = before ++ i :: after ->
             (detect_intent q = i <->
              intent_matches (question_tokens q) i
              /\ forall j, In j before -> ~ intent_matches (question_tokens q) j))
      /\ (detect_intent q = "general" <->
          forall i, In i intents -> ~ intent_matches (question_tokens q) i))
  /\ detect_intent "What are the key points?" = "key_points"
  /\ detect_intent "make it shorter please" = "make_shorter"
  /\ detect_intent "banana" = "general".
Proof.
  split; [|repeat split; vm_compute; reflexivity].
  intros q.
  pose proof (intent_matches_iff (question_tokens q) "what_about" _
                (or_introl eq_refl)) as M1.
  pose proof (intent_matches_iff (question_tokens q) "key_points" _
                (or_intror (or_introl eq_refl))) as M2.
  pose proof (intent_matches_iff (question_tokens q) "make_shorter" _
                (or_intror (or_intror (or_introl eq_refl)))) as M3.
  pose proof (intent_matches_iff (question_tokens q) "explain" _
                (or_intror (or_intror (or_intror (or_introl eq_refl))))) as M4.
  pose proof (intent_matches_iff (question_tokens q) "summary_length" _
                (or_intror (or_intror (or_intror (or_intror (or_introl eq_refl)))))) as M5.
  unfold detect_intent. fold (question_tokens q). unfold patterns. cbn [first_intent].
  revert M1 M2 M3 M4 M5.
  generalize (intent_matches (question_tokens q)). intros matches.
  do 5 (match goal with |- context [existsb ?f ?l] => generalize (existsb f l) end; intros ?b).
  intros M1 M2 M3 M4 M5.
  destruct b, b0, b1, b2, b3; simpl.
  all: repeat match goal with
         | M : _ <-> true = true |- _ => apply proj2 in M; specialize (M eq_refl)
         | M : ?A <-> false = true |- _ =>
             assert (~ A) by (intros HH; apply M in HH; discriminate HH); clear M
         end.
  all: split; [tauto|].
  all: split;
    [intros before i after Hd; unfold intents in Hd; split_priority Hd;
     (split;
      [intros E;
       first [discriminate E
             |split; [assumption|];
              intros j Hj; simpl in Hj; intuition (subst; tauto)]
      |intros [Hm Hn];
       first [reflexivity
             |exfalso;
              first [contradiction
                    |match goal with
                     | Hx : _ ?x |- _ => apply (Hn x); [simpl; tauto|exact Hx]
                     end]]])
    |unfold intents; split;
     [intros E;
      first [discriminate E
            |intros i Hi; simpl in Hi; intuition (subst; tauto)]
     |intros Hn;
      first [reflexivity
            |exfalso;
             match goal with
             | Hx : _ ?x |- _ => apply (Hn x); [simpl; tauto|exact Hx]
             end]]].
Qed.

Lemma make_it_shorter_intent : detect_intent "make it shorter" = "make_shorter".
Proof. vm_compute. reflexivity. Qed.

Section ChatbotFacts.
Variable sent_tokenize : string -> list string.
Variable word_tokenize : string -> list string.
Variable STOP_WORDS : list string.
Variable float_of_str : string -> option float.

Local Abbreviation chat :=
  (chat_with_summary sent_tokenize word_tokenize STOP_WORDS float_of_str).

(** C8. With an empty or white-space-only summary, the answer is the
    "no summary yet" message, whatever the question is, the empty
    question included. *)
Theorem blank_summary_answer question summary :
  all_chars isspace summary = true ->
  chat question summary = no_summary_message.
Proof.
  intros H. apply is_blank_iff in H.
  unfold chat_with_summary. rewrite H. reflexivity.
Qed.

(** C9. For a summary of more than one sentence, the answer to "make it
    shorter" has no more sentences than the summary, both counted by
    [sent_tokenize]: the answer is the header followed by the single-space
    join of some of the sentences of the cleaned summary.  Of the sentence
    tokenizer it is asked that the empty text has no sentence, that the
    cleaned summary has as many sentences as the summary and none of them
    empty, and that the header followed by some of these sentences, joined
    by single spaces, has no more sentences than were joined. *)
Theorem make_it_shorter_never_grows summary :
  sent_tokenize "" = [] ->
  (forall s, In s (sent_tokenize (_clean_text summary)) -> s <> "") ->
  length (sent_tokenize (_clean_text summary)) = length (sent_tokenize summary) ->
  (forall sel,
      sel <> [] -> sublist sel (sent_tokenize (_clean_text summary)) ->
      length (sent_tokenize (shorter_header ++ py_join " " sel)) <= length sel) ->
  2 <= length (sent_tokenize summary) ->
  length (sent_tokenize (chat "make it shorter" summary)) <= length (sent_tokenize summary)
  /\ exists sel,
       chat "make it shorter" summary = (shorter_header ++ py_join " " sel)%string
       /\ sel <> []
       /\ sublist sel (sent_tokenize (_clean_text summary)).
Proof.
  intros H0 Hne Hc Hj Hl.
  assert (Hb : is_blank summary = false).
  { destruct (is_blank summary) eqn:B; [|reflexivity]. exfalso.
    apply is_blank_iff, clean_text_empty_iff in B. rewrite B, H0 in Hc.
    cbn [length] in Hc. lia. }
  destruct (summarize_text_float sent_tokenize word_tokenize STOP_WORDS float_of_str
              summary f0_5) as (n & _ & Hn & E).
  rewrite Hb in E.
  destruct (Nat.leb_spec (length (sent_tokenize (_clean_text summary))) 1) as [|_];
    [lia|].
  set (sel := selection word_tokenize STOP_WORDS (_clean_text summary)
                (sent_tokenize (_clean_text summary)) n) in *.
  assert (Hsub : sublist sel (sent_tokenize (_clean_text summary)))
    by apply selection_sublist.
  assert (Hsel : sel <> []).
  { apply selection_nonempty; [exact Hn|].
    destruct (sent_tokenize (_clean_text summary)); [cbn [length] in Hc; lia|discriminate]. }
  assert (Hjoin : py_join " " sel <> "").
  { apply py_join_nonempty; [exact Hsel|].
    intros s Hs. eapply Hne, sublist_In; [exact Hsub|exact Hs]. }
  assert (A : chat "make it shorter" summary = (shorter_header ++ py_join " " sel)%string).
  { unfold chat_with_summary. rewrite Hb.
    change (is_blank "make it shorter") with false. cbv iota.
    rewrite make_it_shorter_intent.
    unfold respond. change ("make_shorter" =? "what_about")%string with false.
    change ("make_shorter" =? "key_points")%string with false.
    change ("make_shorter" =? "make_shorter")%string with true. cbv iota.
    unfold make_shorter. rewrite E. simpl bind.
    destruct (py_join " " sel); [congruence|reflexivity]. }
  split; [|exists sel; auto].
  rewrite A. etransitivity; [apply (Hj sel Hsel Hsub)|].
  rewrite <- Hc. apply sublist_length, Hsub.
Qed.
End ChatbotFacts.

(** ** The stand-in tokenizer has the properties assumed of Punkt *)

Lemma concat_empty_cons w ws :
  String.concat "" (w :: ws) = (w ++ String.concat "" ws)%string.
Proof. destruct ws; simpl; [rewrite append_nil_r|]; reflexivity. Qed.

Lemma sent_split_concat s :
  s = (fst (Standin.sent_split s) ++ String.concat "" (snd (Standin.sent_split s)))%string.
Proof.
  induction s as [|c s IH]; [reflexivity|].
  cbn [Standin.sent_split]. destruct (Standin.sent_split s) as [w ws]. cbn [fst snd] in IH.
  destruct (Standin.is_terminator c && Standin.at_boundary s); cbn [fst snd].
  - rewrite concat_empty_cons, <- IH. reflexivity.
  - cbn [append]. rewrite <- IH. reflexivity.
Qed.

Lemma in_concat_infix x l : In x l -> str_infix x (String.concat "" l).
Proof.
  induction l as [|y l IH]; [contradiction|].
  rewrite concat_empty_cons. intros [->|H].
  - exists "", (String.concat "" l). reflexivity.
  - destruct (IH H) as (a & b & E). exists (y ++ a)%string, b.
    rewrite E, append_assoc. reflexivity.
Qed.

Lemma lstrip_suffix s : exists a, s = (a ++ lstrip s)%string.
Proof.
  induction s as [|c s [a IH]]; [exists ""; reflexivity|].
  simpl. destruct (isspace c).
  - exists (String c a). simpl. rewrite <- IH. reflexivity.
  - exists "". reflexivity.
Qed.

Lemma rstrip_prefix s : exists b, s = (rstrip s ++ b)%string.
Proof.
  induction s as [|c s [b IH]]; [exists ""; reflexivity|].
  simpl. destruct (rstrip s) eqn:R.
  - destruct (isspace c).
    + exists (String c s). reflexivity.
    + exists b. simpl. rewrite IH at 1. reflexivity.
  - exists b. simpl. rewrite IH at 1. reflexivity.
Qed.

Lemma py_strip_infix s : str_infix (py_strip s) s.
Proof.
  unfold py_strip. destruct (lstrip_suffix s) as [a Ha].
  destruct (rstrip_prefix (lstrip s)) as [b Hb].
  exists a, b. rewrite <- Hb. exact Ha.
Qed.

Lemma str_infix_trans a b c : str_infix a b -> str_infix b c -> str_infix a c.
Proof.
  intros (x & y & ->) (u & v & ->).
  exists (u ++ x)%string, (y ++ v)%string.
  rewrite !append_assoc. reflexivity.
Qed.

Lemma standin_sentence text s :
  In s (Standin.sent_tokenize text) ->
  s <> "" /\ exists piece, s = py_strip piece /\ str_infix piece text.
Proof.
  unfold Standin.sent_tokenize.
  pose proof (sent_split_concat text) as E.
  destruct (Standin.sent_split text) as [w ws]. simpl in E.
  rewrite filter_In, in_map_iff. intros [(piece & <- & Hp) Hn].
  split; [destruct (py_strip piece); [discriminate|discriminate]|].
  exists piece. split; [reflexivity|].
  rewrite E, <- concat_empty_cons. apply in_concat_infix, Hp.
Qed.

Lemma standin_nonempty text s : In s (Standin.sent_tokenize text) -> s <> "".
Proof. intros H. apply standin_sentence in H. tauto. Qed.

Lemma standin_infix text s : In s (Standin.sent_tokenize text) -> str_infix s text.
Proof.
  intros H. apply standin_sentence in H as (_ & piece & -> & Hp).
  eapply str_infix_trans; [apply py_strip_infix|exact Hp].
Qed.

Lemma standin_trimmed text s :
  In s (Standin.sent_tokenize text) -> starts_ws s = false /\ ends_ws s = false.
Proof.
  intros H. apply standin_sentence in H as (_ & piece & -> & _).
  unfold py_strip. split; [apply starts_ws_rstrip, starts_ws_lstrip|apply ends_ws_rstrip].
Qed.

Lemma standin_slices text s :
  In s (Standin.sent_tokenize text) ->
  s <> "" /\ str_infix s text /\ starts_ws s = false /\ ends_ws s = false.
Proof.
  intros H. split; [apply (standin_nonempty _ _ H)|].
  split; [apply (standin_infix _ _ H)|apply (standin_trimmed _ _ H)].
Qed.

(** ** The statements on concrete texts *)

Lemma summary_is_the_candidates_witness :
  (word_counts Standin.STOP_WORDS
     (Standin.word_tokenize (py_lower (_clean_text Standin.cats_text))) <> []
   /\ distinct (List.filter (scorable Standin.word_tokenize)
                  (Standin.sent_tokenize (_clean_text Standin.cats_text))) <> []
   /\ forall s,
        In s (top_sentences
                (sentence_scores Standin.word_tokenize
                   (normalize
                      (word_counts Standin.STOP_WORDS
                         (Standin.word_tokenize (py_lower (_clean_text Standin.cats_text)))))
                   (Standin.sent_tokenize (_clean_text Standin.cats_text))) 1) ->
        occurrences s (Standin.sent_tokenize (_clean_text Standin.cats_text)) = 1)
  /\ exists sel,
    Standin.summarize Standin.cats_text (PyFloat 0.25) = Returns (py_join " " sel)
    /\ sublist sel (Standin.sent_tokenize (_clean_text Standin.cats_text))
    /\ (word_counts Standin.STOP_WORDS
          (Standin.word_tokenize (py_lower (_clean_text Standin.cats_text))) = []
        \/ distinct (List.filter (scorable Standin.word_tokenize)
                       (Standin.sent_tokenize (_clean_text Standin.cats_text))) = []
        -> sel = firstn 1 (Standin.sent_tokenize (_clean_text Standin.cats_text)))
    /\ (word_counts Standin.STOP_WORDS
          (Standin.word_tokenize (py_lower (_clean_text Standin.cats_text))) <> [] ->
        distinct (List.filter (scorable Standin.word_tokenize)
                    (Standin.sent_tokenize (_clean_text Standin.cats_text))) <> [] ->
        (forall s,
            In s (top_sentences
                    (sentence_scores Standin.word_tokenize
                       (normalize
                          (word_counts Standin.STOP_WORDS
                             (Standin.word_tokenize (py_lower (_clean_text Standin.cats_text)))))
                       (Standin.sent_tokenize (_clean_text Standin.cats_text))) 1) ->
            occurrences s (Standin.sent_tokenize (_clean_text Standin.cats_text)) = 1) ->
        Permutation sel
          (top_sentences
             (sentence_scores Standin.word_tokenize
                (normalize
                   (word_counts Standin.STOP_WORDS
                      (Standin.word_tokenize (py_lower (_clean_text Standin.cats_text)))))
                (Standin.sent_tokenize (_clean_text Standin.cats_text))) 1)
        /\ length sel
           = Nat.min 1
               (length (distinct (List.filter (scorable Standin.word_tokenize)
                                    (Standin.sent_tokenize (_clean_text Standin.cats_text)))))
        /\ (length (distinct (List.filter (scorable Standin.word_tokenize)
                                (Standin.sent_tokenize (_clean_text Standin.cats_text)))) <= 1 ->
            forall s, In s sel <->
                      In s (Standin.sent_tokenize (_clean_text Standin.cats_text))
                      /\ scorable Standin.word_tokenize s = true)).
Proof.
  split.
  - split; [vm_compute; discriminate|]. split; [vm_compute; discriminate|].
    intros s Hs. vm_compute in Hs. destruct Hs as [<-|[]]. vm_compute. reflexivity.
  - apply (summary_is_the_candidates Standin.sent_tokenize Standin.word_tokenize
             Standin.STOP_WORDS Standin.float_of_str Standin.cats_text 0.25 1).
    + vm_compute. reflexivity.
    + vm_compute. lia.
    + vm_compute. reflexivity.
Defined.

(** C1 fails on a text with sentences that cannot be scored: of its four
    sentences two have no alphanumeric token, N is 3 at ratio 0.9, and the
    summary is made of the two other sentences. *)
Lemma exact_count_fails_without_alphanumeric_tokens :
  ~ selects_exactly_n Standin.sent_tokenize Standin.word_tokenize Standin.STOP_WORDS
      Standin.float_of_str Standin.punctuated_text f0_9.
Proof.
  intros (sel & E & N & Hin).
  assert (L : length sel = 3).
  { vm_compute in N. injection N as N. symmetry. exact N. }
  destruct sel as [|a [|b [|c [|? ?]]]]; try discriminate L.
  assert (S : Standin.summarize Standin.punctuated_text (PyFloat f0_9)
              = Returns "Cats purr. Dogs bark.") by (vm_compute; reflexivity).
  unfold Standin.summarize in S. rewrite S in E. injection E as E.
  pose proof (Hin a (or_introl eq_refl)) as Ha.
  pose proof (Hin b (or_intror (or_introl eq_refl))) as Hb.
  pose proof (Hin c (or_intror (or_intror (or_introl eq_refl)))) as Hc.
  vm_compute in Ha, Hb, Hc.
  repeat (destruct Ha as [<-|Ha]; [|]); try contradiction;
    repeat (destruct Hb as [<-|Hb]; [|]); try contradiction;
    repeat (destruct Hc as [<-|Hc]; [|]); try contradiction;
    vm_compute in E; discriminate E.
Qed.

(** A repeated candidate is kept with all its occurrences: N is 1 and the
    summary holds the best-scored sentence twice. *)
Lemma exact_count_fails_on_repeated_sentence :
  ~ selects_exactly_n Standin.sent_tokenize Standin.word_tokenize Standin.STOP_WORDS
      Standin.float_of_str Standin.repeated_text f0_3.
Proof.
  intros (sel & E & N & Hin).
  assert (L : length sel = 1).
  { vm_compute in N. injection N as N. symmetry. exact N. }
  destruct sel as [|s [|? ?]]; try discriminate L.
  rewrite py_join_single in E. vm_compute in E. injection E as <-.
  specialize (Hin _ (or_introl eq_refl)). apply str_in_In in Hin.
  vm_compute in Hin. discriminate Hin.
Qed.

Lemma summarize_text_outcomes_witness :
  PrimFloat.leb f0_1 (clamp_ratio f0_3) = true
  /\ PrimFloat.leb (clamp_ratio f0_3) f0_9 = true
  /\ Standin.summarize Standin.cats_text (PyFloat f0_3)
     = Standin.summarize Standin.cats_text (PyFloat (clamp_ratio f0_3))
  /\ exists out,
       Standin.summarize Standin.cats_text (PyFloat f0_3) = Returns out
       /\ (out = "" <-> is_blank Standin.cats_text = true).
Proof.
  exact (summarize_text_outcomes Standin.sent_tokenize Standin.word_tokenize
           Standin.STOP_WORDS Standin.float_of_str standin_nonempty
           Standin.cats_text (PyFloat f0_3)).
Defined.

(** C2 fails on a ratio that [float] rejects: the call raises instead of
    falling back to 0.3, with which the summary would be the first sentence. *)
Lemma malformed_ratio_raises :
  Standin.summarize Standin.cats_text (PyStr "abc") = Raises ValueError
  /\ Standin.summarize Standin.cats_text PyNone = Raises TypeError
  /\ Standin.summarize Standin.cats_text (PyFloat f0_3) = Returns "Cats are mammals.".
Proof. repeat split; vm_compute; reflexivity. Qed.

Lemma single_sentence_returns_clean_text_witness :
  Standin.summarize Standin.padded_text (PyFloat f0_3)
  = Returns (_clean_text Standin.padded_text)
  /\ (tidy Standin.padded_text = true ->
      Standin.summarize Standin.padded_text (PyFloat f0_3) = Returns Standin.padded_text).
Proof.
  apply (single_sentence_returns_clean_text Standin.sent_tokenize Standin.word_tokenize
           Standin.STOP_WORDS Standin.float_of_str Standin.padded_text f0_3).
  - vm_compute. reflexivity.
  - vm_compute. lia.
Defined.

(** C4 fails on a text with white space to normalise: it has one sentence
    and the summary is not the text. *)
Lemma single_sentence_not_unchanged :
  length (Standin.sent_tokenize Standin.padded_text) = 1
  /\ length (Standin.sent_tokenize (_clean_text Standin.padded_text)) = 1
  /\ Standin.summarize Standin.padded_text (PyFloat f0_3) = Returns "Hello world"
  /\ Standin.summarize Standin.padded_text (PyFloat f0_3) <> Returns Standin.padded_text.
Proof. repeat split; try (vm_compute; reflexivity). vm_compute. discriminate. Qed.

Lemma empty_table_takes_first_sentences_witness :
  exists n,
    select_count (length (Standin.sent_tokenize (_clean_text Standin.stopword_text)))
      (clamp_ratio f0_3) = Returns n
    /\ 1 <= n
    /\ Standin.summarize Standin.stopword_text (PyFloat f0_3)
       = Returns (py_join " "
                    (firstn n (Standin.sent_tokenize (_clean_text Standin.stopword_text)))).
Proof.
  apply (empty_table_takes_first_sentences Standin.sent_tokenize Standin.word_tokenize
           Standin.STOP_WORDS Standin.float_of_str Standin.stopword_text f0_3).
  - vm_compute. reflexivity.
  - vm_compute. lia.
  - vm_compute. reflexivity.
Defined.

(** C6 fails on four sentences of stop words at ratio 0.3: the table is
    empty, ceil(4 * 0.3) is 2, and the summary is the first sentence only. *)
Lemma fallback_rounds_down :
  word_counts Standin.STOP_WORDS
    (Standin.word_tokenize (py_lower (_clean_text Standin.stopword_text))) = []
  /\ length (Standin.sent_tokenize (_clean_text Standin.stopword_text)) = 4
  /\ ceil_count 4 (clamp_ratio f0_3) = Returns 2
  /\ py_join " " (firstn 2 (Standin.sent_tokenize (_clean_text Standin.stopword_text)))
     = "This is it. That was then."
  /\ Standin.summarize Standin.stopword_text (PyFloat f0_3) = Returns "This is it.".
Proof. repeat split; vm_compute; reflexivity. Qed.

Lemma scores_are_mean_normalized_frequencies_witness :
  (forall w,
      dict_get (normalize (word_counts Standin.STOP_WORDS
                             (Standin.word_tokenize (py_lower Standin.cats_text)))) w
      = normalized_frequency (word_counts Standin.STOP_WORDS
                                (Standin.word_tokenize (py_lower Standin.cats_text))) w)
  /\ (forall w f,
         normalized_frequency (word_counts Standin.STOP_WORDS
                                 (Standin.word_tokenize (py_lower Standin.cats_text))) w
         = Some f ->
         PrimFloat.ltb 0 f = true /\ PrimFloat.leb f 1 = true)
  /\ (forall freq s,
         dict_get (sentence_scores Standin.word_tokenize freq
                     (Standin.sent_tokenize Standin.cats_text)) s
         = if str_in s (Standin.sent_tokenize Standin.cats_text)
              && scorable Standin.word_tokenize s
           then Some (mean_frequency Standin.word_tokenize freq s)
           else None)
  /\ (forall freq n s,
         In s (top_sentences (sentence_scores Standin.word_tokenize freq
                                (Standin.sent_tokenize Standin.cats_text)) n) ->
         In s (Standin.sent_tokenize Standin.cats_text)
         /\ scorable Standin.word_tokenize s = true)
  /\ (forall freq n s,
         List.filter
           (fun s => str_in s (top_sentences
                                 (sentence_scores Standin.word_tokenize freq
                                    (Standin.sent_tokenize Standin.cats_text)) n))
           (Standin.sent_tokenize Standin.cats_text) <> [] ->
         In s (pick_top (Standin.sent_tokenize Standin.cats_text)
                 (sentence_scores Standin.word_tokenize freq
                    (Standin.sent_tokenize Standin.cats_text)) n) ->
         scorable Standin.word_tokenize s = true).
Proof.
  apply (scores_are_mean_normalized_frequencies Standin.word_tokenize Standin.STOP_WORDS
           Standin.cats_text (Standin.sent_tokenize Standin.cats_text)).
  vm_compute. reflexivity.
Defined.

Lemma summary_is_one_paragraph_witness :
  (no_newline (_clean_text Standin.cats_text) = true
   /\ no_ws_run (_clean_text Standin.cats_text) = true)
  /\ no_newline "Cats are mammals." = true /\ no_ws_run "Cats are mammals." = true
  /\ ("Cats are mammals." <> "" -> paragraph_count "Cats are mammals." = 1).
Proof.
  apply (summary_is_one_paragraph Standin.sent_tokenize Standin.word_tokenize
           Standin.STOP_WORDS Standin.float_of_str
           Standin.cats_text (PyFloat 0.25)).
  - intros s. apply standin_slices.
  - vm_compute. reflexivity.
Defined.

Lemma blank_summary_answer_witness :
  chat_with_summary Standin.sent_tokenize Standin.word_tokenize Standin.STOP_WORDS
    Standin.float_of_str "" "   " = no_summary_message.
Proof.
  apply (blank_summary_answer Standin.sent_tokenize Standin.word_tokenize
           Standin.STOP_WORDS Standin.float_of_str "" "   ").
  vm_compute. reflexivity.
Defined.

Lemma make_it_shorter_never_grows_witness :
  length (Standin.sent_tokenize
            (chat_with_summary Standin.sent_tokenize Standin.word_tokenize
               Standin.STOP_WORDS Standin.float_of_str "make it shorter" Standin.cats_text))
  <= length (Standin.sent_tokenize Standin.cats_text)
  /\ exists sel,
       chat_with_summary Standin.sent_tokenize Standin.word_tokenize Standin.STOP_WORDS
         Standin.float_of_str "make it shorter" Standin.cats_text
       = (shorter_header ++ py_join " " sel)%string
       /\ sel <> []
       /\ sublist sel (Standin.sent_tokenize (_clean_text Standin.cats_text)).
Proof.
  apply (make_it_shorter_never_grows Standin.sent_tokenize Standin.word_tokenize
           Standin.STOP_WORDS Standin.float_of_str Standin.cats_text).
  - reflexivity.
  - intros s. apply standin_nonempty.
  - vm_compute. reflexivity.
  - intros sel Hne Hs.
    apply (sublists_check
             (fun sel =>
                match sel with
                | [] => true
                | _ => Nat.leb (length (Standin.sent_tokenize
                                          (shorter_header ++ py_join " " sel)))
                         (length sel)
                end)) in Hs; [|vm_compute; reflexivity].
    destruct sel; [contradiction|]. apply Nat.leb_le, Hs.
  - vm_compute. lia.
Defined.

(** * Further properties

    Properties of the code beyond the statements above: of the functions of
    [summarizer.py] and [chatbot.py], and of the routes and helpers of
    [app.py]. *)

(** ** Words and white space *)

Lemma cons_nonempty_Forall (P : string -> Prop) w ws :
  (w <> "" -> P w) -> Forall P ws -> Forall P (cons_nonempty w ws).
Proof.
  intros Hw Hws. destruct w; simpl; [exact Hws|].
  constructor; [apply Hw; discriminate|exact Hws].
Qed.

Lemma split_ws_aux_tokens s :
  all_chars (fun c => negb (isspace c)) (fst (split_ws_aux s)) = true
  /\ Forall is_token (snd (split_ws_aux s)).
Proof.
  induction s as [|c s [IH1 IH2]]; [split; [reflexivity|constructor]|].
  cbn [split_ws_aux]. destruct (split_ws_aux s) as [w ws]. cbn [fst snd] in *.
  destruct (isspace c) eqn:E; cbn [fst snd].
  - split; [reflexivity|]. apply cons_nonempty_Forall; [|exact IH2].
    intros Hw. split; assumption.
  - split; [|exact IH2]. cbn [all_chars]. rewrite E, IH1. reflexivity.
Qed.

Lemma py_split_tokens s : Forall is_token (py_split s).
Proof.
  unfold py_split. pose proof (split_ws_aux_tokens s) as [H1 H2].
  destruct (split_ws_aux s) as [w ws]. cbn [fst snd] in *.
  apply cons_nonempty_Forall; [|exact H2]. intros Hw. split; assumption.
Qed.

Lemma split_ws_aux_chars (p : ascii -> bool) s :
  all_chars p s = true ->
  all_chars p (fst (split_ws_aux s)) = true
  /\ Forall (fun t => all_chars p t = true) (snd (split_ws_aux s)).
Proof.
  induction s as [|c s IH]; [split; [reflexivity|constructor]|].
  cbn [all_chars]. intros H. apply andb_true_iff in H as [Hc H].
  destruct (IH H) as [IH1 IH2]. clear IH.
  cbn [split_ws_aux]. destruct (split_ws_aux s) as [w ws]. cbn [fst snd] in *.
  destruct (isspace c); cbn [fst snd].
  - split; [reflexivity|]. apply cons_nonempty_Forall; [intros _; exact IH1|exact IH2].
  - split; [|exact IH2]. cbn [all_chars]. rewrite Hc, IH1. reflexivity.
Qed.

Lemma py_split_chars (p : ascii -> bool) s :
  all_chars p s = true -> Forall (fun t => all_chars p t = true) (py_split s).
Proof.
  intros H. unfold py_split. destruct (split_ws_aux_chars p s H) as [H1 H2].
  destruct (split_ws_aux s) as [w ws]. cbn [fst snd] in *.
  apply cons_nonempty_Forall; [intros _; exact H1|exact H2].
Qed.

Lemma concat_cons_char sep c w ws :
  String.concat sep (String c w :: ws) = String c (String.concat sep (w :: ws)).
Proof. destruct ws; reflexivity. Qed.

Lemma concat_empty_head ws :
  String.concat " " ("" :: ws)
  = match ws with [] => "" | _ => String space (String.concat " " ws) end.
Proof. destruct ws; reflexivity. Qed.

Lemma concat_tokens_empty l : Forall is_token l -> String.concat " " l = "" -> l = [].
Proof.
  intros H E. destruct l as [|x l]; [reflexivity|]. exfalso.
  revert E. apply (py_join_nonempty " " (x :: l)); [discriminate|].
  intros s Hs. rewrite List.Forall_forall in H. apply (H s Hs).
Qed.

Lemma rstrip_cons_nonspace c s : isspace c = false -> rstrip (String c s) = String c (rstrip s).
Proof. intros E. cbn [rstrip]. destruct (rstrip s); [rewrite E|]; reflexivity. Qed.

Lemma rstrip_cons_space c s :
  isspace c = true ->
  rstrip (String c s) = match rstrip s with "" => "" | r => String c r end.
Proof. intros E. cbn [rstrip]. destruct (rstrip s); [rewrite E|]; reflexivity. Qed.

Lemma collapse_split s :
  rstrip (collapse_ws true s) = String.concat " " (py_split s)
  /\ rstrip (collapse_ws false s)
     = String.concat " " (fst (split_ws_aux s) :: snd (split_ws_aux s)).
Proof.
  induction s as [|c s [IH1 IH2]]; [split; reflexivity|].
  pose proof (py_split_tokens s) as T.
  unfold py_split in *. cbn [collapse_ws split_ws_aux].
  destruct (split_ws_aux s) as [w ws]. cbn [fst snd] in *.
  destruct (isspace c) eqn:E; cbn [fst snd].
  - split; [destruct w; exact IH1|].
    rewrite rstrip_cons_space by reflexivity. rewrite IH1, concat_empty_head.
    destruct (cons_nonempty w ws) as [|x l] eqn:El; [reflexivity|].
    destruct (String.concat " " (x :: l)) eqn:Ec; [|reflexivity].
    apply concat_tokens_empty in Ec; [discriminate|exact T].
  - rewrite rstrip_cons_nonspace by exact E.
    rewrite IH2. cbn [cons_nonempty]. rewrite concat_cons_char. split; reflexivity.
Qed.

Lemma lstrip_collapse s : lstrip (collapse_ws false s) = collapse_ws true s.
Proof.
  destruct s as [|c s]; [reflexivity|]. cbn [collapse_ws].
  destruct (isspace c) eqn:E.
  - cbn [lstrip]. rewrite isspace_space. apply lstrip_fixed.
    apply (collapse_single_spaced true s). reflexivity.
  - cbn [lstrip]. rewrite E. reflexivity.
Qed.

Lemma clean_text_split s : _clean_text s = py_join " " (py_split s).
Proof.
  unfold _clean_text, py_strip, py_join. rewrite lstrip_collapse. apply collapse_split.
Qed.

Lemma split_ws_aux_token t :
  all_chars (fun c => negb (isspace c)) t = true -> split_ws_aux t = (t, []).
Proof.
  induction t as [|c t IH]; [reflexivity|]. cbn [all_chars]. intros H.
  apply andb_true_iff in H as [Hc H]. cbn [split_ws_aux]. rewrite (IH H).
  apply negb_true_iff in Hc. rewrite Hc. reflexivity.
Qed.

Lemma split_ws_aux_app t r :
  all_chars (fun c => negb (isspace c)) t = true ->
  split_ws_aux (t ++ String space r)%string = (t, py_split r).
Proof.
  induction t as [|c t IH]; cbn [all_chars append]; intros H.
  - cbn [split_ws_aux]. unfold py_split. destruct (split_ws_aux r) as [w ws].
    rewrite isspace_space. reflexivity.
  - apply andb_true_iff in H as [Hc H]. cbn [split_ws_aux]. rewrite (IH H).
    apply negb_true_iff in Hc. rewrite Hc. reflexivity.
Qed.

Lemma py_split_join l : Forall is_token l -> py_split (py_join " " l) = l.
Proof.
  unfold py_join. induction 1 as [|t l [Hne Ht] Hl IH]; [reflexivity|].
  destruct l as [|u l].
  - cbn [String.concat]. unfold py_split. rewrite (split_ws_aux_token t Ht).
    destruct t; [contradiction|reflexivity].
  - change (String.concat " " (t :: u :: l))
      with (t ++ String space (String.concat " " (u :: l)))%string.
    unfold py_split at 1. rewrite (split_ws_aux_app t _ Ht), IH.
    destruct t; [contradiction|reflexivity].
Qed.

Lemma clean_text_idem s : _clean_text (_clean_text s) = _clean_text s.
Proof. apply clean_text_fixed, clean_text_tidy. Qed.

(** X1. [_clean_text] is [" ".join(text.split())]: it returns the words of
    the text joined by single blanks, and the words of what it returns are
    the words of the text. *)
Theorem clean_text_joins_words s :
  _clean_text s = py_join " " (py_split s)
  /\ py_split (_clean_text s) = py_split s.
Proof.
  split; [apply clean_text_split|].
  rewrite clean_text_split. apply py_split_join, py_split_tokens.
Qed.

(** ** Counting *)

Section CountingFacts.
Variable ok : string -> bool.
Variable step : dict nat -> string -> dict nat.
Hypothesis step_eq :
  forall freq w,
    step freq w = if ok w then dict_set w (default 0 (dict_get freq w) + 1) freq else freq.

Lemma count_fold_get words (d : dict nat) w :
  dict_get (fold_left step words d) w
  = if ok w && Nat.ltb 0 (occurrences w words)
    then Some (default 0 (dict_get d w) + occurrences w words)
    else dict_get d w.
Proof.
  revert d. induction words as [|x words IH]; intros d.
  - simpl. rewrite andb_false_r. reflexivity.
  - cbn [fold_left]. rewrite IH, step_eq. unfold occurrences. cbn [List.filter].
    destruct (String.eqb_spec w x) as [<-|Hne].
    + destruct (ok w) eqn:Ok; cbn [andb length].
      * rewrite dict_get_set, String.eqb_refl. cbn [default].
        set (n := length (List.filter (String.eqb w) words)).
        change (Nat.ltb 0 (S n)) with true. unfold id. cbv iota.
        destruct (Nat.ltb_spec 0 n); f_equal; lia.
      * reflexivity.
    + destruct (ok x); [|reflexivity].
      rewrite dict_get_set. destruct (String.eqb_spec w x); [contradiction|]. reflexivity.
Qed.

Lemma count_fold_keys_NoDup words (d : dict nat) :
  NoDup (dict_keys d) -> NoDup (dict_keys (fold_left step words d)).
Proof.
  revert d. induction words as [|x words IH]; intros d H; [exact H|].
  cbn [fold_left]. apply IH. rewrite step_eq.
  destruct (ok x); [apply dict_keys_set_NoDup, H|exact H].
Qed.
End CountingFacts.

(** ** The summarizer on a cleaned text, and its frequency table *)

Section SummarizerExtras.
Variable sent_tokenize : string -> list string.
Variable word_tokenize : string -> list string.
Variable STOP_WORDS : list string.
Variable float_of_str : string -> option float.

Lemma is_blank_clean text : is_blank (_clean_text text) = is_blank text.
Proof.
  apply eq_true_iff_eq. rewrite !is_blank_iff.
  rewrite <- (clean_text_empty_iff (_clean_text text)), clean_text_idem.
  apply clean_text_empty_iff.
Qed.

(** X2. Cleaning a cleaned text changes nothing, and [summarize_text]
    returns or raises the same on a text and on the cleaned text, for every
    ratio. *)
Theorem summarize_text_of_clean_text text ratio :
  _clean_text (_clean_text text) = _clean_text text
  /\ summarize_text sent_tokenize word_tokenize STOP_WORDS float_of_str
       (_clean_text text) ratio
     = summarize_text sent_tokenize word_tokenize STOP_WORDS float_of_str text ratio.
Proof.
  split; [apply clean_text_idem|].
  unfold summarize_text. rewrite is_blank_clean, clean_text_idem. reflexivity.
Qed.

(** X3. The frequency table maps a word to the number of times it occurs
    among the tokens, if it is alphanumeric, no stop word and occurs at
    all; it has no entry for any other word. *)
Theorem word_counts_get words w :
  dict_get (word_counts STOP_WORDS words) w
  = if py_isalnum w && negb (str_in w STOP_WORDS) && Nat.ltb 0 (occurrences w words)
    then Some (occurrences w words)
    else None.
Proof.
  unfold word_counts.
  rewrite (count_fold_get (fun w => py_isalnum w && negb (str_in w STOP_WORDS))
             (count_word STOP_WORDS)); [reflexivity|].
  intros freq x. reflexivity.
Qed.
End SummarizerExtras.

(** ** Sorted lists *)

Section SortedFacts.
Context {A K : Type} (ltb : K -> K -> bool) (P : K -> Prop).
Hypothesis ltb_asym : forall a b, P a -> P b -> ltb a b = true -> ltb b a = false.
Hypothesis ltb_trans :
  forall a b c, P a -> P b -> P c -> ltb a b = false -> ltb b c = false -> ltb a c = false.

Lemma insert_desc_sorted (x : A * K) l :
  P (snd x) -> List.Forall (fun y => P (snd y)) l ->
  StronglySorted (not_below ltb) l -> StronglySorted (not_below ltb) (insert_desc ltb x l).
Proof.
  intros Px Pl S. induction S as [|y l S IH F]; cbn [insert_desc].
  - repeat constructor.
  - apply List.Forall_cons_iff in Pl as [Py Pl].
    destruct (ltb (snd x) (snd y)) eqn:E.
    + constructor; [apply IH, Pl|].
      eapply Permutation_Forall; [symmetry; apply insert_desc_perm|].
      constructor; [apply ltb_asym; assumption|exact F].
    + constructor; [constructor; assumption|].
      constructor; [exact E|].
      rewrite List.Forall_forall in F, Pl |- *. intros z Hz.
      apply (ltb_trans _ (snd y)); auto. apply F, Hz.
Qed.

Lemma sort_desc_sorted (l : list (A * K)) :
  List.Forall (fun y => P (snd y)) l -> StronglySorted (not_below ltb) (sort_desc ltb l).
Proof.
  induction 1 as [|x l Px Pl IH]; cbn [sort_desc fold_right]; [constructor|].
  apply insert_desc_sorted; [exact Px| |exact IH].
  eapply Permutation_Forall; [symmetry; apply sort_desc_perm|exact Pl].
Qed.

Lemma sorted_firstn_skipn (l : list (A * K)) n x y :
  StronglySorted (not_below ltb) l -> In x (firstn n l) -> In y (skipn n l) -> not_below ltb x y.
Proof.
  intros S. revert n. induction S as [|z l S IH F]; intros n Hx Hy.
  - destruct n; contradiction.
  - destruct n as [|n]; [contradiction|]. cbn [firstn skipn] in Hx, Hy.
    destruct Hx as [->|Hx]; [|eapply IH; eassumption].
    rewrite List.Forall_forall in F. apply F.
    rewrite <- (firstn_skipn n l). apply in_or_app. right. exact Hy.
Qed.
End SortedFacts.

Lemma dict_get_of_In {V} (d : dict V) k v :
  NoDup (dict_keys d) -> In (k, v) d -> dict_get d k = Some v.
Proof.
  induction d as [|[k' v'] d IH]; [contradiction|].
  cbn [dict_keys map fst dict_get]. intros N H. apply NoDup_cons in N as [N1 N2].
  destruct H as [H|H].
  - injection H as -> ->. rewrite String.eqb_refl. reflexivity.
  - destruct (String.eqb_spec k k') as [->|_]; [|apply IH; assumption].
    exfalso. apply N1. apply list_elem_of_In. apply (in_map fst) in H. exact H.
Qed.

Lemma dict_get_pair {V} (d : dict V) k v : dict_get d k = Some v -> In (k, v) d.
Proof.
  induction d as [|[k' v'] d IH]; [discriminate|]. cbn [dict_get].
  destruct (String.eqb_spec k k') as [->|_].
  - intros [= ->]. left. reflexivity.
  - intros H. right. apply IH, H.
Qed.

Lemma firstn_In {A} n (l : list A) x : In x (firstn n l) -> In x l.
Proof. apply sublist_In, sublist_take. Qed.

Lemma StronglySorted_firstn {A} (R : A -> A -> Prop) n l :
  StronglySorted R l -> StronglySorted R (firstn n l).
Proof.
  intros S. revert n. induction S as [|x l S IH F]; intros [|n]; cbn [firstn];
    try constructor; [apply IH|].
  rewrite List.Forall_forall in F |- *. intros y Hy. apply F.
  rewrite <- (firstn_skipn n l). apply in_or_app. left. exact Hy.
Qed.

Lemma StronglySorted_map {A B} (R : A -> A -> Prop) (R' : B -> B -> Prop) (f : A -> B) l :
  (forall x y, In x l -> In y l -> R x y -> R' (f x) (f y)) ->
  StronglySorted R l -> StronglySorted R' (map f l).
Proof.
  intros H S. induction S as [|x l S IH F]; cbn [map]; constructor.
  - apply IH. intros a b Ha Hb. apply H; right; assumption.
  - rewrite List.Forall_forall in F |- *. intros y Hy.
    apply in_map_iff in Hy as (z & <- & Hz). apply H; [left; reflexivity|right; exact Hz|].
    apply F, Hz.
Qed.

Lemma nat_ltb_asym a b : True -> True -> Nat.ltb a b = true -> Nat.ltb b a = false.
Proof. intros _ _. rewrite Nat.ltb_lt, Nat.ltb_ge. lia. Qed.

Lemma nat_ltb_trans a b c :
  True -> True -> True -> Nat.ltb a b = false -> Nat.ltb b c = false -> Nat.ltb a c = false.
Proof. intros _ _ _. rewrite !Nat.ltb_ge. lia. Qed.

(** ** Floats: the order of the scores *)

Section NonNegative.
Local Open Scope Z_scope.

Lemma binary_round_aux_nonneg m e l :
  0 <= m -> nonneg (binary_round_aux prec emax false m e l).
Proof.
  intros Hm.
  destruct (binary_round_aux_spec false m e l Hm)
    as (m1 & m2 & m3 & e1 & e3 & E1 & M1 & M2 & _ & E3 & M3 & R).
  assert (H1 : 0 <= m1) by (rewrite M1; apply Z.div_pos; [lia|apply Z.pow_pos_nonneg; lia]).
  assert (H3 : 0 <= m3) by (rewrite M3; apply Z.div_pos; [lia|apply Z.pow_pos_nonneg; lia]).
  rewrite R. destruct m3 as [|p|p]; [exact I| |lia].
  destruct (e3 <=? 971); reflexivity.
Qed.

Lemma binary_round_nonneg p e : nonneg (binary_round prec emax false p e).
Proof. rewrite binary_round_shl. apply binary_round_aux_nonneg. lia. Qed.

Lemma SFadd_nonneg x y : nonneg x -> nonneg y -> nonneg (SFadd prec emax x y).
Proof.
  destruct x as [sx|sx| |sx mx ex], y as [sy|sy| |sy my ey]; cbn [nonneg SFadd];
    intros Hx Hy; subst; try contradiction; try exact I; try reflexivity.
  - destruct sx, sy; exact I.
  - cbn [cond_Zopp]. apply binary_round_nonneg.
Qed.

Lemma SFdiv_nonneg x p e : nonneg x -> nonneg (SFdiv prec emax x (S754_finite false p e)).
Proof.
  destruct x as [sx|sx| |sx mx ex]; cbn [nonneg SFdiv]; intros Hx; subst;
    try contradiction; try exact I; try reflexivity.
  unfold SFdiv_core_binary.
  set (m' := match _ with 0 => Z.pos mx | Z.pos _ => _ | Z.neg _ => 0 end).
  assert (Hm : 0 <= m').
  { unfold m'. destruct (_ - _ - _); try lia. apply Z.shiftl_nonneg. lia. }
  destruct (Z.div_eucl m' (Z.pos p)) as [q r] eqn:E.
  assert (Hq : q = m' / Z.pos p) by (unfold Z.div; rewrite E; reflexivity).
  cbn [xorb]. apply binary_round_aux_nonneg. rewrite Hq. apply Z.div_pos; lia.
Qed.

Lemma nonneg_compare x y :
  nonneg x -> nonneg y -> exists c, SFcompare x y = Some c.
Proof.
  destruct x, y; cbn [nonneg SFcompare]; intros; subst; try contradiction; eauto.
Qed.

Ltac order_cases :=
  repeat match goal with
         | |- context [(?a ?= ?b)%Z] => destruct (Z.compare_spec a b)
         | H : context [(?a ?= ?b)%Z] |- _ => destruct (Z.compare_spec a b)
         | |- context [Pos.compare_cont Eq ?a ?b] =>
             change (Pos.compare_cont Eq a b) with (Pos.compare a b);
             destruct (Pos.compare_spec a b)
         | H : context [Pos.compare_cont Eq ?a ?b] |- _ =>
             change (Pos.compare_cont Eq a b) with (Pos.compare a b) in H;
             destruct (Pos.compare_spec a b)
         end.

Lemma SFltb_trans x y z :
  nonneg x -> nonneg y -> nonneg z ->
  SFltb x y = false -> SFltb y z = false -> SFltb x z = false.
Proof.
  unfold SFltb.
  destruct x as [sx|sx| |sx mx ex], y as [sy|sy| |sy my ey], z as [sz|sz| |sz mz ez];
    cbn [nonneg SFcompare]; intros Hx Hy Hz; subst; try contradiction;
    try reflexivity; try discriminate.
  intros H1 H2. order_cases; subst; try reflexivity; try discriminate; try lia.
Qed.

Lemma SFltb_asym x y : nonneg x -> nonneg y -> SFltb x y = true -> SFltb y x = false.
Proof.
  unfold SFltb.
  destruct x as [sx|sx| |sx mx ex], y as [sy|sy| |sy my ey];
    cbn [nonneg SFcompare]; intros Hx Hy; subst; try contradiction;
    try reflexivity; try discriminate.
  intros H1. order_cases; subst; try reflexivity; try discriminate; try lia.
Qed.

Lemma SFleb_of_not_ltb x y : nonneg x -> nonneg y -> SFltb x y = false -> SFleb y x = true.
Proof.
  unfold SFltb, SFleb.
  destruct x as [sx|sx| |sx mx ex], y as [sy|sy| |sy my ey];
    cbn [nonneg SFcompare]; intros Hx Hy; subst; try contradiction;
    try reflexivity; try discriminate.
  intros H1. order_cases; subst; try reflexivity; try discriminate; try lia.
Qed.
End NonNegative.

Lemma add_nonneg x y : nonneg_float x -> nonneg_float y -> nonneg_float (x + y)%float.
Proof. unfold nonneg_float. rewrite FloatAxioms.add_spec. apply SFadd_nonneg. Qed.

Lemma fold_add_nonneg l a :
  nonneg_float a -> List.Forall nonneg_float l -> nonneg_float (fold_left PrimFloat.add l a).
Proof.
  intros Ha Hl. revert a Ha. induction Hl as [|x l Hx Hl IH]; intros a Ha; [exact Ha|].
  cbn [fold_left]. apply IH, add_nonneg; assumption.
Qed.

Lemma positive_nonneg f : PrimFloat.ltb 0 f = true -> nonneg_float f.
Proof.
  unfold nonneg_float. rewrite FloatAxioms.ltb_spec. change (Prim2SF 0) with (S754_zero false).
  unfold SFltb. destruct (Prim2SF f) as [s|s| |s m e]; cbn [SFcompare nonneg];
    try discriminate; destruct s; try discriminate; reflexivity.
Qed.

Lemma ltb_trans_nonneg a b c :
  nonneg_float a -> nonneg_float b -> nonneg_float c ->
  PrimFloat.ltb a b = false -> PrimFloat.ltb b c = false -> PrimFloat.ltb a c = false.
Proof. rewrite !FloatAxioms.ltb_spec. apply SFltb_trans. Qed.

Lemma ltb_asym_nonneg a b :
  nonneg_float a -> nonneg_float b -> PrimFloat.ltb a b = true -> PrimFloat.ltb b a = false.
Proof. rewrite !FloatAxioms.ltb_spec. apply SFltb_asym. Qed.

Lemma leb_of_not_ltb a b :
  nonneg_float a -> nonneg_float b -> PrimFloat.ltb a b = false -> PrimFloat.leb b a = true.
Proof. rewrite FloatAxioms.ltb_spec, FloatAxioms.leb_spec. apply SFleb_of_not_ltb. Qed.

Section RankingFacts.
Variable word_tokenize : string -> list string.
Variable STOP_WORDS : list string.

Lemma mean_frequency_nonneg (freq : dict float) s :
  (forall w f, dict_get freq w = Some f -> nonneg_float f) ->
  scorable word_tokenize s = true ->
  (Z.of_nat (length (alnum_tokens word_tokenize s)) < 2 ^ 53)%Z ->
  nonneg_float (mean_frequency word_tokenize freq s).
Proof.
  intros Hf Hs Hl. unfold mean_frequency, nonneg_float.
  unfold scorable in Hs. apply Nat.ltb_lt in Hs.
  destruct (float_of_nat_exact (length (alnum_tokens word_tokenize s)))
    as (p & e & E & _); [lia|exact Hl|].
  rewrite FloatAxioms.div_spec, E. apply SFdiv_nonneg.
  apply fold_add_nonneg; [exact I|].
  apply List.Forall_forall. intros f Hin.
  apply list_elem_of_In, list_elem_of_omap in Hin as (w & _ & Hw). apply (Hf w f Hw).
Qed.

Lemma normalize_nonneg words w f :
  (Z.of_nat (length words) < 2 ^ 53)%Z ->
  dict_get (normalize (word_counts STOP_WORDS words)) w = Some f -> nonneg_float f.
Proof.
  intros Hl. rewrite normalize_get. unfold normalized_frequency.
  destruct (dict_get (word_counts STOP_WORDS words) w) as [c|] eqn:E; [|discriminate].
  cbn [option_map]. intros [= <-].
  apply word_counts_bounds in E as [[H1 H2] H3].
  apply positive_nonneg, count_ratio_unit_interval; lia.
Qed.

Lemma scores_nonneg (freq : dict float) sents s f :
  (forall w f, dict_get freq w = Some f -> nonneg_float f) ->
  (forall s, In s sents ->
             (Z.of_nat (length (alnum_tokens word_tokenize s)) < 2 ^ 53)%Z) ->
  dict_get (sentence_scores word_tokenize freq sents) s = Some f -> nonneg_float f.
Proof.
  intros Hf Hl. unfold sentence_scores. rewrite sentence_scores_get.
  destruct (str_in s sents) eqn:Hin; [|discriminate]. cbn [andb].
  destruct (scorable word_tokenize s) eqn:Hs; [|discriminate].
  intros [= <-]. apply mean_frequency_nonneg; [exact Hf|exact Hs|].
  apply Hl, str_in_In, Hin.
Qed.

Lemma top_sentences_best (sc : dict float) n a b fa fb :
  NoDup (dict_keys sc) ->
  (forall s f, dict_get sc s = Some f -> nonneg_float f) ->
  In a (top_sentences sc n) -> ~ In b (top_sentences sc n) ->
  dict_get sc a = Some fa -> dict_get sc b = Some fb ->
  PrimFloat.leb fb fa = true.
Proof.
  intros N Hnn Ha Hb Ea Eb. unfold top_sentences, sorted_desc in *.
  assert (P : List.Forall (fun y => nonneg_float (snd y)) sc).
  { apply List.Forall_forall. intros [s f] H. apply (Hnn s). apply dict_get_of_In; assumption. }
  pose proof (sort_desc_sorted (A := string) PrimFloat.ltb nonneg_float
                ltb_asym_nonneg ltb_trans_nonneg sc P) as S.
  apply in_map_iff in Ha as ([a' va] & <- & Ha). cbn [fst] in Ea.
  assert (va = fa).
  { pose proof (firstn_In _ _ _ Ha) as H.
    apply (Permutation_in _ (sort_desc_perm PrimFloat.ltb sc)) in H.
    apply (dict_get_of_In _ _ _ N) in H. congruence. }
  subst va.
  assert (Hb' : In (b, fb) (sort_desc PrimFloat.ltb sc)).
  { apply (Permutation_in _ (Permutation_sym (sort_desc_perm PrimFloat.ltb sc))).
    apply dict_get_pair, Eb. }
  rewrite <- (firstn_skipn n (sort_desc PrimFloat.ltb sc)) in Hb'.
  apply in_app_or in Hb' as [Hb'|Hb'].
  - exfalso. apply Hb. apply in_map_iff. exists (b, fb). auto.
  - pose proof (sorted_firstn_skipn PrimFloat.ltb _ n _ _ S Ha Hb') as R.
    unfold not_below in R. cbn [snd] in R.
    apply leb_of_not_ltb; [apply (Hnn a' fa Ea)|apply (Hnn b fb Eb)|exact R].
Qed.

(** X4. With fewer than [2^53] tokens in the text and in each sentence,
    no score is a NaN or negative, and the candidates are the best scored
    sentences: no sentence that was scored and is no candidate has a score
    above the score of a candidate. *)
Theorem candidates_are_best_scored text sents n :
  (Z.of_nat (length (word_tokenize (py_lower text))) < 2 ^ 53)%Z ->
  (forall s, In s sents ->
             (Z.of_nat (length (alnum_tokens word_tokenize s)) < 2 ^ 53)%Z) ->
  (forall s f,
      dict_get (sentence_scores word_tokenize
                  (normalize (word_counts STOP_WORDS (word_tokenize (py_lower text))))
                  sents) s = Some f ->
      nonneg_float f)
  /\ (forall a b fa fb,
         In a (top_sentences
                 (sentence_scores word_tokenize
                    (normalize (word_counts STOP_WORDS (word_tokenize (py_lower text))))
                    sents) n) ->
         ~ In b (top_sentences
                   (sentence_scores word_tokenize
                      (normalize (word_counts STOP_WORDS (word_tokenize (py_lower text))))
                      sents) n) ->
         dict_get (sentence_scores word_tokenize
                     (normalize (word_counts STOP_WORDS (word_tokenize (py_lower text))))
                     sents) a = Some fa ->
         dict_get (sentence_scores word_tokenize
                     (normalize (word_counts STOP_WORDS (word_tokenize (py_lower text))))
                     sents) b = Some fb ->
         PrimFloat.leb fb fa = true).
Proof.
  intros Hw Hs.
  assert (N : forall s f,
             dict_get (sentence_scores word_tokenize
                         (normalize (word_counts STOP_WORDS (word_tokenize (py_lower text))))
                         sents) s = Some f ->
             nonneg_float f).
  { intros s f. apply scores_nonneg; [|exact Hs].
    intros w g. apply normalize_nonneg, Hw. }
  split; [exact N|].
  intros a b fa fb. apply top_sentences_best; [|exact N].
  apply sentence_scores_NoDup. constructor.
Qed.
End RankingFacts.

(** ** Keywords *)

Section KeywordFacts.
Variable word_tokenize : string -> list string.
Variable STOP_WORDS : list string.

Local Abbreviation tokens text := (word_tokenize (py_lower text)).
Local Abbreviation table text := (fold_left (count_keyword STOP_WORDS) (tokens text) []).

Lemma keyword_table_get text w :
  dict_get (table text) w
  = if keyword_ok STOP_WORDS w && Nat.ltb 0 (occurrences w (tokens text))
    then Some (occurrences w (tokens text))
    else None.
Proof.
  rewrite (count_fold_get (keyword_ok STOP_WORDS) (count_keyword STOP_WORDS));
    [reflexivity|]. intros freq x. reflexivity.
Qed.

Lemma keyword_table_NoDup text : NoDup (dict_keys (table text)).
Proof.
  apply (count_fold_keys_NoDup (keyword_ok STOP_WORDS) (count_keyword STOP_WORDS)).
  - intros freq x. reflexivity.
  - constructor.
Qed.

Lemma keyword_entry text k v :
  In (k, v) (sort_desc Nat.ltb (table text)) <->
  keyword_ok STOP_WORDS k = true /\ In k (tokens text) /\ v = occurrences k (tokens text).
Proof.
  split.
  - intros H. apply (Permutation_in _ (sort_desc_perm Nat.ltb (table text))) in H.
    apply dict_get_of_In in H; [|apply keyword_table_NoDup].
    rewrite keyword_table_get in H.
    destruct (keyword_ok STOP_WORDS k); [|discriminate].
    destruct (Nat.ltb_spec 0 (occurrences k (tokens text))) as [L|]; [|discriminate].
    injection H as <-. apply occurrences_In in L. auto.
  - intros (Ok & Hin & ->).
    apply (Permutation_in _ (Permutation_sym (sort_desc_perm Nat.ltb (table text)))).
    apply dict_get_pair. rewrite keyword_table_get, Ok.
    apply occurrences_In, Nat.ltb_lt in Hin. rewrite Hin. reflexivity.
Qed.

Lemma keywords_sorted text :
  StronglySorted (not_below Nat.ltb) (sort_desc (A := string) Nat.ltb (table text)).
Proof.
  apply (sort_desc_sorted Nat.ltb (fun _ => True) nat_ltb_asym nat_ltb_trans).
  apply List.Forall_forall. auto.
Qed.

Lemma extract_keywords_In text n k :
  In k (extract_keywords word_tokenize STOP_WORDS text n) ->
  keyword_ok STOP_WORDS k = true /\ In k (tokens text).
Proof.
  unfold extract_keywords. intros H. apply in_map_iff in H as ([k' v] & <- & H).
  apply firstn_In in H.
  apply keyword_entry in H as (H1 & H2 & _). auto.
Qed.

Lemma extract_keywords_NoDup text n :
  NoDup (extract_keywords word_tokenize STOP_WORDS text n).
Proof.
  unfold extract_keywords. rewrite <- firstn_map.
  eapply sublist_NoDup; [|apply sublist_take].
  apply (proj2 (NoDup_Permutation_proper _ _
                  (Permutation_map fst (sort_desc_perm Nat.ltb (table text))))).
  apply keyword_table_NoDup.
Qed.

Lemma extract_keywords_length text n :
  length (extract_keywords word_tokenize STOP_WORDS text n) <= n.
Proof. unfold extract_keywords. rewrite length_map, length_firstn. lia. Qed.

(** X5. The keywords are pairwise distinct tokens of the lowered text, at
    most [top_n] of them, each alphanumeric, longer than two characters
    and no stop word. *)
Theorem extract_keywords_eligible text top_n :
  length (extract_keywords word_tokenize STOP_WORDS text top_n) <= top_n
  /\ NoDup (extract_keywords word_tokenize STOP_WORDS text top_n)
  /\ List.Forall
       (fun k => In k (word_tokenize (py_lower text))
                 /\ py_isalnum k = true /\ ~ In k STOP_WORDS /\ 2 < String.length k)
       (extract_keywords word_tokenize STOP_WORDS text top_n).
Proof.
  split; [apply extract_keywords_length|]. split; [apply extract_keywords_NoDup|].
  apply List.Forall_forall. intros k H. apply extract_keywords_In in H as [Ok Hin].
  unfold keyword_ok in Ok. apply andb_true_iff in Ok as [Ok L].
  apply andb_true_iff in Ok as [Ok S]. apply Nat.ltb_lt in L.
  repeat split; try assumption.
  intros HS. apply str_in_In in HS. rewrite HS in S. discriminate S.
Qed.

(** X6. The keywords come most frequent first, and no word that is counted
    and left out occurs more often in the lowered text than a keyword. *)
Theorem extract_keywords_ranked text top_n :
  StronglySorted
    (fun a b => occurrences b (word_tokenize (py_lower text))
                <= occurrences a (word_tokenize (py_lower text)))
    (extract_keywords word_tokenize STOP_WORDS text top_n)
  /\ (forall a b,
         In a (extract_keywords word_tokenize STOP_WORDS text top_n) ->
         In b (word_tokenize (py_lower text)) ->
         keyword_ok STOP_WORDS b = true ->
         ~ In b (extract_keywords word_tokenize STOP_WORDS text top_n) ->
         occurrences b (word_tokenize (py_lower text))
         <= occurrences a (word_tokenize (py_lower text))).
Proof.
  pose proof (keywords_sorted text) as S. unfold extract_keywords. split.
  - apply (StronglySorted_map (not_below Nat.ltb)); [|apply StronglySorted_firstn, S].
    intros [a va] [b vb] Ha Hb R. apply firstn_In in Ha, Hb.
    apply keyword_entry in Ha as (_ & _ & ->). apply keyword_entry in Hb as (_ & _ & ->).
    unfold not_below in R. cbn [snd fst] in *. apply Nat.ltb_ge in R. exact R.
  - intros a b Ha Hb Ok Hn.
    apply in_map_iff in Ha as ([a' va] & <- & Ha). cbn [fst].
    assert (Hb' : In (b, occurrences b (tokens text)) (sort_desc Nat.ltb (table text)))
      by (apply keyword_entry; auto).
    rewrite <- (firstn_skipn top_n (sort_desc Nat.ltb (table text))) in Hb'.
    apply in_app_or in Hb' as [Hb'|Hb'].
    + exfalso. apply Hn. apply in_map_iff. exists (b, occurrences b (tokens text)). auto.
    + pose proof (sorted_firstn_skipn Nat.ltb _ top_n _ _ S Ha Hb') as R.
      apply firstn_In, keyword_entry in Ha as (_ & _ & ->).
      unfold not_below in R. cbn [snd] in R. apply Nat.ltb_ge in R. exact R.
Qed.
End KeywordFacts.

(** ** Questions and intents *)

Lemma lower_char_idem c : is_lower_char (lower_char c) = true.
Proof. destruct c as [[] [] [] [] [] [] [] []]; vm_compute; reflexivity. Qed.

Lemma py_lower_lowered s : all_chars is_lower_char (py_lower s) = true.
Proof.
  induction s as [|c s IH]; [reflexivity|]. cbn [py_lower all_chars].
  rewrite lower_char_idem, IH. reflexivity.
Qed.

Lemma py_lower_fixed s : all_chars is_lower_char s = true -> py_lower s = s.
Proof.
  induction s as [|c s IH]; [reflexivity|]. cbn [all_chars py_lower]. intros H.
  apply andb_true_iff in H as [Hc H]. apply Ascii.eqb_eq in Hc.
  rewrite Hc, (IH H). reflexivity.
Qed.

Lemma all_chars_lstrip p s : all_chars p s = true -> all_chars p (lstrip s) = true.
Proof.
  induction s as [|c s IH]; [reflexivity|]. intros H. cbn [lstrip].
  destruct (isspace c); [|exact H]. cbn [all_chars] in H.
  apply andb_true_iff in H as [_ H]. apply IH, H.
Qed.

Lemma all_chars_rstrip p s : all_chars p s = true -> all_chars p (rstrip s) = true.
Proof.
  induction s as [|c s IH]; [reflexivity|]. cbn [all_chars]. intros H.
  apply andb_true_iff in H as [Hc H]. specialize (IH H). cbn [rstrip].
  destruct (rstrip s) eqn:E.
  - destruct (isspace c); [reflexivity|]. cbn [all_chars]. rewrite Hc. reflexivity.
  - cbn [all_chars] in *. rewrite Hc. exact IH.
Qed.

Lemma all_chars_filter p keep s :
  all_chars p s = true -> all_chars (fun c => keep c && p c) (filter_chars keep s) = true.
Proof.
  induction s as [|c s IH]; [reflexivity|]. cbn [all_chars filter_chars]. intros H.
  apply andb_true_iff in H as [Hc H]. specialize (IH H).
  destruct (keep c) eqn:K; [|exact IH]. cbn [all_chars]. rewrite K, Hc. exact IH.
Qed.

Lemma all_chars_and p q s :
  all_chars p s = true -> all_chars q s = true -> all_chars (fun c => p c && q c) s = true.
Proof.
  induction s as [|c s IH]; [reflexivity|]. cbn [all_chars]. intros H1 H2.
  apply andb_true_iff in H1 as [-> H1]. apply andb_true_iff in H2 as [-> H2].
  apply IH; assumption.
Qed.

Lemma all_chars_impl (p q : ascii -> bool) s :
  (forall c, p c = true -> q c = true) -> all_chars p s = true -> all_chars q s = true.
Proof.
  intros Hpq. induction s as [|c s IH]; [reflexivity|]. cbn [all_chars]. intros H.
  apply andb_true_iff in H as [Hc H]. rewrite (Hpq c Hc), (IH H). reflexivity.
Qed.

(** X7. The tokens that [detect_intent] matches the patterns against are
    not empty and made of word characters that [str.lower] leaves as they
    are: no token holds punctuation, white space or an upper-case letter. *)
Theorem question_tokens_are_lower_case_words q :
  List.Forall
    (fun t => t <> "" /\ all_chars isword_char t = true /\ py_lower t = t)
    (question_tokens q).
Proof.
  unfold question_tokens, normalize_text.
  set (keep := fun c => isword_char c || isspace c).
  assert (H : all_chars (fun c => keep c && is_lower_char c)
                (filter_chars keep (py_strip (py_lower q))) = true).
  { apply all_chars_filter. unfold py_strip.
    apply all_chars_rstrip, all_chars_lstrip, py_lower_lowered. }
  apply py_split_chars in H.
  pose proof (py_split_tokens (filter_chars keep (py_strip (py_lower q)))) as T.
  rewrite List.Forall_forall in H, T |- *. intros t Ht.
  specialize (H t Ht). destruct (T t Ht) as [Hne Hns].
  split; [exact Hne|]. split.
  - pose proof (all_chars_and _ _ _ H Hns) as A. revert A. apply all_chars_impl.
    intros c. unfold keep. destruct (isword_char c), (isspace c); simpl;
      rewrite ?andb_false_r; intros; congruence.
  - apply py_lower_fixed. revert H. apply all_chars_impl.
    intros c Hc. apply andb_true_iff in Hc. tauto.
Qed.

Lemma str_in_ext p (l1 l2 : list string) :
  (forall t, In t l1 <-> In t l2) -> str_in p l1 = str_in p l2.
Proof.
  intros H. apply eq_true_iff_eq. rewrite !str_in_In. apply H.
Qed.

Lemma first_intent_ext tokens1 tokens2 table :
  (forall t, In t tokens1 <-> In t tokens2) ->
  first_intent tokens1 table = first_intent tokens2 table.
Proof.
  intros H. induction table as [|[intent pats] table IH]; [reflexivity|].
  cbn [first_intent]. rewrite IH.
  replace (existsb (pattern_matches tokens1) pats)
    with (existsb (pattern_matches tokens2) pats); [reflexivity|].
  apply eq_true_iff_eq. rewrite !any_pattern_iff.
  split; intros (pat & H1 & H2); exists pat; (split; [exact H1|]);
    intros p Hp; apply H, H2, Hp.
Qed.

(** X8. The intent depends on the question only through the set of its
    tokens: two questions with the same tokens, in whatever order and
    number, have the same intent. *)
Theorem detect_intent_word_set q1 q2 :
  (forall t, In t (question_tokens q1) <-> In t (question_tokens q2)) ->
  detect_intent q1 = detect_intent q2.
Proof. intros H. unfold detect_intent. apply first_intent_ext, H. Qed.

(** ** Key points and answers *)

Section ChatbotExtras.
Variable sent_tokenize : string -> list string.
Variable word_tokenize : string -> list string.
Variable STOP_WORDS : list string.
Variable float_of_str : string -> option float.

Local Abbreviation chat :=
  (chat_with_summary sent_tokenize word_tokenize STOP_WORDS float_of_str).
Local Abbreviation summarize :=
  (summarize_text sent_tokenize word_tokenize STOP_WORDS float_of_str).

Lemma filter_length_le' {A} (f : A -> bool) l : length (List.filter f l) <= length l.
Proof. apply sublist_length, filter_sublist. Qed.

Lemma get_key_points_spec summary max_points :
  length (get_key_points sent_tokenize word_tokenize STOP_WORDS summary max_points)
  <= max_points
  /\ List.Forall
       (fun p => exists s, In s (sent_tokenize summary) /\ p = py_strip s)
       (get_key_points sent_tokenize word_tokenize STOP_WORDS summary max_points)
  /\ (get_key_points sent_tokenize word_tokenize STOP_WORDS summary max_points = []
      <-> sent_tokenize summary = [] \/ max_points = 0).
Proof.
  unfold get_key_points.
  destruct (sent_tokenize summary) as [|s0 sents] eqn:Es.
  { split; [simpl; lia|]. split; [constructor|]. split; auto. }
  set (scored := map _ (s0 :: sents)).
  set (ranked := sort_desc Nat.ltb scored).
  set (key_points := map fst (List.filter _ (firstn max_points ranked))).
  assert (L : length key_points <= max_points).
  { unfold key_points. rewrite length_map.
    etransitivity; [apply filter_length_le'|]. rewrite length_firstn. lia. }
  assert (F : List.Forall (fun p => exists s, In s (s0 :: sents) /\ p = py_strip s)
                key_points).
  { apply List.Forall_forall. intros p Hp. unfold key_points in Hp.
    apply in_map_iff in Hp as ([p' sc] & <- & Hp). apply filter_In in Hp as [Hp _].
    apply firstn_In in Hp.
    apply (Permutation_in _ (sort_desc_perm Nat.ltb scored)) in Hp.
    unfold scored in Hp. apply in_map_iff in Hp as (s & E & Hs).
    injection E as <- _. exists s. auto. }
  destruct key_points as [|p ps] eqn:Ek.
  - split; [rewrite length_map, length_firstn; lia|]. split.
    + apply List.Forall_forall. intros p Hp. apply in_map_iff in Hp as (s & <- & Hs).
      exists s. split; [eapply firstn_In, Hs|reflexivity].
    + destruct max_points; simpl; split; auto; try discriminate.
      intros [H|H]; discriminate H.
  - split; [exact L|]. split; [exact F|]. split; [discriminate|].
    intros [H| ->]; [discriminate H|]. simpl in L. lia.
Qed.

(** X9. [get_key_points] returns at most [max_points] points, each the
    stripped text of a sentence of the summary, and returns none only for
    a summary without sentences or for [max_points = 0]. *)
Theorem get_key_points_bounds summary max_points :
  length (get_key_points sent_tokenize word_tokenize STOP_WORDS summary max_points)
  <= max_points
  /\ List.Forall
       (fun p => exists s, In s (sent_tokenize summary) /\ p = py_strip s)
       (get_key_points sent_tokenize word_tokenize STOP_WORDS summary max_points)
  /\ (get_key_points sent_tokenize word_tokenize STOP_WORDS summary max_points = []
      <-> sent_tokenize summary = [] \/ max_points = 0).
Proof. apply get_key_points_spec. Qed.

Lemma make_shorter_returns summary r :
  exists new,
    summarize summary (PyFloat r) = Returns new
    /\ make_shorter sent_tokenize word_tokenize STOP_WORDS float_of_str summary r
       = Returns (match new with "" => summary | _ => new end).
Proof.
  destruct (summarize_text_float sent_tokenize word_tokenize STOP_WORDS float_of_str
              summary r) as (n & _ & _ & E).
  eexists. split; [exact E|]. unfold make_shorter. rewrite E. reflexivity.
Qed.

Lemma respond_returns intent question summary :
  exists answer,
    respond sent_tokenize word_tokenize STOP_WORDS float_of_str intent question summary
    = Returns answer.
Proof.
  unfold respond.
  repeat match goal with
         | |- context [if ?b then _ else _] => destruct b
         end.
  all: try solve [eauto].
  all: try solve [destruct (make_shorter_returns summary f0_5) as (new & _ & ->);
                  simpl; eauto].
  all: match goal with
       | |- context [match ?l with [] => _ | _ :: _ => _ end] => destruct l
       end; eauto.
Qed.

(** X10. The body of the [try] of [chat_with_summary] returns for every
    question and summary, so that the answer never comes from the [except]
    branch: it is one of the two messages for a blank input or what the
    body returns. *)
Theorem chat_answer_is_returned question summary :
  exists answer,
    respond sent_tokenize word_tokenize STOP_WORDS float_of_str
      (detect_intent question) question summary = Returns answer
    /\ chat question summary
       = if is_blank summary then no_summary_message
         else if is_blank question then no_question_message
         else answer.
Proof.
  destruct (respond_returns (detect_intent question) question summary) as [a E].
  exists a. split; [exact E|]. unfold chat_with_summary. rewrite E. reflexivity.
Qed.

(** X11. A question whose intent is [key_points] is answered with one to
    five numbered points, each the stripped text of a sentence of the
    summary, and with the "couldn't extract" message only when the
    summary has no sentence. *)
Theorem key_points_answer question summary :
  is_blank summary = false -> is_blank question = false ->
  detect_intent question = "key_points" ->
  (sent_tokenize summary = []
   /\ chat question summary = "I couldn't extract clear key points.")
  \/ exists points,
       chat question summary = py_strip ("🔑 Key Points:" ++ nl ++ numbered 1 points)
       /\ 1 <= length points <= 5
       /\ List.Forall
            (fun p => exists s, In s (sent_tokenize summary) /\ p = py_strip s)
            points.
Proof.
  intros Hs Hq Hi. unfold chat_with_summary. rewrite Hs, Hq, Hi. unfold respond.
  change ("key_points" =? "what_about")%string with false.
  change ("key_points" =? "key_points")%string with true. cbv iota.
  destruct (get_key_points_spec summary 5) as (L & F & E).
  destruct (get_key_points sent_tokenize word_tokenize STOP_WORDS summary 5)
    as [|p ps] eqn:Ek.
  - left. split; [|reflexivity]. destruct E as [E _].
    destruct (E eq_refl) as [E'|E']; [exact E'|discriminate E'].
  - right. exists (p :: ps). split; [reflexivity|]. split; [|exact F].
    cbn [length] in *. lia.
Qed.

(** X12. A question whose intent is [general] is answered with one to three
    sentences of the summary, in their order, each of which contains an
    alphanumeric word of the question that is no stop word, or else with
    the "no direct answer" message. *)
Theorem general_answer_quotes_summary question summary :
  is_blank summary = false -> is_blank question = false ->
  detect_intent question = "general" ->
  chat question summary = no_answer_message
  \/ exists relevant,
       chat question summary
       = ("Based on your question, here are relevant sentences:" ++ nl ++ nl
          ++ py_join " " relevant)%string
       /\ 1 <= length relevant <= 3
       /\ sublist relevant (sent_tokenize summary)
       /\ List.Forall
            (fun s => exists w,
                 In w (word_tokenize (py_lower question))
                 /\ py_isalnum w = true /\ ~ In w STOP_WORDS
                 /\ py_contains w (py_lower s) = true)
            relevant.
Proof.
  intros Hs Hq Hi. unfold chat_with_summary. rewrite Hs, Hq, Hi. unfold respond.
  change ("general" =? "what_about")%string with false.
  change ("general" =? "key_points")%string with false.
  change ("general" =? "make_shorter")%string with false.
  change ("general" =? "explain")%string with false.
  change ("general" =? "summary_length")%string with false. cbv iota.
  set (qwords := List.filter _ (word_tokenize (py_lower question))).
  set (relevant := List.filter _ (sent_tokenize summary)).
  destruct relevant as [|r rs] eqn:Er; [left; reflexivity|right].
  exists (firstn 3 (r :: rs)). split; [reflexivity|].
  split; [rewrite length_firstn; cbn [length]; lia|]. split.
  - etransitivity; [apply sublist_take|]. rewrite <- Er. apply filter_sublist.
  - apply List.Forall_forall. intros s H. apply firstn_In in H. rewrite <- Er in H.
    unfold relevant in H. apply filter_In in H as [_ H].
    apply existsb_exists in H as (w & Hw & Hc). unfold qwords in Hw.
    apply filter_In in Hw as [Hw Ok]. apply andb_true_iff in Ok as [Ok St].
    exists w. repeat split; try assumption.
    intros HS. apply str_in_In in HS. rewrite HS in St. discriminate St.
Qed.

Section NonEmptySentences.
Hypothesis sent_tokenize_nonempty :
  forall text s, In s (sent_tokenize text) -> s <> "".

(** X13. [make_shorter] never raises and never takes its fallback: it
    returns what [summarize_text] returns for a summary that is not blank,
    which is not empty, and it returns a blank summary as it is. *)
Theorem make_shorter_is_summarize summary ratio :
  exists short,
    make_shorter sent_tokenize word_tokenize STOP_WORDS float_of_str summary ratio
    = Returns short
    /\ (is_blank summary = true -> short = summary)
    /\ (is_blank summary = false ->
        short <> "" /\ summarize summary (PyFloat ratio) = Returns short).
Proof.
  destruct (make_shorter_returns summary ratio) as (new & E & ->).
  pose proof (summarize_text_empty_iff _ _ _ _ sent_tokenize_nonempty _ _ _ E) as B.
  eexists. split; [reflexivity|]. split.
  - intros Hb. apply B in Hb. rewrite Hb. reflexivity.
  - intros Hb. destruct new; [|split; [discriminate|exact E]].
    destruct B as [B _]. rewrite (B eq_refl) in Hb. discriminate Hb.
Qed.
End NonEmptySentences.
End ChatbotExtras.

(** ** Statistics and URLs *)

Lemma split_length_nonspace s :
  length (py_split s) <= String.length (filter_chars (fun c => negb (isspace c)) s).
Proof.
  unfold py_split. induction s as [|c s IH]; [simpl; lia|].
  cbn [split_ws_aux filter_chars]. destruct (split_ws_aux s) as [w ws].
  destruct (isspace c); cbn [negb].
  - destruct w; exact IH.
  - cbn [cons_nonempty String.length length]. destruct w; cbn [cons_nonempty length] in IH; lia.
Qed.

Lemma filter_chars_length_le (p q : ascii -> bool) s :
  (forall c, p c = true -> q c = true) ->
  String.length (filter_chars p s) <= String.length (filter_chars q s).
Proof.
  intros H. induction s as [|c s IH]; [simpl; lia|]. cbn [filter_chars].
  destruct (p c) eqn:P.
  - rewrite (H c P). cbn [String.length]. lia.
  - destruct (q c); cbn [String.length]; lia.
Qed.

Lemma filter_chars_length p s : String.length (filter_chars p s) <= String.length s.
Proof.
  induction s as [|c s IH]; [simpl; lia|]. cbn [filter_chars].
  destruct (p c); cbn [String.length]; lia.
Qed.

Lemma words_le_chars s :
  length (py_split s) <= String.length (remove_spaces s)
  /\ String.length (remove_spaces s) <= String.length s.
Proof.
  split; [|apply filter_chars_length].
  etransitivity; [apply split_length_nonspace|]. apply filter_chars_length_le.
  intros c H. destruct (Ascii.eqb_spec c space) as [->|]; [discriminate H|reflexivity].
Qed.

(** X14. In the statistics, the words of the text are at most as many as
    its characters that are no blanks, which are at most as many as its
    characters; the words of the summary are at most as many as its
    characters. *)
Theorem calculate_stats_counts text summary :
  original_words (calculate_stats text summary)
  <= original_chars_no_spaces (calculate_stats text summary)
  /\ original_chars_no_spaces (calculate_stats text summary)
     <= original_chars (calculate_stats text summary)
  /\ summary_words (calculate_stats text summary)
     <= summary_chars (calculate_stats text summary).
Proof.
  unfold calculate_stats. cbn [original_words original_chars_no_spaces original_chars
                                 summary_words summary_chars].
  pose proof (words_le_chars text) as [T1 T2]. pose proof (words_le_chars summary) as [S1 S2].
  destruct (truthy text), (truthy summary); lia.
Qed.

Lemma py_strip_stripped s : starts_ws (py_strip s) = false /\ ends_ws (py_strip s) = false.
Proof.
  unfold py_strip. split; [apply starts_ws_rstrip, starts_ws_lstrip|apply ends_ws_rstrip].
Qed.

Lemma py_strip_fixed s : starts_ws s = false -> ends_ws s = false -> py_strip s = s.
Proof. intros H1 H2. unfold py_strip. rewrite (lstrip_fixed s H1). apply rstrip_fixed, H2. Qed.

Lemma py_strip_idem s : py_strip (py_strip s) = py_strip s.
Proof. destruct (py_strip_stripped s). apply py_strip_fixed; assumption. Qed.

Lemma truthy_strip_not_blank s : truthy (py_strip s) = true -> is_blank (py_strip s) = false.
Proof.
  unfold truthy, is_blank. rewrite py_strip_idem. intros H.
  apply negb_true_iff in H. rewrite H. reflexivity.
Qed.

Section UrlFacts.
Variable urlparse : string -> url_parts.
Hypothesis urlparse_empty : netloc (urlparse "") = "".

Lemma strip_http s : py_strip ("http://" ++ py_strip s) = ("http://" ++ py_strip s)%string.
Proof.
  destruct (py_strip_stripped s) as [_ E].
  apply py_strip_fixed; [reflexivity|].
  destruct (py_strip s) as [|c r] eqn:Es; [reflexivity|].
  rewrite ends_ws_append by discriminate. exact E.
Qed.

(** X15. A URL that [_is_valid_url] returns has the scheme [http] or [https]
    and a network location, it is the stripped candidate with [http://]
    put before it when it has no scheme, and validating it again returns
    it unchanged. *)
Theorem is_valid_url_normal candidate url :
  _is_valid_url urlparse candidate = Some url ->
  In (scheme (urlparse url)) ["http"; "https"]
  /\ netloc (urlparse url) <> ""
  /\ (url = py_strip candidate \/ url = ("http://" ++ py_strip candidate)%string)
  /\ _is_valid_url urlparse url = Some url.
Proof.
  unfold _is_valid_url at 1. destruct (truthy candidate); [|discriminate]. cbn [negb].
  set (c := py_strip candidate).
  assert (Hc : py_strip c = c) by apply py_strip_idem.
  assert (Hh : py_strip ("http://" ++ c) = ("http://" ++ c)%string) by apply strip_http.
  assert (K : forall u, py_strip u = u ->
              str_in (scheme (urlparse u)) ["http"; "https"] = true ->
              truthy (netloc (urlparse u)) = true ->
              In (scheme (urlparse u)) ["http"; "https"]
              /\ netloc (urlparse u) <> ""
              /\ _is_valid_url urlparse u = Some u).
  { intros u Hu Hs Hn. split; [apply str_in_In, Hs|].
    assert (Hne : netloc (urlparse u) <> "").
    { intros E. unfold truthy in Hn. rewrite E in Hn. discriminate Hn. }
    split; [exact Hne|]. unfold _is_valid_url.
    assert (Tu : truthy u = true).
    { destruct u; [|reflexivity]. exfalso. apply Hne, urlparse_empty. }
    rewrite Tu, Hu. cbn [negb].
    assert (Ts : truthy (scheme (urlparse u)) = true).
    { destruct (scheme (urlparse u)); [discriminate Hs|reflexivity]. }
    rewrite Ts. cbn [negb]. rewrite Hs, Hn. reflexivity. }
  destruct (truthy (scheme (urlparse c))); cbn [negb].
  - destruct (str_in (scheme (urlparse c)) ["http"; "https"]) eqn:Hs; [|discriminate].
    destruct (truthy (netloc (urlparse c))) eqn:Hn; [|discriminate].
    cbn [negb]. intros [= <-]. destruct (K c Hc Hs Hn) as (K1 & K2 & K3). auto.
  - destruct (str_in (scheme (urlparse ("http://" ++ c))) ["http"; "https"]) eqn:Hs;
      [|discriminate].
    destruct (truthy (netloc (urlparse ("http://" ++ c)))) eqn:Hn; [|discriminate].
    cbn [negb]. intros [= <-]. destruct (K _ Hh Hs Hn) as (K1 & K2 & K3). auto.
Qed.
End UrlFacts.

(** ** Runs of characters *)

Lemma all_chars_app p a b :
  all_chars p (a ++ b) = all_chars p a && all_chars p b.
Proof. induction a as [|c a IH]; [reflexivity|]. simpl. rewrite IH, andb_assoc. reflexivity. Qed.

Lemma length_app_char a c : String.length (a ++ String c "") = S (String.length a).
Proof. induction a as [|d a IH]; [reflexivity|]. simpl. rewrite IH. reflexivity. Qed.

Lemma append_char_assoc a c b : ((a ++ String c "") ++ b = a ++ String c b)%string.
Proof. rewrite append_assoc. reflexivity. Qed.

Section Runs.
Variable p : ascii -> bool.
Variable k : nat.
Variable rep : string.
Hypothesis k_pos : 1 <= k.
Hypothesis rep_class : all_chars p rep = true.
Hypothesis rep_nonempty : rep <> "".

Local Abbreviation sub := (sub_runs p k rep).
Local Abbreviation flush := (flush_run k rep).

Lemma flush_empty : flush "" = "".
Proof. unfold flush_run. destruct k; [lia|reflexivity]. Qed.

Lemma flush_class run : all_chars p run = true -> all_chars p (flush run) = true.
Proof. intros H. unfold flush_run. destruct (Nat.leb _ _); assumption. Qed.

Lemma flush_nonempty run : run <> "" -> flush run <> "".
Proof. intros H. unfold flush_run. destruct (Nat.leb _ _); assumption. Qed.

Lemma sub_runs_start run y :
  starts_outside p y = true -> sub run y = (flush run ++ sub "" y)%string.
Proof.
  destruct y as [|c y]; cbn [starts_outside sub_runs]; intros H.
  - rewrite flush_empty, append_nil_r. reflexivity.
  - apply negb_true_iff in H. rewrite H, flush_empty. reflexivity.
Qed.

Lemma sub_runs_skip x y :
  all_chars (fun c => negb (p c)) x = true -> sub "" (x ++ y) = (x ++ sub "" y)%string.
Proof.
  induction x as [|c x IH]; [reflexivity|]. cbn [all_chars append sub_runs]. intros H.
  apply andb_true_iff in H as [Hc H]. apply negb_true_iff in Hc.
  rewrite Hc, flush_empty, (IH H). reflexivity.
Qed.

Lemma sub_runs_outside x :
  all_chars (fun c => negb (p c)) x = true -> sub "" x = x.
Proof.
  intros H. rewrite <- (append_nil_r x) at 1. rewrite (sub_runs_skip x "" H).
  cbn [sub_runs]. rewrite flush_empty, append_nil_r. reflexivity.
Qed.

Lemma starts_outside_app (q : ascii -> bool) a b :
  a <> "" -> starts_outside q (a ++ b) = starts_outside q a.
Proof. destruct a; [contradiction|reflexivity]. Qed.

Lemma starts_outside_class (q : ascii -> bool) a :
  (forall c, p c = true -> q c = false) ->
  all_chars p a = true -> starts_outside q a = true.
Proof.
  intros D. destruct a as [|c a]; [reflexivity|]. cbn [all_chars starts_outside].
  intros H. apply andb_true_iff in H as [Hc _]. rewrite (D c Hc). reflexivity.
Qed.

Lemma sub_runs_head (q : ascii -> bool) run s :
  (forall c, p c = true -> q c = false) ->
  run <> "" -> all_chars p run = true -> starts_outside q (sub run s) = true.
Proof.
  intros D. revert run. induction s as [|c s IH]; intros run Hne Hp; cbn [sub_runs].
  - apply starts_outside_class; [exact D|apply flush_class, Hp].
  - destruct (p c) eqn:Pc.
    + apply IH; [destruct run; discriminate|].
      rewrite all_chars_app, Hp. cbn [all_chars]. rewrite Pc. reflexivity.
    + rewrite starts_outside_app by (apply flush_nonempty, Hne).
      apply starts_outside_class; [exact D|apply flush_class, Hp].
Qed.

Lemma runs_below_class n x y :
  all_chars p x = true -> n + String.length x < k ->
  starts_outside p y = true ->
  runs_below p k n (x ++ y) = runs_below p k 0 y.
Proof.
  revert n. induction x as [|c x IH]; intros n Hp Hl Hy.
  - destruct y as [|c y]; [reflexivity|]. cbn [starts_outside] in Hy.
    apply negb_true_iff in Hy. cbn [append runs_below]. rewrite Hy. reflexivity.
  - cbn [all_chars] in Hp. apply andb_true_iff in Hp as [Hc Hp].
    cbn [String.length] in Hl. cbn [append runs_below]. rewrite Hc.
    rewrite (IH (S n)) by (try assumption; lia).
    destruct (Nat.ltb_spec (S n) k); [reflexivity|lia].
Qed.

Lemma flush_short run : String.length run < k -> flush run = run.
Proof. intros H. unfold flush_run. destruct (Nat.leb_spec k (String.length run)); [lia|reflexivity]. Qed.

Lemma sub_runs_fixed run s :
  all_chars p run = true -> String.length run < k ->
  runs_below p k (String.length run) s = true ->
  sub run s = (run ++ s)%string.
Proof.
  revert run. induction s as [|c s IH]; intros run Hp Hl H; cbn [sub_runs].
  - rewrite append_nil_r. apply flush_short, Hl.
  - cbn [runs_below] in H. destruct (p c) eqn:Pc.
    + apply andb_true_iff in H as [H1 H2]. apply Nat.ltb_lt in H1.
      rewrite IH.
      * apply append_char_assoc.
      * rewrite all_chars_app, Hp. cbn [all_chars]. rewrite Pc. reflexivity.
      * rewrite length_app_char. exact H1.
      * rewrite length_app_char. exact H2.
    + rewrite (flush_short run Hl), (IH "" eq_refl); [reflexivity|simpl; lia|exact H].
Qed.
Hypothesis rep_short : String.length rep < k.

Lemma flush_length run : String.length (flush run) < k.
Proof. unfold flush_run. destruct (Nat.leb_spec k (String.length run)); assumption. Qed.

Lemma sub_runs_below run s :
  all_chars p run = true -> runs_below p k 0 (sub run s) = true.
Proof.
  revert run. induction s as [|c s IH]; intros run Hp; cbn [sub_runs].
  - rewrite <- (append_nil_r (flush run)).
    rewrite runs_below_class; [reflexivity|apply flush_class, Hp| |reflexivity].
    pose proof (flush_length run). lia.
  - destruct (p c) eqn:Pc.
    + apply IH. rewrite all_chars_app, Hp. cbn [all_chars]. rewrite Pc. reflexivity.
    + rewrite runs_below_class;
        [|apply flush_class, Hp|pose proof (flush_length run); lia
         |cbn [starts_outside]; rewrite Pc; reflexivity].
      cbn [runs_below]. rewrite Pc. apply IH. reflexivity.
Qed.

End Runs.

Section TwoClasses.
Variables p1 p2 : ascii -> bool.
Variables k1 k2 : nat.
Variables rep1 rep2 : string.
Hypothesis disjoint : forall c, p1 c = true -> p2 c = false.
Hypothesis k1_pos : 1 <= k1.
Hypothesis k2_pos : 1 <= k2.
Hypothesis rep1_class : all_chars p1 rep1 = true.
Hypothesis rep2_class : all_chars p2 rep2 = true.
Hypothesis rep1_nonempty : rep1 <> "".
Hypothesis rep2_nonempty : rep2 <> "".

Local Abbreviation sub1 := (sub_runs p1 k1 rep1).
Local Abbreviation sub2 := (sub_runs p2 k2 rep2).

Lemma disjoint' c : p2 c = true -> p1 c = false.
Proof. intros H. destruct (p1 c) eqn:E; [|reflexivity]. rewrite (disjoint c E) in H. discriminate. Qed.

Lemma class1_outside2 x : all_chars p1 x = true -> all_chars (fun c => negb (p2 c)) x = true.
Proof. apply all_chars_impl. intros c H. rewrite (disjoint c H). reflexivity. Qed.

Lemma class2_outside1 x : all_chars p2 x = true -> all_chars (fun c => negb (p1 c)) x = true.
Proof. apply all_chars_impl. intros c H. rewrite (disjoint' c H). reflexivity. Qed.

Lemma sub_runs_commute_aux s :
  (forall r1, all_chars p1 r1 = true -> sub2 "" (sub1 r1 s) = sub1 r1 (sub2 "" s))
  /\ (forall r2, all_chars p2 r2 = true -> sub2 r2 (sub1 "" s) = sub1 "" (sub2 r2 s)).
Proof.
  induction s as [|c s [IHA IHB]].
  - split; intros r H; cbn [sub_runs].
    + rewrite (flush_empty k2 rep2 k2_pos). cbn [sub_runs].
      rewrite (sub_runs_outside p2 k2 rep2 k2_pos); [reflexivity|].
      apply class1_outside2, flush_class; assumption.
    + rewrite (flush_empty k1 rep1 k1_pos). cbn [sub_runs].
      rewrite (sub_runs_outside p1 k1 rep1 k1_pos); [reflexivity|].
      apply class2_outside1, flush_class; assumption.
  - destruct (p1 c) eqn:P1; [|destruct (p2 c) eqn:P2].
    + pose proof (disjoint c P1) as P2.
      assert (C1 : forall r, all_chars p1 r = true -> all_chars p1 (r ++ String c "") = true).
      { intros r H. rewrite all_chars_app, H. cbn [all_chars]. rewrite P1. reflexivity. }
      split; intros r H; cbn [sub_runs]; rewrite P1, ?P2.
      * rewrite (flush_empty k2 rep2 k2_pos). cbn [append sub_runs]. rewrite P1.
        apply IHA, C1, H.
      * cbn [append].
        rewrite (sub_runs_start p2 k2 rep2 k2_pos r (sub1 (String c "") s)).
        2:{ apply (sub_runs_head p1 k1 rep1 rep1_class rep1_nonempty p2);
              [exact disjoint|discriminate|apply (C1 "" eq_refl)]. }
        rewrite (IHA (String c "") (C1 "" eq_refl)).
        rewrite (sub_runs_skip p1 k1 rep1 k1_pos).
        2:{ apply class2_outside1, flush_class; assumption. }
        cbn [sub_runs]. rewrite P1. reflexivity.
    + assert (C2 : forall r, all_chars p2 r = true -> all_chars p2 (r ++ String c "") = true).
      { intros r H. rewrite all_chars_app, H. cbn [all_chars]. rewrite P2. reflexivity. }
      split; intros r H; cbn [sub_runs]; rewrite ?P1, ?P2.
      * rewrite (sub_runs_skip p2 k2 rep2 k2_pos).
        2:{ apply class1_outside2, flush_class; assumption. }
        cbn [sub_runs append]. rewrite P2.
        rewrite (IHB (String c "") (C2 "" eq_refl)).
        rewrite (sub_runs_start p1 k1 rep1 k1_pos r (sub2 (String c "") s)); [reflexivity|].
        apply (sub_runs_head p2 k2 rep2 rep2_class rep2_nonempty p1);
          [exact disjoint'|discriminate|apply (C2 "" eq_refl)].
      * rewrite (flush_empty k1 rep1 k1_pos). cbn [append sub_runs]. rewrite P2.
        apply IHB, C2, H.
    + split; intros r H; cbn [sub_runs]; rewrite ?P1, ?P2.
      * rewrite (flush_empty k2 rep2 k2_pos). cbn [append sub_runs]. rewrite P1.
        rewrite (sub_runs_skip p2 k2 rep2 k2_pos).
        2:{ apply class1_outside2, flush_class; assumption. }
        cbn [sub_runs]. rewrite P2, (flush_empty k2 rep2 k2_pos). cbn [append].
        rewrite (IHA "" eq_refl). reflexivity.
      * rewrite (flush_empty k1 rep1 k1_pos). cbn [append sub_runs]. rewrite P2.
        rewrite (sub_runs_skip p1 k1 rep1 k1_pos).
        2:{ apply class2_outside1, flush_class; assumption. }
        cbn [sub_runs]. rewrite P1, (flush_empty k1 rep1 k1_pos). cbn [append].
        rewrite (IHA "" eq_refl). reflexivity.
Qed.
End TwoClasses.

Lemma newline_not_blank c : is_newline c = true -> is_blank_char c = false.
Proof.
  unfold is_newline, is_blank_char. intros H. apply Ascii.eqb_eq in H. subst c. reflexivity.
Qed.

Lemma sub_blanks_newlines s : sub_blanks (sub_newlines s) = sub_newlines (sub_blanks s).
Proof.
  unfold sub_blanks, sub_newlines.
  apply (sub_runs_commute_aux is_newline is_blank_char 3 2 (nl ++ nl) " " newline_not_blank);
    try reflexivity; try discriminate; lia.
Qed.

(** ** Tidying an extracted text *)

Lemma runs_below_mono p k n m s :
  n <= m -> runs_below p k m s = true -> runs_below p k n s = true.
Proof.
  revert n m. induction s as [|c s IH]; intros n m L; [reflexivity|].
  cbn [runs_below]. destruct (p c); [|auto].
  intros H. apply andb_true_iff in H as [H1 H2]. apply Nat.ltb_lt in H1.
  rewrite (IH (S n) (S m)) by (try assumption; lia).
  destruct (Nat.ltb_spec (S n) k); [reflexivity|lia].
Qed.

Lemma runs_below_suffix p k n a b :
  runs_below p k n (a ++ b) = true -> runs_below p k 0 b = true.
Proof.
  revert n. induction a as [|c a IH]; intros n; cbn [append].
  - apply runs_below_mono. lia.
  - cbn [runs_below]. destruct (p c); [|apply IH].
    intros H. apply andb_true_iff in H as [_ H]. apply (IH _ H).
Qed.

Lemma runs_below_prefix p k n a b :
  runs_below p k n (a ++ b) = true -> runs_below p k n a = true.
Proof.
  revert n. induction a as [|c a IH]; intros n; [reflexivity|].
  cbn [append runs_below]. destruct (p c); [|apply IH].
  intros H. apply andb_true_iff in H as [H1 H2]. rewrite H1. apply (IH _ H2).
Qed.

Lemma runs_below_strip p k s :
  runs_below p k 0 s = true -> runs_below p k 0 (py_strip s) = true.
Proof.
  intros H. unfold py_strip.
  destruct (lstrip_suffix s) as [a Ea]. rewrite Ea in H. apply runs_below_suffix in H.
  destruct (rstrip_prefix (lstrip s)) as [b Eb]. rewrite Eb in H.
  apply runs_below_prefix in H. exact H.
Qed.

Lemma sub_newlines_below s : runs_below is_newline 3 0 (sub_newlines s) = true.
Proof. apply sub_runs_below; try reflexivity; simpl; lia. Qed.

Lemma sub_blanks_below s : runs_below is_blank_char 2 0 (sub_blanks s) = true.
Proof. apply sub_runs_below; try reflexivity; simpl; lia. Qed.

Lemma sub_newlines_fixed s : runs_below is_newline 3 0 s = true -> sub_newlines s = s.
Proof. intros H. apply (sub_runs_fixed is_newline 3 (nl ++ nl)); try reflexivity; simpl; try lia; exact H. Qed.

Lemma sub_blanks_fixed s : runs_below is_blank_char 2 0 s = true -> sub_blanks s = s.
Proof. intros H. apply (sub_runs_fixed is_blank_char 2 " "); try reflexivity; simpl; try lia; exact H. Qed.

Lemma tidied_squeezed raw : squeezed (py_strip (sub_blanks (sub_newlines raw))).
Proof.
  split; [|split; [|apply py_strip_stripped]].
  - apply runs_below_strip. rewrite sub_blanks_newlines. apply sub_newlines_below.
  - apply runs_below_strip, sub_blanks_below.
Qed.

Lemma squeezed_fixed text :
  squeezed text -> py_strip (sub_blanks (sub_newlines text)) = text.
Proof.
  intros (H1 & H2 & H3 & H4).
  rewrite (sub_newlines_fixed _ H1), (sub_blanks_fixed _ H2). apply py_strip_fixed; assumption.
Qed.

(** X16. The two tidying steps of [extract_readable_text], the one of the
    readability and Wikipedia branches and the one of the generic branch,
    are the same function; its result has no three line feeds and no two
    blanks or tabs in a row and no white space at its ends, and tidying it
    again changes nothing. *)
Theorem tidying_is_a_normal_form raw :
  py_strip (sub_newlines (sub_blanks raw)) = py_strip (sub_blanks (sub_newlines raw))
  /\ squeezed (py_strip (sub_blanks (sub_newlines raw)))
  /\ py_strip (sub_blanks (sub_newlines (py_strip (sub_blanks (sub_newlines raw)))))
     = py_strip (sub_blanks (sub_newlines raw)).
Proof.
  split; [rewrite sub_blanks_newlines; reflexivity|].
  split; [apply tidied_squeezed|apply squeezed_fixed, tidied_squeezed].
Qed.

Section ExtractionFacts.
Variable urlparse : string -> url_parts.
Variable requests_get : string -> string + response.
Variable HAS_READABILITY : bool.
Variable _extract_with_readability : string -> option string.
Variable _extract_wikipedia : response -> string.
Variable heuristic_text : response -> string.

Local Abbreviation extract :=
  (extract_readable_text urlparse requests_get HAS_READABILITY
     _extract_with_readability _extract_wikipedia heuristic_text).

Lemma accept_extracted_spec raw text :
  accept_extracted raw = Some text ->
  MIN_TEXT_LENGTH <= String.length raw
  /\ text = py_strip (sub_blanks (sub_newlines raw)).
Proof.
  unfold accept_extracted. destruct (truthy raw); [|discriminate]. cbn [andb].
  destruct (Nat.leb_spec MIN_TEXT_LENGTH (String.length raw)); [|discriminate].
  intros [= <-]. rewrite sub_blanks_newlines. auto.
Qed.

(** X17. A text that [extract_readable_text] returns is tidied, it was fetched
    with status 200 from the URL that [_is_valid_url] returns, and either
    it has 50 characters or more, or it is the tidied form of a text of
    50 characters or more that readability or the Wikipedia extraction
    found. *)
Theorem extracted_text_is_tidied url text :
  extract url = Extracted text ->
  squeezed text
  /\ (exists normalized resp,
         _is_valid_url urlparse url = Some normalized
         /\ requests_get normalized = inr resp
         /\ status_code resp = 200)
  /\ (MIN_TEXT_LENGTH <= String.length text
      \/ exists raw,
           MIN_TEXT_LENGTH <= String.length raw
           /\ text = py_strip (sub_blanks (sub_newlines raw))
           /\ ((HAS_READABILITY = true
                /\ exists resp, _extract_with_readability (resp_text resp) = Some raw)
               \/ exists resp, _extract_wikipedia resp = raw)).
Proof.
  unfold extract_readable_text.
  destruct (_is_valid_url urlparse url) as [normalized|] eqn:Eu; [|discriminate].
  destruct (truthy normalized); [|discriminate]. cbn [negb].
  destruct (requests_get normalized) as [e|resp] eqn:Er; [discriminate|].
  destruct (Nat.eqb_spec (status_code resp) 200) as [Es|]; [|discriminate]. cbn [negb].
  destruct (negb _ && negb _); [discriminate|].
  destruct (if HAS_READABILITY then _ else None) as [t|] eqn:Ea.
  { intros [= <-]. destruct HAS_READABILITY; [|discriminate].
    destruct (_extract_with_readability (resp_text resp)) as [raw|] eqn:Ew; [|discriminate].
    apply accept_extracted_spec in Ea as [L ->].
    split; [apply tidied_squeezed|]. split; [exists normalized, resp; auto|].
    right. exists raw. split; [exact L|]. split; [reflexivity|]. left. eauto. }
  destruct (if py_contains "wikipedia.org" _ then _ else None) as [t|] eqn:Ek.
  { intros [= <-]. destruct (py_contains "wikipedia.org" _); [|discriminate].
    apply accept_extracted_spec in Ek as [L ->].
    split; [apply tidied_squeezed|]. split; [exists normalized, resp; auto|].
    right. exists (_extract_wikipedia resp). split; [exact L|]. split; [reflexivity|]. eauto. }
  destruct (truthy _); [|discriminate]. cbn [negb orb].
  destruct (Nat.ltb_spec (String.length (py_strip (sub_blanks (sub_newlines (heuristic_text resp)))))
              MIN_TEXT_LENGTH) as [|L]; [discriminate|].
  intros [= <-]. split; [apply tidied_squeezed|]. split; [exists normalized, resp; auto|]. left. exact L.
Qed.
End ExtractionFacts.

(** ** The JSON routes *)

Lemma f0_3_clamped : clamp_ratio f0_3 = f0_3.
Proof. reflexivity. Qed.

Section RouteFacts.
Variable sent_tokenize : string -> list string.
Variable word_tokenize : string -> list string.
Variable STOP_WORDS : list string.
Variable float_of_str : string -> option float.

Local Abbreviation summarize :=
  (summarize_text sent_tokenize word_tokenize STOP_WORDS float_of_str).
Local Abbreviation ratio_of := (request_ratio float_of_str).

Lemma request_ratio_clamped v : clamp_ratio (ratio_of v) = ratio_of v.
Proof.
  unfold request_ratio. destruct v as [v|]; [|reflexivity].
  destruct (json_float float_of_str v); cbn [bind]; [apply clamp_ratio_idempotent|reflexivity].
Qed.

(** X18. The ratio the routes summarise with is between 0.1 and 0.9 whatever
    the request holds: the clamped number when [float] accepts the value,
    and 0.3 when the key is missing or [float] raises. *)
Theorem request_ratio_range v :
  PrimFloat.leb f0_1 (ratio_of v) = true
  /\ PrimFloat.leb (ratio_of v) f0_9 = true
  /\ ratio_of v
     = match v with
       | None => f0_3
       | Some x =>
           match json_float float_of_str x with
           | Returns r => clamp_ratio r
           | Raises _ => f0_3
           end
       end.
Proof.
  rewrite <- (request_ratio_clamped v).
  split; [apply clamp_ratio_range|]. split; [apply clamp_ratio_range|].
  rewrite request_ratio_clamped. unfold request_ratio.
  destruct v as [x|]; [|reflexivity]. destruct (json_float float_of_str x); reflexivity.
Qed.

Lemma summarize_with_returns text ratio :
  exists summary,
    summarize_with sent_tokenize word_tokenize STOP_WORDS float_of_str text ratio
    = Returns summary
    /\ summarize text (PyFloat ratio) = Returns summary.
Proof.
  destruct (summarize_text_float sent_tokenize word_tokenize STOP_WORDS float_of_str
              text ratio) as (n & _ & _ & E).
  eexists. unfold summarize_with. rewrite E. split; reflexivity.
Qed.

Lemma stripped_field_truthy data key text :
  stripped_field data key = Some text -> truthy text = true ->
  exists s, dict_get data key = Some (JStr s) /\ text = py_strip s.
Proof.
  unfold stripped_field. destruct (dict_get data key) as [v|].
  - destruct (json_truthy v).
    + destruct v; try discriminate. intros [= <-] _. eauto.
    + intros [= <-] H. discriminate H.
  - intros [= <-] H. discriminate H.
Qed.

Lemma stripped_field_str data key s :
  dict_get data key = Some (JStr s) -> stripped_field data key = Some (py_strip s).
Proof.
  unfold stripped_field. intros ->. cbn [json_truthy].
  destruct (truthy s) eqn:T; [reflexivity|].
  unfold truthy in T. apply negb_false_iff, String.eqb_eq in T. subst s. reflexivity.
Qed.

(** X19. [api_summarize] answers 200 exactly on the accepted requests,
    whatever they hold as [ratio]. *)
Theorem api_summarize_status request :
  snd (api_summarize sent_tokenize word_tokenize STOP_WORDS float_of_str request) = 200
  <-> exists text, accepted request text.
Proof.
  unfold api_summarize, accepted. split.
  - destruct (is_json request); [|discriminate]. cbn [negb].
    destruct (get_json request) as [[| | | | |?|data]|]; try discriminate.
    destruct (stripped_field data "text") as [text|] eqn:Et; [|discriminate].
    destruct (truthy text) eqn:T; [|discriminate]. cbn [negb].
    destruct (Nat.ltb_spec (String.length text) MIN_TEXT_LENGTH); [discriminate|].
    destruct (Nat.ltb_spec MAX_TEXT_LENGTH (String.length text)); [discriminate|].
    intros _. destruct (stripped_field_truthy _ _ _ Et T) as (s & E1 & E2).
    exists text. split; [reflexivity|]. exists data, s. auto.
  - intros (text & -> & data & s & -> & Hs & -> & Hmin & Hmax). cbn [negb].
    rewrite (stripped_field_str _ _ _ Hs).
    assert (T : truthy (py_strip s) = true).
    { destruct (py_strip s); [|reflexivity]. unfold MIN_TEXT_LENGTH in Hmin. simpl in Hmin. lia. }
    rewrite T. cbn [negb].
    destruct (Nat.ltb_spec (String.length (py_strip s)) MIN_TEXT_LENGTH); [lia|].
    destruct (Nat.ltb_spec MAX_TEXT_LENGTH (String.length (py_strip s))); [lia|].
    destruct (summarize_with_returns (py_strip s) (ratio_of (dict_get data "ratio")))
      as (summary & -> & _).
    reflexivity.
Qed.

Section NonEmptySentences.
Hypothesis sent_tokenize_nonempty :
  forall text s, In s (sent_tokenize text) -> s <> "".

(** X20. On an accepted request, [api_summarize] answers with the summary of
    the stripped text at the ratio of the request, which is not empty,
    and with the statistics of the two. *)
Theorem api_summarize_accepted request text :
  accepted request text ->
  exists data summary,
    get_json request = Some (JObject data)
    /\ summarize text (PyFloat (ratio_of (dict_get data "ratio"))) = Returns summary
    /\ summary <> ""
    /\ api_summarize sent_tokenize word_tokenize STOP_WORDS float_of_str request
       = (SummaryBody summary (calculate_stats text summary), 200).
Proof.
  intros (Hj & data & s & Hd & Hs & -> & Hmin & Hmax).
  destruct (summarize_with_returns (py_strip s) (ratio_of (dict_get data "ratio")))
    as (summary & E1 & E2).
  assert (T : truthy (py_strip s) = true).
  { destruct (py_strip s); [|reflexivity]. unfold MIN_TEXT_LENGTH in Hmin. simpl in Hmin. lia. }
  exists data, summary. split; [exact Hd|]. split; [exact E2|]. split.
  - intros E. apply (summarize_text_empty_iff _ _ _ _ sent_tokenize_nonempty _ _ _ E2) in E.
    rewrite (truthy_strip_not_blank s T) in E. discriminate E.
  - unfold api_summarize. rewrite Hj, Hd. cbn [negb].
    rewrite (stripped_field_str _ _ _ Hs), T. cbn [negb].
    destruct (Nat.ltb_spec (String.length (py_strip s)) MIN_TEXT_LENGTH); [lia|].
    destruct (Nat.ltb_spec MAX_TEXT_LENGTH (String.length (py_strip s))); [lia|].
    rewrite E1. reflexivity.
Qed.
End NonEmptySentences.

(** X21. On a JSON object whose [question] and [summary] are strings,
    [api_chatbot] checks the question before the summary, and hands both
    to [chat_with_summary] stripped, so that the blank checks of
    [chat_with_summary] do not apply: the answer is what the body of its
    [try] returns. *)
Theorem api_chatbot_on_strings request data q s :
  is_json request = true ->
  get_json request = Some (JObject data) ->
  dict_get data "question" = Some (JStr q) ->
  dict_get data "summary" = Some (JStr s) ->
  (api_chatbot sent_tokenize word_tokenize STOP_WORDS float_of_str request
   = if is_blank q then (ErrorBody "No question provided", 400)
     else if is_blank s
     then (NoSummaryBody no_summary_message "No summary available", 200)
     else (AnswerBody
             (chat_with_summary sent_tokenize word_tokenize STOP_WORDS float_of_str
                (py_strip q) (py_strip s))
             (py_strip q), 200))
  /\ (is_blank q = false -> is_blank s = false ->
      respond sent_tokenize word_tokenize STOP_WORDS float_of_str
        (detect_intent (py_strip q)) (py_strip q) (py_strip s)
      = Returns (chat_with_summary sent_tokenize word_tokenize STOP_WORDS float_of_str
                   (py_strip q) (py_strip s))).
Proof.
  intros Hj Hd Hq Hs.
  assert (B : forall x, is_blank x = negb (truthy (py_strip x))).
  { intros x. unfold truthy. rewrite negb_involutive. apply eq_true_iff_eq.
    rewrite is_blank_iff, String.eqb_eq. symmetry. apply py_strip_empty_iff. }
  split.
  - unfold api_chatbot. rewrite Hj, Hd. cbn [negb].
    rewrite (stripped_field_str _ _ _ Hq), (stripped_field_str _ _ _ Hs), !B.
    reflexivity.
  - intros Bq Bs. rewrite B in Bq, Bs. apply negb_false_iff in Bq, Bs.
    destruct (respond_returns sent_tokenize word_tokenize STOP_WORDS float_of_str
                (detect_intent (py_strip q)) (py_strip q) (py_strip s)) as (a & E).
    unfold chat_with_summary.
    rewrite (truthy_strip_not_blank _ Bq), (truthy_strip_not_blank _ Bs), E.
    reflexivity.
Qed.
End RouteFacts.

(** ** The further statements on concrete inputs *)

Lemma same_members (l1 l2 : list string) :
  forallb (fun t => str_in t l2) l1 && forallb (fun t => str_in t l1) l2 = true ->
  forall t, In t l1 <-> In t l2.
Proof.
  intros H. apply andb_true_iff in H as [H1 H2]. rewrite forallb_forall in H1, H2.
  intros t. split; intros Ht; apply str_in_In; [apply H1|apply H2]; exact Ht.
Qed.

Lemma candidates_are_best_scored_witness :
  (forall s f,
      dict_get (sentence_scores Standin.word_tokenize
                  (normalize (word_counts Standin.STOP_WORDS
                                (Standin.word_tokenize (py_lower Standin.cats_text))))
                  (Standin.sent_tokenize Standin.cats_text)) s = Some f ->
      nonneg_float f)
  /\ (forall a b fa fb,
         In a (top_sentences
                 (sentence_scores Standin.word_tokenize
                    (normalize (word_counts Standin.STOP_WORDS
                                  (Standin.word_tokenize (py_lower Standin.cats_text))))
                    (Standin.sent_tokenize Standin.cats_text)) 1) ->
         ~ In b (top_sentences
                   (sentence_scores Standin.word_tokenize
                      (normalize (word_counts Standin.STOP_WORDS
                                    (Standin.word_tokenize (py_lower Standin.cats_text))))
                      (Standin.sent_tokenize Standin.cats_text)) 1) ->
         dict_get (sentence_scores Standin.word_tokenize
                     (normalize (word_counts Standin.STOP_WORDS
                                   (Standin.word_tokenize (py_lower Standin.cats_text))))
                     (Standin.sent_tokenize Standin.cats_text)) a = Some fa ->
         dict_get (sentence_scores Standin.word_tokenize
                     (normalize (word_counts Standin.STOP_WORDS
                                   (Standin.word_tokenize (py_lower Standin.cats_text))))
                     (Standin.sent_tokenize Standin.cats_text)) b = Some fb ->
         PrimFloat.leb fb fa = true).
Proof.
  apply (candidates_are_best_scored Standin.word_tokenize Standin.STOP_WORDS
           Standin.cats_text (Standin.sent_tokenize Standin.cats_text) 1).
  - vm_compute. reflexivity.
  - intros s Hs. apply str_in_In in Hs.
    assert (E : forallb
                  (fun s => Z.ltb (Z.of_nat (length (alnum_tokens Standin.word_tokenize s)))
                              (2 ^ 53))
                  (Standin.sent_tokenize Standin.cats_text) = true)
      by (vm_compute; reflexivity).
    rewrite forallb_forall in E. apply Z.ltb_lt, E, str_in_In, Hs.
Defined.

Lemma detect_intent_word_set_witness :
  detect_intent "Make it SHORTER, please!" = detect_intent "please, make it: shorter. shorter!".
Proof.
  apply (detect_intent_word_set "Make it SHORTER, please!"
           "please, make it: shorter. shorter!").
  apply same_members. vm_compute. reflexivity.
Defined.

Lemma make_shorter_is_summarize_witness :
  exists short,
    make_shorter Standin.sent_tokenize Standin.word_tokenize Standin.STOP_WORDS
      Standin.float_of_str Standin.cats_text f0_5 = Returns short
    /\ (is_blank Standin.cats_text = true -> short = Standin.cats_text)
    /\ (is_blank Standin.cats_text = false ->
        short <> "" /\ Standin.summarize Standin.cats_text (PyFloat f0_5) = Returns short).
Proof.
  exact (make_shorter_is_summarize Standin.sent_tokenize Standin.word_tokenize
           Standin.STOP_WORDS Standin.float_of_str standin_nonempty
           Standin.cats_text f0_5).
Defined.

Lemma key_points_answer_witness :
  (Standin.sent_tokenize Standin.cats_text = []
   /\ chat_with_summary Standin.sent_tokenize Standin.word_tokenize Standin.STOP_WORDS
        Standin.float_of_str "What are the key points?" Standin.cats_text
      = "I couldn't extract clear key points.")
  \/ exists points,
       chat_with_summary Standin.sent_tokenize Standin.word_tokenize Standin.STOP_WORDS
         Standin.float_of_str "What are the key points?" Standin.cats_text
       = py_strip ("🔑 Key Points:" ++ nl ++ numbered 1 points)
       /\ 1 <= length points <= 5
       /\ List.Forall
            (fun p => exists s, In s (Standin.sent_tokenize Standin.cats_text)
                                /\ p = py_strip s)
            points.
Proof.
  apply (key_points_answer Standin.sent_tokenize Standin.word_tokenize
           Standin.STOP_WORDS Standin.float_of_str
           "What are the key points?" Standin.cats_text);
    vm_compute; reflexivity.
Defined.

Lemma general_answer_quotes_summary_witness :
  chat_with_summary Standin.sent_tokenize Standin.word_tokenize Standin.STOP_WORDS
    Standin.float_of_str "Which pets?" Standin.cats_text = no_answer_message
  \/ exists relevant,
       chat_with_summary Standin.sent_tokenize Standin.word_tokenize Standin.STOP_WORDS
         Standin.float_of_str "Which pets?" Standin.cats_text
       = ("Based on your question, here are relevant sentences:" ++ nl ++ nl
          ++ py_join " " relevant)%string
       /\ 1 <= length relevant <= 3
       /\ sublist relevant (Standin.sent_tokenize Standin.cats_text)
       /\ List.Forall
            (fun s => exists w,
                 In w (Standin.word_tokenize (py_lower "Which pets?"))
                 /\ py_isalnum w = true /\ ~ In w Standin.STOP_WORDS
                 /\ py_contains w (py_lower s) = true)
            relevant.
Proof.
  apply (general_answer_quotes_summary Standin.sent_tokenize Standin.word_tokenize
           Standin.STOP_WORDS Standin.float_of_str "Which pets?" Standin.cats_text);
    vm_compute; reflexivity.
Defined.

Lemma is_valid_url_normal_witness :
  In (scheme (StandinWeb.urlparse "http://example.com/cats")) ["http"; "https"]
  /\ netloc (StandinWeb.urlparse "http://example.com/cats") <> ""
  /\ ("http://example.com/cats" = py_strip " example.com/cats "
      \/ "http://example.com/cats" = ("http://" ++ py_strip " example.com/cats ")%string)
  /\ _is_valid_url StandinWeb.urlparse "http://example.com/cats"
     = Some "http://example.com/cats".
Proof.
  apply (is_valid_url_normal StandinWeb.urlparse eq_refl
           " example.com/cats " "http://example.com/cats").
  vm_compute. reflexivity.
Defined.

Lemma extracted_text_is_tidied_witness :
  squeezed "Cats are mammals. Dogs are mammals too. Cats and dogs are popular pets."
  /\ (exists normalized resp,
         _is_valid_url StandinWeb.urlparse " example.com/cats " = Some normalized
         /\ StandinWeb.requests_get normalized = inr resp
         /\ status_code resp = 200)
  /\ (MIN_TEXT_LENGTH
      <= String.length
           "Cats are mammals. Dogs are mammals too. Cats and dogs are popular pets."
      \/ exists raw,
           MIN_TEXT_LENGTH <= String.length raw
           /\ "Cats are mammals. Dogs are mammals too. Cats and dogs are popular pets."
              = py_strip (sub_blanks (sub_newlines raw))
           /\ ((false = true
                /\ exists resp : response, @None string = Some raw)
               \/ exists resp : response, "" = raw)).
Proof.
  apply (extracted_text_is_tidied StandinWeb.urlparse StandinWeb.requests_get false
           (fun _ => None) (fun _ => "") resp_text " example.com/cats "
           "Cats are mammals. Dogs are mammals too. Cats and dogs are popular pets.").
  vm_compute. reflexivity.
Defined.

Lemma api_summarize_accepted_witness :
  exists data summary,
    get_json StandinWeb.summarize_request = Some (JObject data)
    /\ Standin.summarize Standin.cats_text
         (PyFloat (request_ratio Standin.float_of_str (dict_get data "ratio")))
       = Returns summary
    /\ summary <> ""
    /\ api_summarize Standin.sent_tokenize Standin.word_tokenize Standin.STOP_WORDS
         Standin.float_of_str StandinWeb.summarize_request
       = (SummaryBody summary (calculate_stats Standin.cats_text summary), 200).
Proof.
  apply (api_summarize_accepted Standin.sent_tokenize Standin.word_tokenize
           Standin.STOP_WORDS Standin.float_of_str standin_nonempty
           StandinWeb.summarize_request Standin.cats_text).
  split; [reflexivity|].
  exists [("text", JStr ("  " ++ Standin.cats_text ++ "  ")); ("ratio", JStr "abc")],
    ("  " ++ Standin.cats_text ++ "  ")%string.
  split; [reflexivity|]. split; [reflexivity|]. split; [vm_compute; reflexivity|].
  change (String.length Standin.cats_text) with 99.
  unfold MIN_TEXT_LENGTH, MAX_TEXT_LENGTH. lia.
Defined.

Lemma api_chatbot_on_strings_witness :
  (api_chatbot Standin.sent_tokenize Standin.word_tokenize Standin.STOP_WORDS
     Standin.float_of_str StandinWeb.chatbot_request
   = if is_blank " Make it shorter! " then (ErrorBody "No question provided", 400)
     else if is_blank Standin.cats_text
     then (NoSummaryBody no_summary_message "No summary available", 200)
     else (AnswerBody
             (chat_with_summary Standin.sent_tokenize Standin.word_tokenize
                Standin.STOP_WORDS Standin.float_of_str
                (py_strip " Make it shorter! ") (py_strip Standin.cats_text))
             (py_strip " Make it shorter! "), 200))
  /\ (is_blank " Make it shorter! " = false -> is_blank Standin.cats_text = false ->
      respond Standin.sent_tokenize Standin.word_tokenize Standin.STOP_WORDS
        Standin.float_of_str
        (detect_intent (py_strip " Make it shorter! "))
        (py_strip " Make it shorter! ") (py_strip Standin.cats_text)
      = Returns (chat_with_summary Standin.sent_tokenize Standin.word_tokenize
                   Standin.STOP_WORDS Standin.float_of_str
                   (py_strip " Make it shorter! ") (py_strip Standin.cats_text))).
Proof.
  apply (api_chatbot_on_strings Standin.sent_tokenize Standin.word_tokenize
           Standin.STOP_WORDS Standin.float_of_str
           StandinWeb.chatbot_request StandinWeb.chatbot_data
           " Make it shorter! " Standin.cats_text);
    reflexivity.
Defined.
